(** * symbol-network: topology expansion, key store and genesis assembly

    A shallow embedding of the core of the [symbol-network] command line
    tool (TypeScript) together with the properties stated about it.

    - [src/model/NodeInformation.ts]: the node-type catalog and
      [NodeMetadataUtils.getAssembly];
    - [src/services/NetworkUtils.ts]: [zeroPad], [getTransactionKey], the
      URL helpers and the network file load and save;
    - [src/services/NetworkConfigurationService.ts]: [expandNodes],
      [updateNetworkPreset], the [LocalFileKeyStore] and the
      [LazyKeyStore];
    - [src/services/NetworkGenesisService.ts]: [generateNemesis];
    - [src/services/NetworkAccountResolver.ts]: [resolveAccount];
    - [src/utils/NetworkCommandUtils.ts]: the password flag,
      [resolvePassword] and the factory of [createStore];
    - [src/utils/InitService.ts]: the validators [isValidName] and
      [isValidTemplate].

    JavaScript values are modelled as follows.  Strings are [string]s
    (sequences of code units); objects used as dictionaries are [gmap]s
    keyed by [string]; optional fields are [option]s and the truthiness
    tests of the source ([a || b], [if (a)], [!a]) are written out.
    Node numbers, counters and epochs are whole non-negative numbers and
    are modelled as [nat].  Balances are whole numbers held in IEEE
    doubles: they are modelled as [Z] and every arithmetic operation on
    them rounds to the nearest double (ties to even), see [roundDouble].
    A thrown [Error] is a value of type [Error]; code that can throw
    returns a [Result].  The SDK, the toolkit and the runtime are
    parameters of the model (the class [Externals]): where they throw,
    the parameter is partial, and the caller throws a [ToolkitFailure]. *)

From Stdlib Require Import ZArith String Ascii List Lia Bool Decimal DecimalString DecimalNat.
From stdpp Require Import base option gmap strings list.

Local Open Scope string_scope.
Local Open Scope Z_scope.

(** ** Errors and results *)

(** One constructor per [throw] site of the modelled code.  The names are
    those of the error taxonomy where it has one.  [ToolkitFailure] is
    what the toolkit, the SDK or the runtime throw of their own. *)
Inductive Error : Type :=
  | InputFileMissing (file : string)
  | StorageFileMissing (file : string)
  | InvalidPrivateKey (privateKey : string)
  | UnreadableVotingFile
  | AccountNotFound
  | EpochMismatch (field : string) (expected got : nat)
  | DuplicateIdentifier (what : string)
  | ExistingNetwork
  | AlreadyGenerated
  | UnresolvedConfigValue (what : string)
  | NoCandidateNode
  | ToolkitFailure (what : string).

Inductive Result (A : Type) : Type :=
  | Ok (a : A)
  | Err (e : Error).
Arguments Ok {A} a.
Arguments Err {A} e.



(** ** JavaScript strings *)

Module Js.

(** [s.startsWith(p)] *)
Fixpoint startsWith (p s : string) : bool :=
  match p, s with
  | EmptyString, _ => true
  | String a p', String b s' => if Ascii.eqb a b then startsWith p' s' else false
  | String _ _, EmptyString => false
  end.

(** [s.slice(n)] for [0 <= n] *)
Fixpoint drop (n : nat) (s : string) : string :=
  match n, s with
  | O, _ => s
  | S n', String _ s' => drop n' s'
  | S _, EmptyString => EmptyString
  end.

(** [s.indexOf(p)] splits [s] at the first occurrence of [p]: the text
    before the match and the text after it; [None] when [p] does not
    occur (the source's [-1]). *)
Fixpoint splitAtFirst (p s : string) : option (string * string) :=
  if startsWith p s then Some (EmptyString, drop (String.length p) s)
  else match s with
       | EmptyString => None
       | String c s' =>
           match splitAtFirst p s' with
           | Some (before, after) => Some (String c before, after)
           | None => None
           end
       end.

(** [GetSubstitution] of ECMA-262 for a search value that is a string:
    there are no captures, so of the dollar patterns only [$$], [$&],
    [$`] and [$'] are special; [$1] .. [$99] and [$<] stay as they are. *)
Fixpoint getSubstitution (matched before after template : string) : string :=
  match template with
  | EmptyString => EmptyString
  | String c rest =>
      if Ascii.eqb c "$" then
        match rest with
        | EmptyString => String c EmptyString
        | String d rest' =>
            if Ascii.eqb d "$" then String "$" (getSubstitution matched before after rest')
            else if Ascii.eqb d "&" then matched +:+ getSubstitution matched before after rest'
            else if Ascii.eqb d "`" then before +:+ getSubstitution matched before after rest'
            else if Ascii.eqb d "'" then after +:+ getSubstitution matched before after rest'
            else String c (getSubstitution matched before after rest)
        end
      else String c (getSubstitution matched before after rest)
  end.

(** [s.replace(p, r)] with a string pattern [p]: only the first
    occurrence is replaced. *)
Definition replace (s p r : string) : string :=
  match splitAtFirst p s with
  | None => s
  | Some (before, after) => before +:+ getSubstitution p before after r +:+ after
  end.

(** [String(n)] for a whole number [0 <= n <= 2^53], the range in which
    every whole number is a double and is printed with all its digits.
    (Above it [String] prints the shortest digits that read back as the
    same double, and from [10^21] on an exponent.) *)
Definition numberToString (n : nat) : string :=
  NilEmpty.string_of_uint (Nat.to_uint n).

Fixpoint repeatChar (c : ascii) (n : nat) : string :=
  match n with
  | O => EmptyString
  | S n' => String c (repeatChar c n')
  end.

(** [s.padStart(places, c)] with a one character filler *)
Definition padStart (s : string) (places : nat) (c : ascii) : string :=
  repeatChar c (places - String.length s)%nat +:+ s.

(** Number of places at which [p] occurs in [s]. *)
Fixpoint occurrences (p s : string) : nat :=
  match s with
  | EmptyString => if startsWith p EmptyString then 1%nat else 0%nat
  | String _ s' => ((if startsWith p s then 1 else 0) + occurrences p s')%nat
  end.

(** *** Callbacks

    What a callback returns: a boolean, or, for an [async] function, the
    promise of one.  A promise is an object, and [ToBoolean] of an object
    is [true]. *)
Inductive callbackResult : Type :=
  | Boolean (b : bool)
  | Promise (settled : bool).

Definition toBoolean (v : callbackResult) : bool :=
  match v with
  | Boolean b => b
  | Promise _ => true
  end.

(** [array.find(predicate)] *)
Definition find {A} (array : list A) (predicate : A -> callbackResult) : option A :=
  List.find (fun x => toBoolean (predicate x)) array.

(** *** Numbers

    A whole number held in an IEEE double.  [roundDouble] gives the
    double nearest to an integer (ties to even); past the largest finite
    double the result is an infinity.  Zeros are not signed. *)
Inductive number : Type :=
  | Num (z : Z)
  | Infinity (negative : bool)
  | NaN.

Definition roundMagnitude (m : Z) : Z :=
  if m <? 2 ^ 53 then m
  else
    let e := Z.log2 m - 52 in
    let q := m / 2 ^ e in
    let r := m mod 2 ^ e in
    let half := 2 ^ (e - 1) in
    let up := (half <? r) || ((r =? half) && Z.odd q) in
    (if up then q + 1 else q) * 2 ^ e.

Definition roundDouble (z : Z) : number :=
  let m := roundMagnitude (Z.abs z) in
  if 2 ^ 1024 <=? m then Infinity (z <? 0)
  else Num (Z.sgn z * m).

(** [a * b] for a whole number [a] that is a double *)
Definition mul (a : Z) (b : number) : number :=
  match b with
  | Num z => roundDouble (a * z)
  | Infinity neg => if a =? 0 then NaN else Infinity (xorb neg (a <? 0))
  | NaN => NaN
  end.

(** [10 ** d] for a whole [0 <= d].  Up to [d = 22] the power is a
    double and the exponentiation is exact.  Beyond, the model takes the
    double nearest to the power, which the exponentiation of an engine is
    not required to return. *)
Definition pow10 (d : nat) : number := roundDouble (10 ^ Z.of_nat d).

End Js.

(** ** The node-type catalog ([src/model/NodeInformation.ts]) *)

Inductive NodeMetadataType : Type :=
  | VotingDual
  | VotingPeer
  | VotingApi
  | HarvestingDual
  | HarvestingPeer
  | Services
  | Peer
  | Api
  | HarvestingDemo
  | VotingNonHarvestingPeer.

Inductive RestProtocol : Type :=
  | HttpOnly
  | HttpsOnly
  | HttpAndHttps.

#[global] Instance NodeMetadataType_eq_dec : EqDecision NodeMetadataType.
Proof. solve_decision. Defined.

#[global] Instance RestProtocol_eq_dec : EqDecision RestProtocol.
Proof. solve_decision. Defined.

Module NodeTypeMetadata.
Record t : Type := {
  name : string;
  balances : list Z;
  api : bool;
  peer : bool;
  harvesting : bool;
  voting : bool;
  demo : bool;
  services : option bool;
  nickName : string;
  assembly : option string;
  suggestedCount : nat
}.
End NodeTypeMetadata.
Abbreviation NodeTypeMetadata := NodeTypeMetadata.t.

(** The deployment profiles of the configuration toolkit
    ([Assembly] of [symbol-bootstrap]); a string enumeration whose members
    are spelled like their values. *)
Module Assembly.
Definition dual : string := "dual".
Definition peer : string := "peer".
Definition api : string := "api".
Definition demo : string := "demo".
Definition multinode : string := "multinode".
Definition services : string := "services".
End Assembly.

(** Truthiness of an optional string, [if (s)]: [undefined] and the empty
    string are falsy. *)
Definition truthyString (s : option string) : option string :=
  match s with
  | Some v => if String.eqb v "" then None else Some v
  | None => None
  end.

(** Truthiness of an optional whole number: [undefined] and [0] are
    falsy. *)
Definition truthyNat (n : option nat) : option nat :=
  match n with
  | Some O => None
  | Some v => Some v
  | None => None
  end.

Module NodeMetadataUtils.

Definition getAssembly (metadata : NodeTypeMetadata) : string :=
  match truthyString (NodeTypeMetadata.assembly metadata) with
  | Some a => a
  | None =>
      if NodeTypeMetadata.api metadata && NodeTypeMetadata.peer metadata then "dual"
      else if NodeTypeMetadata.api metadata then "api"
      else "peer"
  end.

End NodeMetadataUtils.

Section Catalog.
Import NodeTypeMetadata.

Definition nodesMetadata (t : NodeMetadataType) : NodeTypeMetadata :=
  match t with
  | VotingDual =>
      {| name := "Voting Dual"; balances := [3000000; 150];
         voting := true; harvesting := true; demo := false;
         api := true; peer := true; services := None;
         nickName := "dual"; assembly := None; suggestedCount := 3 |}
  | VotingPeer =>
      {| name := "Voting Peer"; balances := [3000000; 150];
         voting := true; harvesting := true; demo := false;
         api := false; peer := true; services := None;
         nickName := "beacon"; assembly := None; suggestedCount := 3 |}
  | VotingApi =>
      {| name := "Voting Api"; balances := [3000000; 150];
         voting := true; harvesting := false; demo := false;
         api := false; peer := true; services := None;
         nickName := "beacon"; assembly := None; suggestedCount := 3 |}
  | HarvestingDual =>
      {| name := "Harvesting Dual"; balances := [1000000; 150];
         voting := false; harvesting := true; demo := false;
         api := true; peer := true; services := None;
         nickName := "dual"; assembly := None; suggestedCount := 3 |}
  | HarvestingPeer =>
      {| name := "Harvesting Peer"; balances := [1000000; 150];
         voting := false; harvesting := true; demo := false;
         api := false; peer := true; services := None;
         nickName := "beacon"; assembly := None; suggestedCount := 3 |}
  | Services =>
      {| name := "Services"; balances := [];
         voting := false; harvesting := false; demo := false;
         api := false; peer := false; services := Some true;
         nickName := "services"; assembly := Some Assembly.services;
         suggestedCount := 1 |}
  | Peer =>
      {| name := "Peer"; balances := [1000; 0];
         voting := false; harvesting := false; demo := false;
         api := false; peer := true; services := None;
         nickName := "peer"; assembly := None; suggestedCount := 3 |}
  | Api =>
      {| name := "Api"; balances := [1000; 0];
         voting := false; harvesting := false; demo := false;
         api := true; peer := false; services := None;
         nickName := "api"; assembly := None; suggestedCount := 3 |}
  | HarvestingDemo =>
      {| name := "Harvesting Demo"; balances := [1000000; 150];
         voting := false; harvesting := true; demo := true;
         api := true; peer := true; services := None;
         nickName := "demo"; assembly := Some "demo"; suggestedCount := 1 |}
  | VotingNonHarvestingPeer =>
      {| name := "Non Harvesting Voting Peer"; balances := [51000000; 0];
         voting := true; harvesting := false; demo := false;
         api := false; peer := true; services := None;
         nickName := "peer"; assembly := None; suggestedCount := 3 |}
  end.

End Catalog.

(** [if (metadata.services)] *)
Definition isServices (metadata : NodeTypeMetadata) : bool :=
  match NodeTypeMetadata.services metadata with
  | Some b => b
  | None => false
  end.

(** ** Presets of the configuration toolkit

    [CustomPreset] and its parts are declared by [symbol-bootstrap]; they
    are deep-partial objects, so every field is optional.  The records
    hold the fields that this repository reads or writes. *)

Module NodePreset.
Record t : Type := {
  friendlyName : option string;
  host : option string;
  voting : option bool;
  harvesting : option bool;
  dockerComposeDebugMode : option bool;
  brokerDockerComposeDebugMode : option bool;
  excludeFromNemesis : option bool
}.
End NodePreset.
Abbreviation NodePreset := NodePreset.t.

Record GatewayPreset : Type := { openPort : bool }.

Record HttpsProxyPreset : Type := { excludeDockerService : bool }.

(** [faucets: [{ repeat, compose: { environment } }]] *)
Record FaucetPreset : Type := {
  repeat : option nat;
  environment : list (string * option string)
}.

Module CurrencyDistribution.
Record t (N : Type) : Type := {
  address : string;
  amount : N
}.
Arguments address {N} _.
Arguments amount {N} _.
End CurrencyDistribution.
Abbreviation CurrencyDistribution := CurrencyDistribution.t.

Module MosaicPreset.
Record t : Type := {
  divisibility : option nat;
  accounts : option (list string);
  currencyDistributions : option (list (CurrencyDistribution Js.number))
}.
End MosaicPreset.
Abbreviation MosaicPreset := MosaicPreset.t.

Module NemesisPreset.
Record t : Type := {
  nemesisSignerPrivateKey : option string;
  mosaics : option (list MosaicPreset);
  transactions : option (gmap string string)
}.
End NemesisPreset.
Abbreviation NemesisPreset := NemesisPreset.t.

Module PeerInfo.
Record t : Type := {
  publicKey : string;
  endpointHost : string;
  endpointPort : Z;
  metadataName : string;
  metadataRoles : string
}.
End PeerInfo.
Abbreviation PeerInfo := PeerInfo.t.

Module CustomPreset.
Record t : Type := {
  privateKeySecurityMode : option string;
  nodes : option (list NodePreset);
  gateways : option (list GatewayPreset);
  httpsProxies : option (list HttpsProxyPreset);
  faucets : option (list FaucetPreset);
  nemesisSeedFolder : option string;
  lastKnownNetworkEpoch : option nat;
  networkType : option nat;
  nemesisGenerationHashSeed : option string;
  nemesisSignerPublicKey : option string;
  harvestNetworkFeeSinkAddress : option string;
  namespaceRentalFeeSinkAddress : option string;
  mosaicRentalFeeSinkAddress : option string;
  votingKeyDesiredLifetime : option nat;
  knownRestGateways : option (list string);
  knownPeers : option (list PeerInfo);
  nemesis : option NemesisPreset
}.

(** The preset with no field set, [{}]. *)
Definition empty : t :=
  {| privateKeySecurityMode := None; nodes := None; gateways := None;
     httpsProxies := None; faucets := None; nemesisSeedFolder := None;
     lastKnownNetworkEpoch := None; networkType := None;
     nemesisGenerationHashSeed := None; nemesisSignerPublicKey := None;
     harvestNetworkFeeSinkAddress := None;
     namespaceRentalFeeSinkAddress := None;
     mosaicRentalFeeSinkAddress := None; votingKeyDesiredLifetime := None;
     knownRestGateways := None; knownPeers := None; nemesis := None |}.
End CustomPreset.
Abbreviation CustomPreset := CustomPreset.t.

(** [PrivateKeySecurityMode.PROMPT_MAIN_TRANSPORT] of the toolkit *)
Definition PROMPT_MAIN_TRANSPORT : string := "PROMPT_MAIN_TRANSPORT".

(** ** Network files ([src/model/NetworkFile.ts]) *)

Module NodeTypeInput.
Record t : Type := {
  nickName : string;
  nodeType : NodeMetadataType;
  total : nat;
  balances : list Z;
  restProtocol : option RestProtocol
}.
End NodeTypeInput.
Abbreviation NodeTypeInput := NodeTypeInput.t.

Module NodeInformation.
Record t : Type := {
  number : nat;
  nickName : string;
  friendlyName : string;
  assembly : string;
  hostname : string;
  nodeType : NodeMetadataType;
  restProtocol : option RestProtocol;
  balances : list Z;
  customPreset : option CustomPreset
}.
End NodeInformation.
Abbreviation NodeInformation := NodeInformation.t.

Module TransactionInformation.
Record t : Type := {
  type : string;
  nodeNumber : nat;
  typeNumber : nat;
  payload : string
}.
End TransactionInformation.
Abbreviation TransactionInformation := TransactionInformation.t.

Module BasicNetworkFile.
Record t : Type := {
  preset : string;
  cloneFromPreset : option string;
  networkType : nat;
  isNewNetwork : bool;
  nemesisSeedFolder : option string;
  faucetBalances : option (list Z);
  additionalCurrencyDistributions : option (list (list (CurrencyDistribution Z)));
  domain : string;
  suffix : string;
  friendlyNamePattern : option string;
  customNetworkPreset : option CustomPreset
}.
End BasicNetworkFile.
Abbreviation BasicNetworkFile := BasicNetworkFile.t.

(** [NetworkFile extends BasicNetworkFile] *)
Module NetworkFile.
Record t : Type := {
  basic : BasicNetworkFile;
  nodes : list NodeInformation
}.
End NetworkFile.
Abbreviation NetworkFile := NetworkFile.t.

(** [NetworkInputFile extends BasicNetworkFile] *)
Module NetworkInputFile.
Record t : Type := {
  basic : BasicNetworkFile;
  nodeTypes : list NodeTypeInput
}.
End NetworkInputFile.
Abbreviation NetworkInputFile := NetworkInputFile.t.

(** ** Key material *)

(** [Account] of the SDK, seen through its three getters. *)
Module Account.
Record t : Type := {
  privateKey : string;
  publicKey : string;
  address : string
}.
End Account.
Abbreviation Account := Account.t.

Module StoredAccount.
Record t : Type := {
  privateKey : string;
  publicKey : string;
  address : string
}.
End StoredAccount.
Abbreviation StoredAccount := StoredAccount.t.

(** [VotingKeyAccount] of the toolkit: what [readVotingFile] decodes. *)
Module VotingKeyAccount.
Record t : Type := {
  publicKey : string;
  startEpoch : nat;
  endEpoch : nat
}.
End VotingKeyAccount.
Abbreviation VotingKeyAccount := VotingKeyAccount.t.

(** [VotingKeyFileContent = VotingKeyAccount & { privateFileContent }] *)
Module VotingKeyFileContent.
Record t : Type := {
  publicKey : string;
  startEpoch : nat;
  endEpoch : nat;
  privateFileContent : list Byte.byte
}.
End VotingKeyFileContent.
Abbreviation VotingKeyFileContent := VotingKeyFileContent.t.

Module StoredVotingFile.
Record t : Type := {
  publicKey : string;
  privateFileContent : string
}.
End StoredVotingFile.
Abbreviation StoredVotingFile := StoredVotingFile.t.

Inductive NetworkAccountName : Type :=
  | founder
  | faucet
  | nemesisSigner
  | harvestNetworkFeeSink
  | mosaicRentalFeeSink
  | namespaceRentalFeeSink.

(** The property name under which an account is stored. *)
Definition accountNameKey (accountName : NetworkAccountName) : string :=
  match accountName with
  | founder => "founder"
  | faucet => "faucet"
  | nemesisSigner => "nemesisSigner"
  | harvestNetworkFeeSink => "harvestNetworkFeeSink"
  | mosaicRentalFeeSink => "mosaicRentalFeeSink"
  | namespaceRentalFeeSink => "namespaceRentalFeeSink"
  end.

(** [KeyName] of the toolkit, a string enumeration. *)
Module KeyName.
Inductive t : Type :=
  | Main
  | Remote
  | Transport
  | Voting
  | VRF
  | NemesisSigner
  | NemesisAccount
  | ServiceProvider
  | Agent.

Definition key (keyName : t) : string :=
  match keyName with
  | Main => "Main"
  | Remote => "Remote"
  | Transport => "Transport"
  | Voting => "Voting"
  | VRF => "VRF"
  | NemesisSigner => "Nemesis Signer"
  | NemesisAccount => "Nemesis Account"
  | ServiceProvider => "Service Provider"
  | Agent => "Agent"
  end.
End KeyName.
Abbreviation KeyName := KeyName.t.

Module KeyStorage.
Record t : Type := {
  network : gmap string StoredAccount;
  nodes : gmap string (gmap string StoredAccount);
  votingFiles : gmap string StoredVotingFile
}.

(** [{ nodes: {}, network: {}, votingFiles: {} }] *)
Definition defaultValue : t :=
  {| network := ∅; nodes := ∅; votingFiles := ∅ |}.
End KeyStorage.
Abbreviation KeyStorage := KeyStorage.t.

(** The transactions of the SDK that the genesis assembly creates, all
    with [LinkAction.Link] and the deadline [Deadline.createFromDTO('1')]. *)
Inductive Transaction : Type :=
  | VrfKeyLinkTransaction (linkedPublicKey : string) (networkType : nat)
  | AccountKeyLinkTransaction (linkedPublicKey : string) (networkType : nat)
  | VotingKeyLinkTransaction (linkedPublicKey : string) (startEpoch endEpoch : nat)
      (networkType : nat) (version : nat).

(** What [BootstrapService.config] is called with by the genesis assembly:
    the node handed to the account resolver, the preset name and the
    custom preset object. *)
Record ConfigParams : Type := {
  accountResolverNode : NodeInformation;
  configPreset : string;
  customPresetObject : CustomPreset
}.

(** [Password] of the toolkit: a text, [false] or [undefined]. *)
Inductive Password : Type :=
  | PasswordText (text : string)
  | PasswordFalse
  | PasswordUndefined.

(** The key-store file as written by [YamlUtils.writeYaml]: the document
    and the password it was encrypted with, if any. *)
Record KeyStoreDocument : Type := {
  document : KeyStorage;
  encryptedWith : option string
}.

(** How [service.config(params)] followed by [service.compose(...)]
    ends: it returns, or it throws, with or without the target folder
    left behind. *)
Inductive ToolkitRun : Type :=
  | Composed
  | Threw (e : Error) (targetLeft : bool).

(** ** External collaborators

    The SDK, the configuration toolkit and the runtime are not part of
    the repository.  The code is modelled against this interface.  A
    function that can throw returns an [option], [None] when it throws.
    The two generators draw from the source of randomness; they are
    functions of the number of draws made so far. *)
Class Externals : Type := {
  (** [Account.createFromPrivateKey(privateKey, networkType)] *)
  createFromPrivateKey : string -> nat -> option Account;
  (** [Account.generateNewAccount(networkType)] *)
  generateAccount : nat -> nat -> Account;
  (** [votingUtils.createVotingFile(privateKey, startEpoch, endEpoch)],
      which throws for a range it cannot make a file for *)
  createVotingFile : nat -> string -> nat -> nat -> option (list Byte.byte);
  (** [votingUtils.readVotingFile(content)] *)
  readVotingFile : list Byte.byte -> option VotingKeyAccount;
  (** [Buffer.from(bytes).toString('base64')] *)
  toBase64 : list Byte.byte -> string;
  (** [Buffer.from(text, 'base64')] *)
  fromBase64 : string -> list Byte.byte;
  (** [account.sign(transaction, generationHashSeed).payload] *)
  signPayload : Account -> Transaction -> string -> string;
  (** [YamlUtils.isYmlFile(name)] *)
  isYmlFile : string -> bool;
  (** [YamlUtils.loadYaml(file, password)] for the key-store file: what
      is read from the file with the password; it throws for a file it
      cannot decrypt *)
  loadYaml : KeyStoreDocument -> Password -> option KeyStorage;
  (** [ConfigLoader.loadNetworkPreset(preset, workingDir)], from the
      preset files of the working directory; it throws for a preset that
      does not exist *)
  loadNetworkPreset : string -> gmap string CustomPreset -> option CustomPreset;
  (** [configLoader.mergePresets(preset, customPreset)] *)
  mergePresets : CustomPreset -> option CustomPreset -> CustomPreset;
  (** [CryptoUtils.removePrivateKeys(network)] *)
  removePrivateKeys : NetworkFile -> NetworkFile;
  (** [join(a, b)] of [path] *)
  joinPath : string -> string -> string;
  (** [service.config(params)] followed by [service.compose(...)] *)
  configAndCompose : ConfigParams -> ToolkitRun
}.

(** ** State *)

(** The working directory: its path as the services are given it, the
    two network files, the preset files by name and the folders that
    exist in it, by name.  A path that the code does not join with the
    working directory is resolved against the current directory of the
    process: [currentDirectory] is [None] when that is the working
    directory, and else holds the folders of the current directory, a
    directory that the services do not write to. *)
Module Workspace.
Record t : Type := {
  path : string;
  currentDirectory : option (gset string);
  networkInputFile : option NetworkInputFile;
  networkFile : option NetworkFile;
  presetFiles : gmap string CustomPreset;
  folders : gset string
}.
End Workspace.
Abbreviation Workspace := Workspace.t.

(** ** Computations that read and write a state and may throw

    A [throw] aborts the computation; what was written before it stays
    written. *)
Definition M (S A : Type) : Type := S -> Result A * S.

Definition ret {S A} (a : A) : M S A := fun s => (Ok a, s).

Definition throw {S A} (e : Error) : M S A := fun s => (Err e, s).

Definition bind {S A B} (c : M S A) (k : A -> M S B) : M S B :=
  fun s =>
    match c s with
    | (Ok a, s') => k a s'
    | (Err e, s') => (Err e, s')
    end.

Definition get {S} : M S S := fun s => (Ok s, s).

Definition modify {S} (f : S -> S) : M S unit := fun s => (Ok tt, f s).

(** Runs a computation on a part of the state. *)
Definition zoom {S T A} (proj : S -> T) (inj : T -> S -> S) (c : M T A) : M S A :=
  fun s =>
    let '(r, t') := c (proj s) in (r, inj t' s).

Definition fromOption {S A} (e : Error) (o : option A) : M S A :=
  match o with
  | Some a => ret a
  | None => throw e
  end.

Declare Scope monad_scope.
Delimit Scope monad_scope with monad.
Notation "'let*' x ':=' c 'in' k" := (bind c (fun x => k))
  (at level 10, x pattern, c at level 100, k at level 200) : monad_scope.
Notation "c ';;' k" := (bind c (fun _ => k))
  (at level 100, k at level 200, right associativity) : monad_scope.
Local Open Scope monad_scope.

(** [for (const x of xs) body(x)] *)
Fixpoint forEach {S A} (xs : list A) (body : A -> M S unit) : M S unit :=
  match xs with
  | [] => ret tt
  | x :: xs' => body x ;; forEach xs' body
  end.

(** ** [src/services/NetworkUtils.ts] *)

Module NetworkUtils.

Definition NETWORK_INPUT_FILE : string := "network-input.yml".
Definition NETWORK_PRESET_FILE : string := "custom-network-preset.yml".
Definition KEY_STORE_FILE : string := "key-store.yml".
Definition NEMESIS_SEED_FOLDER : string := "nemesis-seed".

Definition zeroPad (num places : nat) : string :=
  Js.padStart (Js.numberToString num) places "0".

Definition getTransactionKey (transaction : TransactionInformation) : string :=
  Js.numberToString (TransactionInformation.typeNumber transaction) +:+ "_" +:+
  TransactionInformation.type transaction +:+ "_" +:+
  zeroPad (TransactionInformation.nodeNumber transaction) 5.

Definition resolveRestUrl (hostname : string) (restProtocol : option RestProtocol) : string :=
  match restProtocol with
  | Some HttpOnly => "http://" +:+ hostname +:+ ":3000"
  | _ => "https://" +:+ hostname +:+ ":3001"
  end.

Definition resolveExplorerUrl (hostname : string) : string :=
  "http://" +:+ hostname +:+ ":90".

Section Files.
Context `{Externals}.

Definition loadNetworkInput : M Workspace NetworkInputFile :=
  let* ws := get in
  fromOption (InputFileMissing NETWORK_INPUT_FILE) (Workspace.networkInputFile ws).


Definition saveNetwork (network : NetworkFile) : M Workspace unit :=
  modify (fun ws =>
    {| Workspace.path := Workspace.path ws;
       Workspace.currentDirectory := Workspace.currentDirectory ws;
       Workspace.networkInputFile := Workspace.networkInputFile ws;
       Workspace.networkFile := Some (removePrivateKeys network);
       Workspace.presetFiles := Workspace.presetFiles ws;
       Workspace.folders := Workspace.folders ws |}).

End Files.

End NetworkUtils.

(** ** The key store ([LocalFileKeyStore]) *)

Module LocalFileKeyStore.

(** A [LocalFileKeyStore] object together with what it acts on: its file,
    the number of times it wrote the file and the number of draws made
    from the source of randomness.  The field [password] is used as
    [this.password || undefined] only and holds the text of the password,
    [None] for [false] and [undefined]. *)
Record t : Type := {
  storage : KeyStorage;
  password : option string;
  storageFile : option KeyStoreDocument;
  writes : nat;
  draws : nat
}.

Definition setStorage (storage' : KeyStorage) (this : t) : t :=
  {| storage := storage'; password := password this;
     storageFile := storageFile this; writes := writes this; draws := draws this |}.

Section Operations.
Context `{Externals}.

Definition passwordText (password : Password) : option string :=
  match password with
  | PasswordText text => Some text
  | PasswordFalse | PasswordUndefined => None
  end.

(** The constructor: a file that exists is read with the password. *)
Definition new (password : Password) (mustExist : bool)
    (storageFile : option KeyStoreDocument) (draws : nat) : Result t :=
  match storageFile with
  | None =>
      if mustExist then Err (StorageFileMissing NetworkUtils.KEY_STORE_FILE)
      else Ok {| storage := KeyStorage.defaultValue; password := passwordText password;
                 storageFile := None; writes := 0; draws := draws |}
  | Some stored =>
      match loadYaml stored password with
      | Some storedValue =>
          Ok {| storage := storedValue; password := passwordText password;
                storageFile := storageFile; writes := 0; draws := draws |}
      | None => Err (ToolkitFailure "The storage file cannot be read")
      end
  end.

Definition toStored (account : Account) : StoredAccount :=
  {| StoredAccount.privateKey := Account.privateKey account;
     StoredAccount.publicKey := Account.publicKey account;
     StoredAccount.address := Account.address account |}.

(** [Utils.validatePassword(password)] of the toolkit, which throws for
    a password of fewer than four characters. *)
Definition validPassword (password : string) : bool :=
  (4 <=? String.length password)%nat.

(** [YamlUtils.writeYaml(this.storageFile, this.storage, this.password ||
    undefined)]: with a password, the toolkit validates it before it
    encrypts the document and writes the file. *)
Definition save : M t unit :=
  let* this := get in
  let write :=
    modify (fun this =>
      {| storage := storage this; password := password this;
         storageFile := Some {| document := storage this;
                                encryptedWith := truthyString (password this) |};
         writes := S (writes this); draws := draws this |}) in
  match truthyString (password this) with
  | Some text =>
      if validPassword text then write
      else throw (ToolkitFailure "Password is too short")
  | None => write
  end.

(** One draw from the source of randomness. *)
Definition draw : M t nat :=
  fun this =>
    (Ok (draws this),
     {| storage := storage this; password := password this;
        storageFile := storageFile this; writes := writes this;
        draws := S (draws this) |}).

Definition generateNewAccount (generate : bool) (networkType : nat) : M t Account :=
  if negb generate then throw AccountNotFound
  else
    let* n := draw in
    ret (generateAccount n networkType).

(** [Account.createFromPrivateKey], which throws on a malformed key. *)
Definition accountFromPrivateKey (privateKey : string) (networkType : nat) : M t Account :=
  fromOption (InvalidPrivateKey privateKey) (createFromPrivateKey privateKey networkType).

Definition createVotingKeyFile (votingAccount : Account) (nodeName : string)
    (startEpoch endEpoch : nat) : M t (list Byte.byte) :=
  let* n := draw in
  fromOption (ToolkitFailure "The voting key file cannot be created")
    (createVotingFile n (Account.privateKey votingAccount) startEpoch endEpoch).

Definition votingFileKey (nodeName : string) (nodeInformation : NodeInformation)
    (startEpoch endEpoch : nat) : string :=
  nodeName +:+ "-" +:+ Js.numberToString (NodeInformation.number nodeInformation) +:+ "-" +:+
  Js.numberToString startEpoch +:+ "-" +:+ Js.numberToString endEpoch.

Definition getVotingKeyFile (networkType : nat) (nodeName : string)
    (nodeInformation : NodeInformation) (startEpoch endEpoch : nat) : M t VotingKeyFileContent :=
  let nodeKey := votingFileKey nodeName nodeInformation startEpoch endEpoch in
  let* this := get in
  match KeyStorage.votingFiles (storage this) !! nodeKey with
  | Some storedFile =>
      let privateFileContent := fromBase64 (StoredVotingFile.privateFileContent storedFile) in
      let* votingFile := fromOption UnreadableVotingFile (readVotingFile privateFileContent) in
      if negb (VotingKeyAccount.startEpoch votingFile =? startEpoch)%nat then
        throw (EpochMismatch "startEpoch" startEpoch (VotingKeyAccount.startEpoch votingFile))
      else if negb (VotingKeyAccount.endEpoch votingFile =? endEpoch)%nat then
        throw (EpochMismatch "endEpoch" endEpoch (VotingKeyAccount.endEpoch votingFile))
      else
        ret {| VotingKeyFileContent.publicKey := VotingKeyAccount.publicKey votingFile;
               VotingKeyFileContent.startEpoch := VotingKeyAccount.startEpoch votingFile;
               VotingKeyFileContent.endEpoch := VotingKeyAccount.endEpoch votingFile;
               VotingKeyFileContent.privateFileContent := privateFileContent |}
  | None =>
      let* votingAccount := generateNewAccount true networkType in
      let* privateFileContent := createVotingKeyFile votingAccount nodeName startEpoch endEpoch in
      modify (fun this =>
        setStorage
          {| KeyStorage.network := KeyStorage.network (storage this);
             KeyStorage.nodes := KeyStorage.nodes (storage this);
             KeyStorage.votingFiles :=
               <[nodeKey := {| StoredVotingFile.publicKey := Account.publicKey votingAccount;
                               StoredVotingFile.privateFileContent := toBase64 privateFileContent |}]>
                 (KeyStorage.votingFiles (storage this)) |}
          this) ;;
      save ;;
      ret {| VotingKeyFileContent.publicKey := Account.publicKey votingAccount;
             VotingKeyFileContent.startEpoch := startEpoch;
             VotingKeyFileContent.endEpoch := endEpoch;
             VotingKeyFileContent.privateFileContent := privateFileContent |}
  end.

Definition setNetworkAccount (accountName : NetworkAccountName) (stored : StoredAccount)
    (this : t) : t :=
  setStorage
    {| KeyStorage.network := <[accountNameKey accountName := stored]> (KeyStorage.network (storage this));
       KeyStorage.nodes := KeyStorage.nodes (storage this);
       KeyStorage.votingFiles := KeyStorage.votingFiles (storage this) |}
    this.

Definition saveNetworkAccount (networkType : nat) (accountName : NetworkAccountName)
    (privateKey : string) : M t unit :=
  let* account := accountFromPrivateKey privateKey networkType in
  modify (setNetworkAccount accountName (toStored account)) ;;
  save.

Definition getNetworkAccount (networkType : nat) (accountName : NetworkAccountName)
    (generate : bool) : M t Account :=
  let* this := get in
  let* storedAccount :=
    match KeyStorage.network (storage this) !! accountNameKey accountName with
    | Some stored => ret stored
    | None =>
        let* generated := generateNewAccount generate networkType in
        ret (toStored generated)
    end in
  let* account := accountFromPrivateKey (StoredAccount.privateKey storedAccount) networkType in
  modify (setNetworkAccount accountName (toStored account)) ;;
  save ;;
  ret account.

Definition nodeKey (nodeName : string) (nodeInformation : NodeInformation) : string :=
  nodeName +:+ "-" +:+ Js.numberToString (NodeInformation.number nodeInformation).

Definition setNodeAccount (nodeName : string) (nodeInformation : NodeInformation)
    (keyName : KeyName) (stored : StoredAccount) (this : t) : t :=
  let key := nodeKey nodeName nodeInformation in
  let accounts := default ∅ (KeyStorage.nodes (storage this) !! key) in
  setStorage
    {| KeyStorage.network := KeyStorage.network (storage this);
       KeyStorage.nodes := <[key := <[KeyName.key keyName := stored]> accounts]> (KeyStorage.nodes (storage this));
       KeyStorage.votingFiles := KeyStorage.votingFiles (storage this) |}
    this.

Definition getNodeAccount (networkType : nat) (keyName : KeyName) (nodeName : string)
    (nodeInformation : NodeInformation) (generate : bool) : M t Account :=
  let* this := get in
  let* storedAccount :=
    match KeyStorage.nodes (storage this) !! nodeKey nodeName nodeInformation
            ≫= (fun accounts => accounts !! KeyName.key keyName) with
    | Some stored => ret stored
    | None =>
        let* generated := generateNewAccount generate networkType in
        ret (toStored generated)
    end in
  let* account := accountFromPrivateKey (StoredAccount.privateKey storedAccount) networkType in
  modify (setNodeAccount nodeName nodeInformation keyName (toStored account)) ;;
  save ;;
  ret account.

End Operations.

End LocalFileKeyStore.
Abbreviation LocalFileKeyStore := LocalFileKeyStore.t.

Record World : Type := {
  keyStore : LocalFileKeyStore;
  workspace : Workspace
}.

(** ** Lodash *)

Module Lodash.

(** [_.uniqBy(array, iteratee)]: the elements whose key was not seen
    before, in order. *)
Fixpoint uniqByFrom {A} (iteratee : A -> string) (seen : list string) (array : list A) : list A :=
  match array with
  | [] => []
  | x :: rest =>
      if bool_decide (iteratee x ∈ seen) then uniqByFrom iteratee seen rest
      else x :: uniqByFrom iteratee (iteratee x :: seen) rest
  end.

Definition uniqBy {A} (array : list A) (iteratee : A -> string) : list A :=
  uniqByFrom iteratee [] array.

(** [_.mapValues(_.keyBy(array, key), value)]: a later element replaces
    an earlier one with the same key. *)
Definition keyByMapValues {A B} (array : list A) (key : A -> string) (value : A -> B) : gmap string B :=
  fold_left (fun m x => <[key x := value x]> m) array ∅.

End Lodash.

(** ** Topology expansion
    ([NetworkConfigurationService.expandNodes]) *)

Module NetworkConfigurationService.

(** The variables of the loops of [expandNodes]. *)
Record ExpandState : Type := {
  nodes : list NodeInformation;
  nodeCounter : nat;
  counters : gmap string nat
}.

Definition defaultFriendlyNamePattern : string := "$suffix-$nickname-$friendlyNumber".

(** [Object.entries(friendlyNamePatternData).reduce((pattern, [key,
    value]) => pattern.replace(`$${key}`, value), friendlyNamePattern)] *)
Definition formatFriendlyName (friendlyNamePattern suffix nickname friendlyNumber : string) : string :=
  fold_left (fun pattern '(key, value) => Js.replace pattern ("$" +:+ key) value)
    [("suffix", suffix); ("nickname", nickname); ("friendlyNumber", friendlyNumber)]
    friendlyNamePattern.

(** The custom preset of one node. *)
Definition nodeCustomPreset (metadata : NodeTypeMetadata) (restProtocol : option RestProtocol)
    (friendlyName hostname : string) : CustomPreset :=
  let httpsOnly := NodeTypeMetadata.api metadata && bool_decide (restProtocol = Some HttpsOnly) in
  let httpAndHttps := NodeTypeMetadata.api metadata && bool_decide (restProtocol = Some HttpAndHttps) in
  let proxies := Some [ {| excludeDockerService := false |} ] in
  {| CustomPreset.privateKeySecurityMode := Some PROMPT_MAIN_TRANSPORT;
     CustomPreset.nodes := Some [
       {| NodePreset.friendlyName := Some friendlyName;
          NodePreset.host := Some hostname;
          NodePreset.voting := Some (NodeTypeMetadata.voting metadata);
          NodePreset.harvesting := Some (NodeTypeMetadata.harvesting metadata);
          NodePreset.dockerComposeDebugMode := Some false;
          NodePreset.brokerDockerComposeDebugMode := Some false;
          NodePreset.excludeFromNemesis := None |} ];
     CustomPreset.gateways :=
       if httpAndHttps then Some [ {| openPort := true |} ]
       else if httpsOnly then Some [ {| openPort := false |} ]
       else None;
     CustomPreset.httpsProxies :=
       if httpAndHttps then proxies else if httpsOnly then proxies else None;
     CustomPreset.faucets :=
       if NodeTypeMetadata.demo metadata then
         Some [ {| repeat := None;
                   environment :=
                     [ ("DEFAULT_NODE_CLIENT", Some (NetworkUtils.resolveRestUrl hostname restProtocol));
                       ("EXPLORER_URL", Some (NetworkUtils.resolveExplorerUrl hostname)) ] |} ]
       else None;
     CustomPreset.nemesisSeedFolder := None;
     CustomPreset.lastKnownNetworkEpoch := None;
     CustomPreset.networkType := None;
     CustomPreset.nemesisGenerationHashSeed := None;
     CustomPreset.nemesisSignerPublicKey := None;
     CustomPreset.harvestNetworkFeeSinkAddress := None;
     CustomPreset.namespaceRentalFeeSinkAddress := None;
     CustomPreset.mosaicRentalFeeSinkAddress := None;
     CustomPreset.votingKeyDesiredLifetime := None;
     CustomPreset.knownRestGateways := None;
     CustomPreset.knownPeers := None;
     CustomPreset.nemesis := None |}.

(** The body of the inner loop: one more node of the group
    [nodeTypeInput]. *)
Definition expandNode (input : BasicNetworkFile) (nodeTypeInput : NodeTypeInput)
    (st : ExpandState) : ExpandState :=
  let nickname := NodeTypeInput.nickName nodeTypeInput in
  let regionIndex := 0%nat in
  let counterIndex := nickname +:+ Js.numberToString regionIndex in
  let nickNameNumber := (default 0 (counters st !! counterIndex) + 1)%nat in
  let counters' := <[counterIndex := nickNameNumber]> (counters st) in
  let friendlyNamePattern :=
    default defaultFriendlyNamePattern (truthyString (BasicNetworkFile.friendlyNamePattern input)) in
  let friendlyNumber := Js.numberToString regionIndex +:+ NetworkUtils.zeroPad nickNameNumber 2 in
  let suffix := BasicNetworkFile.suffix input in
  let friendlyName := formatFriendlyName friendlyNamePattern suffix nickname friendlyNumber in
  let hostname := friendlyName +:+ "." +:+ BasicNetworkFile.domain input in
  let metadata := nodesMetadata (NodeTypeInput.nodeType nodeTypeInput) in
  let assembly := NodeMetadataUtils.getAssembly metadata in
  let customPreset :=
    nodeCustomPreset metadata (NodeTypeInput.restProtocol nodeTypeInput) friendlyName hostname in
  let node :=
    {| NodeInformation.number := S (nodeCounter st);
       NodeInformation.friendlyName := friendlyName;
       NodeInformation.assembly := assembly;
       NodeInformation.hostname := hostname;
       NodeInformation.customPreset := Some customPreset;
       NodeInformation.nickName := NodeTypeInput.nickName nodeTypeInput;
       NodeInformation.nodeType := NodeTypeInput.nodeType nodeTypeInput;
       NodeInformation.balances := NodeTypeInput.balances nodeTypeInput;
       NodeInformation.restProtocol := NodeTypeInput.restProtocol nodeTypeInput |} in
  {| nodes := nodes st ++ [node];
     nodeCounter := S (nodeCounter st);
     counters := counters' |}.

(** [for (let index = 0; index < total; index++)] *)
Definition expandNodeType (input : BasicNetworkFile) (st : ExpandState)
    (nodeTypeInput : NodeTypeInput) : ExpandState :=
  Nat.iter (NodeTypeInput.total nodeTypeInput) (expandNode input nodeTypeInput) st.

(** Both loops: the nodes of the input, in order. *)
Definition expandedNodes (input : NetworkInputFile) : list NodeInformation :=
  nodes (fold_left (expandNodeType (NetworkInputFile.basic input))
           (NetworkInputFile.nodeTypes input)
           {| nodes := []; nodeCounter := 0; counters := ∅ |}).

Section ExpandNodes.
Context `{Externals}.

Definition expandNodes : M Workspace NetworkFile :=
  let* input := NetworkUtils.loadNetworkInput in
  let nodes := expandedNodes input in
  if negb (length nodes =? length (Lodash.uniqBy nodes NodeInformation.friendlyName))%nat then
    throw (DuplicateIdentifier "Duplicated friendlyNames!!")
  else if negb (length nodes =? length (Lodash.uniqBy nodes NodeInformation.hostname))%nat then
    throw (DuplicateIdentifier "Duplicated hostname!!")
  else
    let output :=
      {| NetworkFile.basic := NetworkInputFile.basic input;
         NetworkFile.nodes := nodes |} in
    NetworkUtils.saveNetwork output ;;
    ret output.

End ExpandNodes.

Section UpdateNetworkPreset.
Context `{Externals}.

Definition onKeyStore {A} (c : M LocalFileKeyStore A) : M World A :=
  zoom keyStore (fun k w => {| keyStore := k; workspace := workspace w |}) c.

Definition onWorkspace {A} (c : M Workspace A) : M World A :=
  zoom workspace (fun ws w => {| keyStore := keyStore w; workspace := ws |}) c.

(** [YamlUtils.writeYaml(join(workingDir, file), preset, undefined)] *)
Definition writePreset (file : string) (preset : CustomPreset) : M Workspace unit :=
  modify (fun ws =>
    {| Workspace.path := Workspace.path ws;
       Workspace.currentDirectory := Workspace.currentDirectory ws;
       Workspace.networkInputFile := Workspace.networkInputFile ws;
       Workspace.networkFile := Workspace.networkFile ws;
       Workspace.presetFiles := <[file := preset]> (Workspace.presetFiles ws);
       Workspace.folders := Workspace.folders ws |}).

Definition updateNetworkPreset (preset : string) (networkType : nat)
    (knownRestGateways : option (list string)) (knownPeers : option (list PeerInfo))
    (customNetworkPreset : option CustomPreset) (saveAsFile : string) : M World CustomPreset :=
  let* w := get in
  let* networkPreset :=
    fromOption (ToolkitFailure "The network preset cannot be loaded")
      (loadNetworkPreset preset (Workspace.presetFiles (workspace w))) in
  let* nemesisSignerAccount :=
    onKeyStore (LocalFileKeyStore.getNetworkAccount networkType nemesisSigner true) in
  let* harvestNetworkFeeSinkAccount :=
    onKeyStore (LocalFileKeyStore.getNetworkAccount networkType harvestNetworkFeeSink true) in
  let* namespaceRentalFeeSinkAccount :=
    onKeyStore (LocalFileKeyStore.getNetworkAccount networkType namespaceRentalFeeSink true) in
  let* mosaicRentalFeeSinkAccount :=
    onKeyStore (LocalFileKeyStore.getNetworkAccount networkType mosaicRentalFeeSink true) in
  let networkPreset' :=
    {| CustomPreset.privateKeySecurityMode := CustomPreset.privateKeySecurityMode networkPreset;
       CustomPreset.nodes := CustomPreset.nodes networkPreset;
       CustomPreset.gateways := CustomPreset.gateways networkPreset;
       CustomPreset.httpsProxies := CustomPreset.httpsProxies networkPreset;
       CustomPreset.faucets := CustomPreset.faucets networkPreset;
       CustomPreset.nemesisSeedFolder := Some NetworkUtils.NEMESIS_SEED_FOLDER;
       CustomPreset.lastKnownNetworkEpoch := Some 1%nat;
       CustomPreset.networkType := Some networkType;
       CustomPreset.nemesisGenerationHashSeed := CustomPreset.nemesisGenerationHashSeed networkPreset;
       CustomPreset.nemesisSignerPublicKey := Some (Account.publicKey nemesisSignerAccount);
       CustomPreset.harvestNetworkFeeSinkAddress := Some (Account.address harvestNetworkFeeSinkAccount);
       CustomPreset.namespaceRentalFeeSinkAddress := Some (Account.address namespaceRentalFeeSinkAccount);
       CustomPreset.mosaicRentalFeeSinkAddress := Some (Account.address mosaicRentalFeeSinkAccount);
       CustomPreset.votingKeyDesiredLifetime := CustomPreset.votingKeyDesiredLifetime networkPreset;
       CustomPreset.knownRestGateways := knownRestGateways;
       CustomPreset.knownPeers := knownPeers;
       CustomPreset.nemesis := CustomPreset.nemesis networkPreset |} in
  let toStoreNetworkPreset := mergePresets networkPreset' customNetworkPreset in
  onWorkspace (writePreset saveAsFile toStoreNetworkPreset) ;;
  ret toStoreNetworkPreset.

End UpdateNetworkPreset.

End NetworkConfigurationService.

(** ** Genesis assembly ([NetworkGenesisService.generateNemesis]) *)

Module NetworkGenesisService.

Record GenerateNemesisParams : Type := {
  regenerate : bool;
  password : option string;
  composeUser : option string
}.

Record NemesisBalance : Type := {
  mosaicIndex : nat;
  address : string;
  amount : Js.number
}.

(** The state of a run: the world and the local accumulators of
    [generateNemesis]. *)
Record Assembly : Type := {
  world : World;
  transactions : list TransactionInformation;
  knownPeers : list PeerInfo;
  nemesisBalances : list NemesisBalance;
  knownRestGateways : list string
}.

Definition start (w : World) : Assembly :=
  {| world := w; transactions := []; knownPeers := [];
     nemesisBalances := []; knownRestGateways := [] |}.

Definition setWorld (w : World) (a : Assembly) : Assembly :=
  {| world := w; transactions := transactions a; knownPeers := knownPeers a;
     nemesisBalances := nemesisBalances a; knownRestGateways := knownRestGateways a |}.

Definition onKeyStore {A} (c : M LocalFileKeyStore A) : M Assembly A :=
  zoom (fun a => keyStore (world a))
       (fun k a => setWorld {| keyStore := k; workspace := workspace (world a) |} a) c.

Definition onWorkspace {A} (c : M Workspace A) : M Assembly A :=
  zoom (fun a => workspace (world a))
       (fun ws a => setWorld {| keyStore := keyStore (world a); workspace := ws |} a) c.

Definition pushTransaction (t : TransactionInformation) : M Assembly unit :=
  modify (fun a =>
    {| world := world a; transactions := transactions a ++ [t]; knownPeers := knownPeers a;
       nemesisBalances := nemesisBalances a; knownRestGateways := knownRestGateways a |}).

Definition pushKnownPeer (p : PeerInfo) : M Assembly unit :=
  modify (fun a =>
    {| world := world a; transactions := transactions a; knownPeers := knownPeers a ++ [p];
       nemesisBalances := nemesisBalances a; knownRestGateways := knownRestGateways a |}).

Definition pushNemesisBalance (b : NemesisBalance) : M Assembly unit :=
  modify (fun a =>
    {| world := world a; transactions := transactions a; knownPeers := knownPeers a;
       nemesisBalances := nemesisBalances a ++ [b]; knownRestGateways := knownRestGateways a |}).

Definition pushKnownRestGateway (url : string) : M Assembly unit :=
  modify (fun a =>
    {| world := world a; transactions := transactions a; knownPeers := knownPeers a;
       nemesisBalances := nemesisBalances a; knownRestGateways := knownRestGateways a ++ [url] |}).

(** [array.forEach((x, index) => body)], from the index [index] on *)
Fixpoint forEachFrom {St A} (index : nat) (xs : list A) (body : A -> nat -> M St unit) : M St unit :=
  match xs with
  | [] => ret tt
  | x :: xs' => body x index ;; forEachFrom (S index) xs' body
  end.

Definition divisibilityOf {S} (m : MosaicPreset) : M S nat :=
  fromOption (UnresolvedConfigValue "Divisibility should be defined!!")
    (MosaicPreset.divisibility m).

(** The balances of one node: lines 134 to 147. *)
Definition pushNodeBalances (mosaics : list MosaicPreset) (balances : list Z)
    (mainAddress : string) : M Assembly unit :=
  forEachFrom 0 mosaics (fun m mosaicIndex =>
    let nodeBalance := default 0 (balances !! mosaicIndex) in
    if nodeBalance =? 0 then ret tt
    else
      let* divisibility := divisibilityOf m in
      pushNemesisBalance
        {| mosaicIndex := mosaicIndex;
           address := mainAddress;
           amount := Js.mul nodeBalance (Js.pow10 divisibility) |}).

(** The balances of the faucet: lines 209 to 222. *)
Definition pushFaucetBalances (mosaics : list MosaicPreset) (faucetBalances : list Z)
    (faucetAddress : string) : M Assembly unit :=
  forEachFrom 0 mosaics (fun m mosaicIndex =>
    match faucetBalances !! mosaicIndex with
    | None => ret tt
    | Some faucetBalance =>
        if faucetBalance =? 0 then ret tt
        else
          let* divisibility := divisibilityOf m in
          pushNemesisBalance
            {| mosaicIndex := mosaicIndex;
               address := faucetAddress;
               amount := Js.mul faucetBalance (Js.pow10 divisibility) |}
    end).

(** The additional distributions: lines 227 to 242. *)
Definition pushAdditionalCurrencyDistributions (mosaics : list MosaicPreset)
    (additionalCurrencyDistributions : list (list (CurrencyDistribution Z))) : M Assembly unit :=
  forEachFrom 0 mosaics (fun m mosaicIndex =>
    match additionalCurrencyDistributions !! mosaicIndex with
    | None => ret tt
    | Some mosaicAdditionalCurrencyDistributions =>
        let* divisibility := divisibilityOf m in
        forEach mosaicAdditionalCurrencyDistributions (fun distribution =>
          pushNemesisBalance
            {| mosaicIndex := mosaicIndex;
               address := CurrencyDistribution.address distribution;
               amount := Js.mul (CurrencyDistribution.amount distribution) (Js.pow10 divisibility) |})
    end).

Definition onWorld {A} (c : M World A) : M Assembly A :=
  zoom world setWorld c.

(** The node handed to the toolkit: lines 276 to 282.  The predicate is
    an [async] function. *)
Definition isHarvesting (n : NodeInformation) : Js.callbackResult :=
  let metadata := nodesMetadata (NodeInformation.nodeType n) in
  Js.Promise (NodeTypeMetadata.harvesting metadata).

Definition candidateNode {St} (nodes : list NodeInformation) : M St NodeInformation :=
  fromOption NoCandidateNode (Js.find nodes isHarvesting).



(** [this.fileSystemService.deleteFolder(join(this.workingDir, folder))] *)
Definition deleteFolder (folder : string) : M Workspace unit :=
  modify (fun ws =>
    {| Workspace.path := Workspace.path ws;
       Workspace.currentDirectory := Workspace.currentDirectory ws;
       Workspace.networkInputFile := Workspace.networkInputFile ws;
       Workspace.networkFile := Workspace.networkFile ws;
       Workspace.presetFiles := Workspace.presetFiles ws;
       Workspace.folders := Workspace.folders ws ∖ {[folder]} |}).


Section GenerateNemesis.
Context `{Externals}.

Definition nodeName : string := "node".

(** [roles.join(',')] *)
Definition rolesOf (metadata : NodeTypeMetadata) : string :=
  String.concat ","
    ((if NodeTypeMetadata.api metadata then ["Api"] else []) ++
     (if NodeTypeMetadata.peer metadata then ["Peer"] else []) ++
     (if NodeTypeMetadata.voting metadata then ["Voting"] else [])).

(** The body of the loop over the nodes: lines 96 to 192. *)
Definition processNode (networkType : nat) (networkPreset : CustomPreset)
    (mosaics : list MosaicPreset) (nemesisGenerationHashSeed : string)
    (node : NodeInformation) : M Assembly unit :=
  let metadata := nodesMetadata (NodeInformation.nodeType node) in
  if isServices metadata then ret tt
  else
    let* mainAccount :=
      onKeyStore (LocalFileKeyStore.getNodeAccount networkType KeyName.Main nodeName node true) in
    let* vrfAccount :=
      onKeyStore (LocalFileKeyStore.getNodeAccount networkType KeyName.VRF nodeName node true) in
    let* remoteAccount :=
      onKeyStore (LocalFileKeyStore.getNodeAccount networkType KeyName.Remote nodeName node true) in
    pushKnownPeer
      {| PeerInfo.publicKey := Account.publicKey mainAccount;
         PeerInfo.endpointHost := NodeInformation.hostname node;
         PeerInfo.endpointPort := 7900;
         PeerInfo.metadataName := NodeInformation.friendlyName node;
         PeerInfo.metadataRoles := rolesOf metadata |} ;;
    (if NodeTypeMetadata.api metadata then
       pushKnownRestGateway
         (NetworkUtils.resolveRestUrl (NodeInformation.hostname node)
            (NodeInformation.restProtocol node))
     else ret tt) ;;
    pushNodeBalances mosaics (NodeInformation.balances node) (Account.address mainAccount) ;;
    pushTransaction
      {| TransactionInformation.nodeNumber := NodeInformation.number node;
         TransactionInformation.type := "VRF";
         TransactionInformation.typeNumber := 1;
         TransactionInformation.payload :=
           signPayload mainAccount
             (VrfKeyLinkTransaction (Account.publicKey vrfAccount) networkType)
             nemesisGenerationHashSeed |} ;;
    pushTransaction
      {| TransactionInformation.nodeNumber := NodeInformation.number node;
         TransactionInformation.type := "Remote";
         TransactionInformation.typeNumber := 2;
         TransactionInformation.payload :=
           signPayload mainAccount
             (AccountKeyLinkTransaction (Account.publicKey remoteAccount) networkType)
             nemesisGenerationHashSeed |} ;;
    if NodeTypeMetadata.voting metadata then
      let* votingKeyDesiredLifetime :=
        fromOption (UnresolvedConfigValue "votingKeyDesiredLifetime must be resolved!")
          (match truthyNat (NodeInformation.customPreset node ≫= CustomPreset.votingKeyDesiredLifetime) with
           | Some lifetime => Some lifetime
           | None => truthyNat (CustomPreset.votingKeyDesiredLifetime networkPreset)
           end) in
      let* votingFileData :=
        onKeyStore (LocalFileKeyStore.getVotingKeyFile networkType nodeName node 1
                      votingKeyDesiredLifetime) in
      pushTransaction
        {| TransactionInformation.nodeNumber := NodeInformation.number node;
           TransactionInformation.type := "Voting";
           TransactionInformation.typeNumber := 3;
           TransactionInformation.payload :=
             signPayload mainAccount
               (VotingKeyLinkTransaction (VotingKeyFileContent.publicKey votingFileData)
                  (VotingKeyFileContent.startEpoch votingFileData)
                  (VotingKeyFileContent.endEpoch votingFileData) networkType 1)
               nemesisGenerationHashSeed |}
    else ret tt.


(** The preset handed to the toolkit: lines 245 to 273. *)
Definition nemesisCustomPreset (mosaics : list MosaicPreset) (signer founderAccount : Account)
    (faucetAccount : option Account) (nemesisBalances : list NemesisBalance)
    (nemesisTransactions : gmap string string) : CustomPreset :=
  {| CustomPreset.privateKeySecurityMode := None;
     CustomPreset.nodes := Some [
       {| NodePreset.friendlyName := Some "nemesis-private-node";
          NodePreset.host := None;
          NodePreset.voting := Some false;
          NodePreset.harvesting := None;
          NodePreset.dockerComposeDebugMode := None;
          NodePreset.brokerDockerComposeDebugMode := None;
          NodePreset.excludeFromNemesis := Some true |} ];
     CustomPreset.gateways := None;
     CustomPreset.httpsProxies := None;
     CustomPreset.faucets := Some [
       {| repeat := Some (match faucetAccount with Some _ => 1 | None => 0 end)%nat;
          environment := [ ("FAUCET_PRIVATE_KEY", Account.privateKey <$> faucetAccount) ] |} ];
     CustomPreset.nemesisSeedFolder := Some "";
     CustomPreset.lastKnownNetworkEpoch := None;
     CustomPreset.networkType := None;
     CustomPreset.nemesisGenerationHashSeed := None;
     CustomPreset.nemesisSignerPublicKey := None;
     CustomPreset.harvestNetworkFeeSinkAddress := None;
     CustomPreset.namespaceRentalFeeSinkAddress := None;
     CustomPreset.mosaicRentalFeeSinkAddress := None;
     CustomPreset.votingKeyDesiredLifetime := None;
     CustomPreset.knownRestGateways := None;
     CustomPreset.knownPeers := None;
     CustomPreset.nemesis := Some
       {| NemesisPreset.nemesisSignerPrivateKey := Some (Account.privateKey signer);
          NemesisPreset.mosaics := Some
            (imap (fun index _ =>
               {| MosaicPreset.divisibility := None;
                  MosaicPreset.accounts := Some [Account.publicKey founderAccount];
                  MosaicPreset.currencyDistributions := Some
                    (map (fun n => {| CurrencyDistribution.address := address n;
                                      CurrencyDistribution.amount := amount n |})
                       (filter (fun n => mosaicIndex n = index) nemesisBalances)) |})
               mosaics);
          NemesisPreset.transactions := Some nemesisTransactions |} |}.

(** Everything [generateNemesis] does after its two guards and before it
    calls the toolkit: lines 58 to 282.  The result is what the toolkit is
    called with. *)
Definition assembleNemesis (input : NetworkFile) : M Assembly ConfigParams :=
  let basic := NetworkFile.basic input in
  let preset := BasicNetworkFile.preset basic in
  onWorkspace (deleteFolder "nemesis-target" ;; deleteFolder "nodes" ;; deleteFolder "distribution") ;;
  let* networkPreset :=
    onWorld (NetworkConfigurationService.updateNetworkPreset preset
               (BasicNetworkFile.networkType basic) None None
               (BasicNetworkFile.customNetworkPreset basic) preset) in
  let* nemesisGenerationHashSeed :=
    fromOption (UnresolvedConfigValue "nemesisGenerationHashSeed could not be resolved")
      (truthyString (CustomPreset.nemesisGenerationHashSeed networkPreset)) in
  let networkType := BasicNetworkFile.networkType basic in
  let* nemesisPreset :=
    fromOption (UnresolvedConfigValue "Nemesis must be resolved from network preset!")
      (CustomPreset.nemesis networkPreset) in
  let* mosaics :=
    fromOption (UnresolvedConfigValue "Network nemesis's mosaics must be found!")
      (NemesisPreset.mosaics nemesisPreset) in
  let* founderAccount :=
    onKeyStore (LocalFileKeyStore.getNetworkAccount networkType founder true) in
  forEach (NetworkFile.nodes input)
    (processNode networkType networkPreset mosaics nemesisGenerationHashSeed) ;;
  let* signer :=
    onKeyStore (LocalFileKeyStore.getNetworkAccount networkType nemesisSigner false) in
  let* a := get in
  let networkPreset' :=
    {| CustomPreset.privateKeySecurityMode := CustomPreset.privateKeySecurityMode networkPreset;
       CustomPreset.nodes := CustomPreset.nodes networkPreset;
       CustomPreset.gateways := CustomPreset.gateways networkPreset;
       CustomPreset.httpsProxies := CustomPreset.httpsProxies networkPreset;
       CustomPreset.faucets := CustomPreset.faucets networkPreset;
       CustomPreset.nemesisSeedFolder := CustomPreset.nemesisSeedFolder networkPreset;
       CustomPreset.lastKnownNetworkEpoch := CustomPreset.lastKnownNetworkEpoch networkPreset;
       CustomPreset.networkType := CustomPreset.networkType networkPreset;
       CustomPreset.nemesisGenerationHashSeed := CustomPreset.nemesisGenerationHashSeed networkPreset;
       CustomPreset.nemesisSignerPublicKey := CustomPreset.nemesisSignerPublicKey networkPreset;
       CustomPreset.harvestNetworkFeeSinkAddress := CustomPreset.harvestNetworkFeeSinkAddress networkPreset;
       CustomPreset.namespaceRentalFeeSinkAddress := CustomPreset.namespaceRentalFeeSinkAddress networkPreset;
       CustomPreset.mosaicRentalFeeSinkAddress := CustomPreset.mosaicRentalFeeSinkAddress networkPreset;
       CustomPreset.votingKeyDesiredLifetime := CustomPreset.votingKeyDesiredLifetime networkPreset;
       CustomPreset.knownRestGateways := Some (knownRestGateways a);
       CustomPreset.knownPeers := Some (knownPeers a);
       CustomPreset.nemesis := CustomPreset.nemesis networkPreset |} in
  onWorkspace (NetworkConfigurationService.writePreset preset networkPreset') ;;
  let nemesisTransactions :=
    Lodash.keyByMapValues (transactions a) NetworkUtils.getTransactionKey
      TransactionInformation.payload in
  let faucetBalances := BasicNetworkFile.faucetBalances basic in
  let* faucetAccount :=
    match faucetBalances with
    | Some _ =>
        let* account := onKeyStore (LocalFileKeyStore.getNetworkAccount networkType faucet true) in
        ret (Some account)
    | None => ret None
    end in
  match faucetBalances, faucetAccount with
  | Some balances, Some account => pushFaucetBalances mosaics balances (Account.address account)
  | _, _ => ret tt
  end ;;
  match BasicNetworkFile.additionalCurrencyDistributions basic with
  | Some additional => pushAdditionalCurrencyDistributions mosaics additional
  | None => ret tt
  end ;;
  let* a' := get in
  let customPreset :=
    nemesisCustomPreset mosaics signer founderAccount faucetAccount
      (nemesisBalances a') nemesisTransactions in
  let* node := candidateNode (NetworkFile.nodes input) in
  ret {| accountResolverNode := node;
         configPreset := preset;
         customPresetObject := customPreset |}.





End GenerateNemesis.

End NetworkGenesisService.

(** ** A reference implementation of the collaborators

    Executable stand-ins for the SDK, the toolkit and the runtime, used to
    run the model on concrete inputs.  Keys are 64 hexadecimal digits and
    are generated from the number of the draw, as the test suite of the
    repository does; the public key and the address are placeholders
    derived from the private key, not the curve arithmetic of the
    network. *)

Module Reference.

Definition isHexDigit (c : ascii) : bool :=
  let n := N_of_ascii c in
  ((48 <=? n) && (n <=? 57) || (65 <=? n) && (n <=? 70) || (97 <=? n) && (n <=? 102))%N.

Definition upperHexDigit (c : ascii) : ascii :=
  let n := N_of_ascii c in
  if ((97 <=? n) && (n <=? 102))%N then ascii_of_N (n - 32) else c.

Fixpoint allHex (s : string) : bool :=
  match s with
  | EmptyString => true
  | String c s' => isHexDigit c && allHex s'
  end.

Fixpoint upperHex (s : string) : string :=
  match s with
  | EmptyString => EmptyString
  | String c s' => String (upperHexDigit c) (upperHex s')
  end.

Fixpoint reverse (s acc : string) : string :=
  match s with
  | EmptyString => acc
  | String c s' => reverse s' (String c acc)
  end.

Definition accountOf (privateKey : string) (networkType : nat) : Account :=
  let publicKey := reverse privateKey "" in
  {| Account.privateKey := privateKey;
     Account.publicKey := publicKey;
     Account.address := "T" +:+ Js.numberToString networkType +:+ "-" +:+ publicKey |}.

Definition createFromPrivateKey (privateKey : string) (networkType : nat) : option Account :=
  if (String.length privateKey =? 64)%nat && allHex privateKey
  then Some (accountOf (upperHex privateKey) networkType)
  else None.

Definition generateAccount (n networkType : nat) : Account :=
  accountOf (Js.padStart (Js.numberToString n) 64 "0") networkType.

(** Eight bytes, least significant first. *)
Fixpoint littleEndian (width : nat) (n : N) : list Byte.byte :=
  match width with
  | O => []
  | S width' =>
      default Byte.x00 (Byte.of_N (n mod 256)%N) :: littleEndian width' (n / 256)%N
  end.

Fixpoint fromLittleEndian (bytes : list Byte.byte) : N :=
  match bytes with
  | [] => 0%N
  | b :: rest => (Byte.to_N b + 256 * fromLittleEndian rest)%N
  end.

(** A voting key file: the two epochs, the public key of the voting
    account and one byte of generated key material.  No file is made for
    a range that ends before it starts. *)
Definition createVotingFile (n : nat) (privateKey : string) (startEpoch endEpoch : nat) :
    option (list Byte.byte) :=
  if (endEpoch <? startEpoch)%nat then None
  else
    Some (littleEndian 8 (N.of_nat startEpoch) ++ littleEndian 8 (N.of_nat endEpoch) ++
          list_byte_of_string (reverse privateKey "") ++
          littleEndian 1 (N.of_nat n))%list.

Definition readVotingFile (content : list Byte.byte) : option VotingKeyAccount :=
  if (length content <? 80)%nat then None
  else
    Some {| VotingKeyAccount.startEpoch := N.to_nat (fromLittleEndian (firstn 8 content));
            VotingKeyAccount.endEpoch := N.to_nat (fromLittleEndian (firstn 8 (skipn 8 content)));
            VotingKeyAccount.publicKey := string_of_list_byte (firstn 64 (skipn 16 content)) |}.

Definition base64Alphabet : string :=
  "ABCDEFGHIJKLMNOPQRSTUVWXYZabcdefghijklmnopqrstuvwxyz0123456789+/".

Definition base64Digit (n : N) : ascii :=
  default "="%char (String.get (N.to_nat n) base64Alphabet).

Fixpoint indexOfChar (c : ascii) (s : string) : option N :=
  match s with
  | EmptyString => None
  | String d s' => if Ascii.eqb c d then Some 0%N else N.succ <$> indexOfChar c s'
  end.

Fixpoint toBase64N (bytes : list N) : string :=
  match bytes with
  | [] => ""
  | [a] =>
      String (base64Digit (a / 4)) (String (base64Digit ((a mod 4) * 16)) "==")
  | [a; b] =>
      String (base64Digit (a / 4)) (String (base64Digit ((a mod 4) * 16 + b / 16))
        (String (base64Digit ((b mod 16) * 4)) "="))
  | a :: b :: c :: rest =>
      String (base64Digit (a / 4)) (String (base64Digit ((a mod 4) * 16 + b / 16))
        (String (base64Digit ((b mod 16) * 4 + c / 64)) (String (base64Digit (c mod 64))
          (toBase64N rest))))
  end%N.

Definition toBase64 (bytes : list Byte.byte) : string :=
  toBase64N (map Byte.to_N bytes).

Fixpoint sextets (s : string) : list N :=
  match s with
  | EmptyString => []
  | String c s' =>
      match indexOfChar c base64Alphabet with
      | Some n => n :: sextets s'
      | None => sextets s'
      end
  end.

Fixpoint fromSextets (l : list N) : list N :=
  match l with
  | a :: b :: c :: d :: rest =>
      (a * 4 + b / 16) :: ((b mod 16) * 16 + c / 4) :: ((c mod 4) * 64 + d) :: fromSextets rest
  | [a; b; c] => [a * 4 + b / 16; (b mod 16) * 16 + c / 4]
  | [a; b] => [a * 4 + b / 16]
  | _ => []
  end%N.

Definition fromBase64 (text : string) : list Byte.byte :=
  map (fun n => default Byte.x00 (Byte.of_N n)) (fromSextets (sextets text)).

Definition describe (transaction : Transaction) : string :=
  match transaction with
  | VrfKeyLinkTransaction k _ => "vrf:" +:+ k
  | AccountKeyLinkTransaction k _ => "remote:" +:+ k
  | VotingKeyLinkTransaction k s e _ _ =>
      "voting:" +:+ k +:+ ":" +:+ Js.numberToString s +:+ ":" +:+ Js.numberToString e
  end.

Definition signPayload (signer : Account) (transaction : Transaction) (seed : string) : string :=
  Account.publicKey signer +:+ "/" +:+ describe transaction +:+ "/" +:+ seed.

Fixpoint endsWith (suffix s : string) : bool :=
  String.eqb suffix s ||
  match s with
  | EmptyString => false
  | String _ s' => endsWith suffix s'
  end.

Definition lowerCaseLetter (c : ascii) : ascii :=
  let n := N_of_ascii c in
  if ((65 <=? n) && (n <=? 90))%N then ascii_of_N (n + 32) else c.

Fixpoint toLowerCase (s : string) : string :=
  match s with
  | EmptyString => EmptyString
  | String c s' => String (lowerCaseLetter c) (toLowerCase s')
  end.

Definition isYmlFile (name : string) : bool :=
  endsWith ".yml" (toLowerCase name) || endsWith ".yaml" (toLowerCase name).

(** The private keys of a document that is read without its password
    are cipher texts. *)
Definition cipherText (text : string) : string := "ENCRYPTED:" +:+ text.

Definition encryptedStorage (storage : KeyStorage) : KeyStorage :=
  let encryptAccount (stored : StoredAccount) :=
    {| StoredAccount.privateKey := cipherText (StoredAccount.privateKey stored);
       StoredAccount.publicKey := StoredAccount.publicKey stored;
       StoredAccount.address := StoredAccount.address stored |} in
  {| KeyStorage.network := encryptAccount <$> KeyStorage.network storage;
     KeyStorage.nodes :=
       (fun accounts : gmap string StoredAccount => encryptAccount <$> accounts)
       <$> KeyStorage.nodes storage;
     KeyStorage.votingFiles :=
       (fun file =>
          {| StoredVotingFile.publicKey := StoredVotingFile.publicKey file;
             StoredVotingFile.privateFileContent :=
               cipherText (StoredVotingFile.privateFileContent file) |})
       <$> KeyStorage.votingFiles storage |}.

(** A clear file is read with any valid password and without one.  An
    encrypted file is read with its password; without a password it is
    read as it is when the password is [false], and not at all when it
    is [undefined] or empty. *)
Definition loadYaml (stored : KeyStoreDocument) (password : Password) : option KeyStorage :=
  match truthyString (LocalFileKeyStore.passwordText password) with
  | Some text =>
      if negb (LocalFileKeyStore.validPassword text) then None
      else
        match encryptedWith stored with
        | Some key => if String.eqb key text then Some (document stored) else None
        | None => Some (document stored)
        end
  | None =>
      match encryptedWith stored, password with
      | None, _ => Some (document stored)
      | Some _, PasswordFalse => Some (encryptedStorage (document stored))
      | Some _, _ => None
      end
  end.

(** The presets of this stand-in are the preset files of the working
    directory; it has no presets of its own. *)
Definition loadNetworkPreset (preset : string) (files : gmap string CustomPreset) :
    option CustomPreset :=
  files !! preset.

(** [join(a, b)] for a directory [a] and a name [b] without separators. *)
Definition joinPath (a b : string) : string :=
  if String.eqb a "" || String.eqb a "." then b else a +:+ "/" +:+ b.

Definition orElse {A} (a b : option A) : option A :=
  match a with
  | Some _ => a
  | None => b
  end.

Definition mergePresets (preset : CustomPreset) (customPreset : option CustomPreset) : CustomPreset :=
  match customPreset with
  | None => preset
  | Some custom =>
      let pick {A} (f : CustomPreset -> option A) := orElse (f custom) (f preset) in
      {| CustomPreset.privateKeySecurityMode := pick CustomPreset.privateKeySecurityMode;
         CustomPreset.nodes := pick CustomPreset.nodes;
         CustomPreset.gateways := pick CustomPreset.gateways;
         CustomPreset.httpsProxies := pick CustomPreset.httpsProxies;
         CustomPreset.faucets := pick CustomPreset.faucets;
         CustomPreset.nemesisSeedFolder := pick CustomPreset.nemesisSeedFolder;
         CustomPreset.lastKnownNetworkEpoch := pick CustomPreset.lastKnownNetworkEpoch;
         CustomPreset.networkType := pick CustomPreset.networkType;
         CustomPreset.nemesisGenerationHashSeed := pick CustomPreset.nemesisGenerationHashSeed;
         CustomPreset.nemesisSignerPublicKey := pick CustomPreset.nemesisSignerPublicKey;
         CustomPreset.harvestNetworkFeeSinkAddress := pick CustomPreset.harvestNetworkFeeSinkAddress;
         CustomPreset.namespaceRentalFeeSinkAddress := pick CustomPreset.namespaceRentalFeeSinkAddress;
         CustomPreset.mosaicRentalFeeSinkAddress := pick CustomPreset.mosaicRentalFeeSinkAddress;
         CustomPreset.votingKeyDesiredLifetime := pick CustomPreset.votingKeyDesiredLifetime;
         CustomPreset.knownRestGateways := pick CustomPreset.knownRestGateways;
         CustomPreset.knownPeers := pick CustomPreset.knownPeers;
         CustomPreset.nemesis := pick CustomPreset.nemesis |}
  end.

(** The one private key that the records of a network file can hold is
    that of the nemesis signer in a custom preset. *)
Definition stripPreset (preset : CustomPreset) : CustomPreset :=
  {| CustomPreset.privateKeySecurityMode := CustomPreset.privateKeySecurityMode preset;
     CustomPreset.nodes := CustomPreset.nodes preset;
     CustomPreset.gateways := CustomPreset.gateways preset;
     CustomPreset.httpsProxies := CustomPreset.httpsProxies preset;
     CustomPreset.faucets := CustomPreset.faucets preset;
     CustomPreset.nemesisSeedFolder := CustomPreset.nemesisSeedFolder preset;
     CustomPreset.lastKnownNetworkEpoch := CustomPreset.lastKnownNetworkEpoch preset;
     CustomPreset.networkType := CustomPreset.networkType preset;
     CustomPreset.nemesisGenerationHashSeed := CustomPreset.nemesisGenerationHashSeed preset;
     CustomPreset.nemesisSignerPublicKey := CustomPreset.nemesisSignerPublicKey preset;
     CustomPreset.harvestNetworkFeeSinkAddress := CustomPreset.harvestNetworkFeeSinkAddress preset;
     CustomPreset.namespaceRentalFeeSinkAddress := CustomPreset.namespaceRentalFeeSinkAddress preset;
     CustomPreset.mosaicRentalFeeSinkAddress := CustomPreset.mosaicRentalFeeSinkAddress preset;
     CustomPreset.votingKeyDesiredLifetime := CustomPreset.votingKeyDesiredLifetime preset;
     CustomPreset.knownRestGateways := CustomPreset.knownRestGateways preset;
     CustomPreset.knownPeers := CustomPreset.knownPeers preset;
     CustomPreset.nemesis :=
       (fun nemesis =>
          {| NemesisPreset.nemesisSignerPrivateKey := None;
             NemesisPreset.mosaics := NemesisPreset.mosaics nemesis;
             NemesisPreset.transactions := NemesisPreset.transactions nemesis |})
       <$> CustomPreset.nemesis preset |}.

Definition stripNode (node : NodeInformation) : NodeInformation :=
  {| NodeInformation.number := NodeInformation.number node;
     NodeInformation.nickName := NodeInformation.nickName node;
     NodeInformation.friendlyName := NodeInformation.friendlyName node;
     NodeInformation.assembly := NodeInformation.assembly node;
     NodeInformation.hostname := NodeInformation.hostname node;
     NodeInformation.nodeType := NodeInformation.nodeType node;
     NodeInformation.restProtocol := NodeInformation.restProtocol node;
     NodeInformation.balances := NodeInformation.balances node;
     NodeInformation.customPreset := stripPreset <$> NodeInformation.customPreset node |}.

Definition removePrivateKeys (network : NetworkFile) : NetworkFile :=
  let basic := NetworkFile.basic network in
  {| NetworkFile.basic :=
       {| BasicNetworkFile.preset := BasicNetworkFile.preset basic;
          BasicNetworkFile.cloneFromPreset := BasicNetworkFile.cloneFromPreset basic;
          BasicNetworkFile.networkType := BasicNetworkFile.networkType basic;
          BasicNetworkFile.isNewNetwork := BasicNetworkFile.isNewNetwork basic;
          BasicNetworkFile.nemesisSeedFolder := BasicNetworkFile.nemesisSeedFolder basic;
          BasicNetworkFile.faucetBalances := BasicNetworkFile.faucetBalances basic;
          BasicNetworkFile.additionalCurrencyDistributions :=
            BasicNetworkFile.additionalCurrencyDistributions basic;
          BasicNetworkFile.domain := BasicNetworkFile.domain basic;
          BasicNetworkFile.suffix := BasicNetworkFile.suffix basic;
          BasicNetworkFile.friendlyNamePattern := BasicNetworkFile.friendlyNamePattern basic;
          BasicNetworkFile.customNetworkPreset :=
            stripPreset <$> BasicNetworkFile.customNetworkPreset basic |};
     NetworkFile.nodes := stripNode <$> NetworkFile.nodes network |}.

#[export] Instance externals : Externals :=
  Build_Externals createFromPrivateKey generateAccount createVotingFile readVotingFile
    toBase64 fromBase64 signPayload isYmlFile loadYaml loadNetworkPreset mergePresets
    removePrivateKeys joinPath (fun _ => Composed).

End Reference.

#[local] Existing Instance Reference.externals.

(** ** Concrete inputs

    A small new network: one plain peer followed by two voting dual
    nodes, two mosaics, no faucet. *)

Module Example.
Import Reference.

Definition basic : BasicNetworkFile :=
  {| BasicNetworkFile.preset := "custom-network-preset.yml";
     BasicNetworkFile.cloneFromPreset := None;
     BasicNetworkFile.networkType := 152;
     BasicNetworkFile.isNewNetwork := true;
     BasicNetworkFile.nemesisSeedFolder := None;
     BasicNetworkFile.faucetBalances := None;
     BasicNetworkFile.additionalCurrencyDistributions := None;
     BasicNetworkFile.domain := "example.org";
     BasicNetworkFile.suffix := "net";
     BasicNetworkFile.friendlyNamePattern := None;
     BasicNetworkFile.customNetworkPreset := None |}.

Definition group (nickName : string) (nodeType : NodeMetadataType) (total : nat) : NodeTypeInput :=
  {| NodeTypeInput.nickName := nickName;
     NodeTypeInput.nodeType := nodeType;
     NodeTypeInput.total := total;
     NodeTypeInput.balances := NodeTypeMetadata.balances (nodesMetadata nodeType);
     NodeTypeInput.restProtocol := Some HttpsOnly |}.

Definition input : NetworkInputFile :=
  {| NetworkInputFile.basic := basic;
     NetworkInputFile.nodeTypes := [group "peer" Peer 1; group "dual" VotingDual 2] |}.

Definition mosaic (divisibility : nat) : MosaicPreset :=
  {| MosaicPreset.divisibility := Some divisibility;
     MosaicPreset.accounts := None;
     MosaicPreset.currencyDistributions := None |}.

Definition networkPreset : CustomPreset :=
  {| CustomPreset.privateKeySecurityMode := None; CustomPreset.nodes := None;
     CustomPreset.gateways := None; CustomPreset.httpsProxies := None;
     CustomPreset.faucets := None; CustomPreset.nemesisSeedFolder := None;
     CustomPreset.lastKnownNetworkEpoch := None; CustomPreset.networkType := None;
     CustomPreset.nemesisGenerationHashSeed := Some "6C1B92391CCB41C96478471C2634C111D9E989DECD66130C0430B5B8D20117CD";
     CustomPreset.nemesisSignerPublicKey := None;
     CustomPreset.harvestNetworkFeeSinkAddress := None;
     CustomPreset.namespaceRentalFeeSinkAddress := None;
     CustomPreset.mosaicRentalFeeSinkAddress := None;
     CustomPreset.votingKeyDesiredLifetime := Some 720%nat;
     CustomPreset.knownRestGateways := None; CustomPreset.knownPeers := None;
     CustomPreset.nemesis := Some
       {| NemesisPreset.nemesisSignerPrivateKey := None;
          NemesisPreset.mosaics := Some [mosaic 6; mosaic 3];
          NemesisPreset.transactions := None |} |}.

Definition emptyKeyStore : LocalFileKeyStore :=
  {| LocalFileKeyStore.storage := KeyStorage.defaultValue;
     LocalFileKeyStore.password := None;
     LocalFileKeyStore.storageFile := None;
     LocalFileKeyStore.writes := 0;
     LocalFileKeyStore.draws := 0 |}.

(** An empty key store under a password of three characters. *)
Definition shortPasswordKeyStore : LocalFileKeyStore :=
  {| LocalFileKeyStore.storage := KeyStorage.defaultValue;
     LocalFileKeyStore.password := Some "abc";
     LocalFileKeyStore.storageFile := None;
     LocalFileKeyStore.writes := 0;
     LocalFileKeyStore.draws := 0 |}.

(** The first node of the topology, a plain peer. *)
Definition peerNode : NodeInformation :=
  {| NodeInformation.number := 1;
     NodeInformation.nickName := "peer";
     NodeInformation.friendlyName := "net-peer-001";
     NodeInformation.assembly := "peer";
     NodeInformation.hostname := "net-peer-001.example.org";
     NodeInformation.nodeType := Peer;
     NodeInformation.restProtocol := Some HttpsOnly;
     NodeInformation.balances := [1000; 0];
     NodeInformation.customPreset := Some
       (NetworkConfigurationService.nodeCustomPreset (nodesMetadata Peer) (Some HttpsOnly)
          "net-peer-001" "net-peer-001.example.org") |}.

(** The key store after the founder account was generated, and after the
    main account of the first node was. *)
Definition founderKeyStore : LocalFileKeyStore :=
  snd (LocalFileKeyStore.getNetworkAccount 152 founder true emptyKeyStore).

Definition mainKeyStore : LocalFileKeyStore :=
  snd (LocalFileKeyStore.getNodeAccount 152 KeyName.Main "node" peerNode true emptyKeyStore).


Definition votingFile : VotingKeyFileContent :=
  let votingAccount := generateAccount 0 152 in
  {| VotingKeyFileContent.publicKey := Account.publicKey votingAccount;
     VotingKeyFileContent.startEpoch := 1;
     VotingKeyFileContent.endEpoch := 720;
     VotingKeyFileContent.privateFileContent :=
       default [] (createVotingFile 1 (Account.privateKey votingAccount) 1 720) |}.

(** Two groups whose pattern gives every node the same name. *)
Definition duplicateInput : NetworkInputFile :=
  {| NetworkInputFile.basic :=
       {| BasicNetworkFile.preset := "custom-network-preset.yml";
          BasicNetworkFile.cloneFromPreset := None;
          BasicNetworkFile.networkType := 152;
          BasicNetworkFile.isNewNetwork := true;
          BasicNetworkFile.nemesisSeedFolder := None;
          BasicNetworkFile.faucetBalances := None;
          BasicNetworkFile.additionalCurrencyDistributions := None;
          BasicNetworkFile.domain := "example.org";
          BasicNetworkFile.suffix := "net";
          BasicNetworkFile.friendlyNamePattern := Some "$suffix-node";
          BasicNetworkFile.customNetworkPreset := None |};
     NetworkInputFile.nodeTypes := [group "peer" Peer 1; group "dual" VotingDual 1] |}.

(** The default pattern with a suffix that is the text of a variable. *)
Definition variableSuffixInput : NetworkInputFile :=
  {| NetworkInputFile.basic :=
       {| BasicNetworkFile.preset := "custom-network-preset.yml";
          BasicNetworkFile.cloneFromPreset := None;
          BasicNetworkFile.networkType := 152;
          BasicNetworkFile.isNewNetwork := true;
          BasicNetworkFile.nemesisSeedFolder := None;
          BasicNetworkFile.faucetBalances := None;
          BasicNetworkFile.additionalCurrencyDistributions := None;
          BasicNetworkFile.domain := "example.org";
          BasicNetworkFile.suffix := "$nickname";
          BasicNetworkFile.friendlyNamePattern := None;
          BasicNetworkFile.customNetworkPreset := None |};
     NetworkInputFile.nodeTypes := [group "peer" Peer 1] |}.

(** A pattern that names a variable twice. *)
Definition repeatedVariableInput : NetworkInputFile :=
  {| NetworkInputFile.basic :=
       {| BasicNetworkFile.preset := "custom-network-preset.yml";
          BasicNetworkFile.cloneFromPreset := None;
          BasicNetworkFile.networkType := 152;
          BasicNetworkFile.isNewNetwork := true;
          BasicNetworkFile.nemesisSeedFolder := None;
          BasicNetworkFile.faucetBalances := None;
          BasicNetworkFile.additionalCurrencyDistributions := None;
          BasicNetworkFile.domain := "example.org";
          BasicNetworkFile.suffix := "net";
          BasicNetworkFile.friendlyNamePattern := Some "$nickname-$nickname-$friendlyNumber";
          BasicNetworkFile.customNetworkPreset := None |};
     NetworkInputFile.nodeTypes := [group "peer" Peer 1] |}.

(** The default pattern and a nick name shared by two groups. *)
Definition sharedNickInput : NetworkInputFile :=
  {| NetworkInputFile.basic := basic;
     NetworkInputFile.nodeTypes :=
       [group "dual" VotingDual 2; group "beacon" VotingPeer 1; group "dual" HarvestingDual 2] |}.

Definition workspaceOf (input : NetworkInputFile) : Workspace :=
  {| Workspace.path := ".";
     Workspace.currentDirectory := None;
     Workspace.networkInputFile := Some input;
     Workspace.networkFile := None;
     Workspace.presetFiles := {[ "custom-network-preset.yml" := networkPreset ]};
     Workspace.folders := ∅ |}.

Definition initialWorkspace : Workspace :=
  {| Workspace.path := ".";
     Workspace.currentDirectory := None;
     Workspace.networkInputFile := Some input;
     Workspace.networkFile := None;
     Workspace.presetFiles := {[ "custom-network-preset.yml" := networkPreset ]};
     Workspace.folders := ∅ |}.

(** The working directory after [expandNodes]. *)
Definition expandedWorkspace : Workspace :=
  snd (NetworkConfigurationService.expandNodes initialWorkspace).

Definition network : NetworkFile :=
  {| NetworkFile.basic := basic;
     NetworkFile.nodes := NetworkConfigurationService.expandedNodes input |}.

Definition expandedWorld : World :=
  {| keyStore := emptyKeyStore; workspace := expandedWorkspace |}.

(** A topology with no harvesting node at all. *)
Definition peersOnly : NetworkFile :=
  {| NetworkFile.basic := basic; NetworkFile.nodes := [peerNode] |}.




Definition worldOf (network : NetworkFile) (folders : gset string) : World :=
  {| keyStore := emptyKeyStore;
     workspace :=
       {| Workspace.path := ".";
          Workspace.currentDirectory := None;
          Workspace.networkInputFile := None;
          Workspace.networkFile := Some network;
          Workspace.presetFiles := {[ "custom-network-preset.yml" := networkPreset ]};
          Workspace.folders := folders |} |}.

Definition params (regenerate : bool) : NetworkGenesisService.GenerateNemesisParams :=
  {| NetworkGenesisService.regenerate := regenerate;
     NetworkGenesisService.password := None;
     NetworkGenesisService.composeUser := None |}.

End Example.

(** ** Vocabulary of the properties *)

(** The rule of the specification: [api && peer] gives ["dual"], [api]
    alone gives ["api"], anything else ["peer"]. *)
Definition assemblyRule (api peer : bool) : string :=
  match api, peer with
  | true, true => "dual"
  | true, false => "api"
  | false, _ => "peer"
  end.

Definition toOption {A} (r : Result A) : option A :=
  match r with
  | Ok a => Some a
  | Err _ => None
  end.

Section BalanceVocabulary.
Import NetworkGenesisService.

(** The state with the entries [new] appended to the balances. *)
Definition appendBalances (a : Assembly) (new : list NemesisBalance) : Assembly :=
  {| world := world a; transactions := transactions a; knownPeers := knownPeers a;
     nemesisBalances := nemesisBalances a ++ new; knownRestGateways := knownRestGateways a |}.


End BalanceVocabulary.

Section KeyStoreVocabulary.
Import LocalFileKeyStore.

(** The state after [save]. *)
Definition saved (this : LocalFileKeyStore) : LocalFileKeyStore :=
  {| storage := storage this; password := password this;
     storageFile := Some {| document := storage this;
                            encryptedWith := truthyString (password this) |};
     writes := S (writes this); draws := draws this |}.

(** The store can write its file: it has no password, or one that the
    toolkit accepts. *)
Definition writable (this : LocalFileKeyStore) : bool :=
  match truthyString (password this) with
  | Some text => validPassword text
  | None => true
  end.

(** The error of a store that cannot write its file. *)
Definition passwordTooShort : Error := ToolkitFailure "Password is too short".

(** How a call ends that has changed the store to [this] and then saves
    it and returns [a]. *)
Definition saving {A} (a : A) (this : LocalFileKeyStore) : Result A * LocalFileKeyStore :=
  if writable this then (Ok a, saved this) else (Err passwordTooShort, this).

(** The state after one draw. *)
Definition drawn (this : LocalFileKeyStore) : LocalFileKeyStore :=
  {| storage := storage this; password := password this;
     storageFile := storageFile this; writes := writes this;
     draws := S (draws this) |}.

Definition lookupNetwork (accountName : NetworkAccountName) (this : LocalFileKeyStore) :
    option StoredAccount :=
  KeyStorage.network (storage this) !! accountNameKey accountName.

Definition lookupVotingFile (nodeName : string) (nodeInformation : NodeInformation)
    (startEpoch endEpoch : nat) (this : LocalFileKeyStore) : option StoredVotingFile :=
  KeyStorage.votingFiles (storage this)
    !! votingFileKey nodeName nodeInformation startEpoch endEpoch.

(** The state after a voting file was stored under [key]. *)
Definition setVotingFile (key : string) (stored : StoredVotingFile)
    (this : LocalFileKeyStore) : LocalFileKeyStore :=
  setStorage
    {| KeyStorage.network := KeyStorage.network (storage this);
       KeyStorage.nodes := KeyStorage.nodes (storage this);
       KeyStorage.votingFiles := <[key := stored]> (KeyStorage.votingFiles (storage this)) |}
    this.

(** What a stored voting file decodes to. *)
Definition decodeStored `{Externals} (stored : StoredVotingFile) : option VotingKeyAccount :=
  readVotingFile (fromBase64 (StoredVotingFile.privateFileContent stored)).


Definition lookupNode (nodeName : string) (nodeInformation : NodeInformation)
    (keyName : KeyName) (this : LocalFileKeyStore) : option StoredAccount :=
  KeyStorage.nodes (storage this) !! nodeKey nodeName nodeInformation
    ≫= (fun accounts => accounts !! KeyName.key keyName).

End KeyStoreVocabulary.

(** The variables of a friendly-name pattern, as they are searched. *)
Definition patternVariables : list string :=
  ["$suffix"; "$nickname"; "$friendlyNumber"].

(** A text without a dollar sign. *)
Fixpoint noDollar (s : string) : Prop :=
  match s with
  | EmptyString => True
  | String c s' => c <> "$"%char /\ noDollar s'
  end.

(** The pattern that [expandNodes] uses for an input. *)
Definition patternOf (input : BasicNetworkFile) : string :=
  default NetworkConfigurationService.defaultFriendlyNamePattern
    (truthyString (BasicNetworkFile.friendlyNamePattern input)).

(** A node whose names were formatted from the pattern of the input. *)
Definition formatted (input : BasicNetworkFile) (n : NodeInformation) : Prop :=
  (exists nickname friendlyNumber,
     NodeInformation.friendlyName n =
     NetworkConfigurationService.formatFriendlyName (patternOf input)
       (BasicNetworkFile.suffix input) nickname friendlyNumber) /\
  NodeInformation.hostname n =
  NodeInformation.friendlyName n +:+ "." +:+ BasicNetworkFile.domain input.

(** The variables of a pattern, by name. *)
Inductive PatternVariable : Type :=
  | SuffixVariable
  | NicknameVariable
  | FriendlyNumberVariable.

#[global] Instance PatternVariable_eq_dec : EqDecision PatternVariable.
Proof. solve_decision. Defined.

Definition variableText (v : PatternVariable) : string :=
  match v with
  | SuffixVariable => "$suffix"
  | NicknameVariable => "$nickname"
  | FriendlyNumberVariable => "$friendlyNumber"
  end.

(** A pattern cut into plain texts and variables. *)
Inductive Token : Type :=
  | Plain (text : string)
  | Placeholder (v : PatternVariable).

Definition tokenText (t : Token) : string :=
  match t with
  | Plain text => text
  | Placeholder v => variableText v
  end.

Fixpoint patternText (tokens : list Token) : string :=
  match tokens with
  | [] => ""
  | t :: rest => tokenText t +:+ patternText rest
  end.

Definition plainToken (t : Token) : Prop :=
  match t with
  | Plain text => noDollar text
  | Placeholder _ => True
  end.

(** The values of the variables for one node. *)
Definition patternValues (suffix nickname friendlyNumber : string) (v : PatternVariable) :
    string :=
  match v with
  | SuffixVariable => suffix
  | NicknameVariable => nickname
  | FriendlyNumberVariable => friendlyNumber
  end.

(** A pattern in which every variable that is not in [replaced] is
    replaced by its value where it occurs first, and left as it is
    written wherever it occurs again. *)
Fixpoint substituteFirst (value : PatternVariable -> string) (replaced : list PatternVariable)
    (tokens : list Token) : string :=
  match tokens with
  | [] => ""
  | Plain text :: rest => text +:+ substituteFirst value replaced rest
  | Placeholder v :: rest =>
      if bool_decide (v ∈ replaced)
      then variableText v +:+ substituteFirst value replaced rest
      else value v +:+ substituteFirst value (v :: replaced) rest
  end.

(** The tokens with the first occurrence of a variable replaced by a
    text. *)
Fixpoint replaceFirst (v : PatternVariable) (value : string) (tokens : list Token) :
    list Token :=
  match tokens with
  | [] => []
  | Plain text :: rest => Plain text :: replaceFirst v value rest
  | Placeholder w :: rest =>
      if bool_decide (w = v) then Plain value :: rest
      else Placeholder w :: replaceFirst v value rest
  end.

(** The replacement of a variable that is not replaced yet. *)
Definition replacePending (value : PatternVariable -> string) (replaced : list PatternVariable)
    (v : PatternVariable) (tokens : list Token) : list Token :=
  if bool_decide (v ∈ replaced) then tokens else replaceFirst v (value v) tokens.

(** A node whose names are made from the pattern of the input, its
    suffix, the nick name of the node and a number. *)
Definition named (input : BasicNetworkFile) (n : NodeInformation) : Prop :=
  (exists k : nat,
     NodeInformation.friendlyName n =
     NetworkConfigurationService.formatFriendlyName (patternOf input)
       (BasicNetworkFile.suffix input) (NodeInformation.nickName n)
       ("0" +:+ NetworkUtils.zeroPad k 2)) /\
  NodeInformation.hostname n =
  NodeInformation.friendlyName n +:+ "." +:+ BasicNetworkFile.domain input.


Ltac run :=
  unfold LocalFileKeyStore.accountFromPrivateKey, LocalFileKeyStore.generateNewAccount,
    LocalFileKeyStore.createVotingKeyFile, LocalFileKeyStore.save, LocalFileKeyStore.draw,
    fromOption, bind, ret, throw, get, modify;
  cbn [negb fst snd LocalFileKeyStore.storage LocalFileKeyStore.password
       LocalFileKeyStore.storageFile LocalFileKeyStore.writes LocalFileKeyStore.draws].

Ltac save_cases this :=
  unfold saving, writable;
  cbn [LocalFileKeyStore.password LocalFileKeyStore.setNetworkAccount
       LocalFileKeyStore.setNodeAccount setVotingFile LocalFileKeyStore.setStorage drawn];
  destruct (truthyString (LocalFileKeyStore.password this)) as [?text|];
  [destruct (LocalFileKeyStore.validPassword text)|]; reflexivity.

(** ** Vocabulary of the further properties *)

(** A text in which the character [c] does not occur. *)
Fixpoint lacks (c : ascii) (s : string) : Prop :=
  match s with
  | EmptyString => True
  | String d s' => d <> c /\ lacks c s'
  end.

(** The whole number that a text of decimal digits denotes, leading
    zeros allowed. *)
Definition decimal (s : string) : option nat :=
  Nat.of_uint <$> NilEmpty.uint_of_string s.

(** What identifies a transaction of the ledger. *)
Definition transactionIdentity (t : TransactionInformation) : nat * string * nat :=
  (TransactionInformation.typeNumber t, TransactionInformation.type t,
   TransactionInformation.nodeNumber t).

(** The fields that a node copies from its group. *)
Definition copiedFields (n : NodeInformation) :
    string * NodeMetadataType * list Z * option RestProtocol :=
  (NodeInformation.nickName n, NodeInformation.nodeType n,
   NodeInformation.balances n, NodeInformation.restProtocol n).

Definition groupFields (g : NodeTypeInput) :
    string * NodeMetadataType * list Z * option RestProtocol :=
  (NodeTypeInput.nickName g, NodeTypeInput.nodeType g,
   NodeTypeInput.balances g, NodeTypeInput.restProtocol g).

(** What the loops of [expandNodes] keep: the counter is the number of
    nodes built, the nodes are numbered from 1 in order, and they copy the
    fields [fields]. *)
Definition numbered (st : NetworkConfigurationService.ExpandState)
    (fields : list (string * NodeMetadataType * list Z * option RestProtocol)) : Prop :=
  NetworkConfigurationService.nodeCounter st = length (NetworkConfigurationService.nodes st) /\
  NodeInformation.number <$> NetworkConfigurationService.nodes st =
    seq 1 (length (NetworkConfigurationService.nodes st)) /\
  copiedFields <$> NetworkConfigurationService.nodes st = fields.

(** The name that the default pattern gives to the [k]-th node of a nick
    name. *)
Definition defaultName (suffix : string) (label : string * nat) : string :=
  suffix +:+ "-" +:+ fst label +:+ "-" +:+ "0" +:+ NetworkUtils.zeroPad (snd label) 2.

(** The number of the nodes of a nick name. *)
Definition nickCount (nick : string) (nodes : list NodeInformation) : nat :=
  length (filter (fun n => NodeInformation.nickName n = nick) nodes).

(** What the loops of [expandNodes] keep under the default pattern: the
    counter of a nick name is the number of the nodes of that nick name,
    and every node carries the default name of its nick name and of its
    number among the nodes of its nick name, in order. *)
Definition counted (suffix : string) (st : NetworkConfigurationService.ExpandState) : Prop :=
  (forall nick,
     default 0%nat (NetworkConfigurationService.counters st !! (nick +:+ "0")) =
     nickCount nick (NetworkConfigurationService.nodes st)) /\
  (forall i n,
     NetworkConfigurationService.nodes st !! i = Some n ->
     NodeInformation.friendlyName n =
     defaultName suffix
       (NodeInformation.nickName n,
        S (nickCount (NodeInformation.nickName n)
             (take i (NetworkConfigurationService.nodes st))))).

(** The operations of a key store, as a caller issues them. *)
Inductive Operation : Type :=
  | GetNetworkAccount (networkType : nat) (accountName : NetworkAccountName) (generate : bool)
  | SaveNetworkAccount (networkType : nat) (accountName : NetworkAccountName)
      (privateKey : string)
  | GetNodeAccount (networkType : nat) (keyName : KeyName) (nodeName : string)
      (nodeInformation : NodeInformation) (generate : bool)
  | GetVotingKeyFile (networkType : nat) (nodeName : string)
      (nodeInformation : NodeInformation) (startEpoch endEpoch : nat).

(** The store after an operation, whether it returned or threw. *)
Definition perform `{Externals} (this : LocalFileKeyStore) (op : Operation) : LocalFileKeyStore :=
  match op with
  | GetNetworkAccount networkType accountName generate =>
      snd (LocalFileKeyStore.getNetworkAccount networkType accountName generate this)
  | SaveNetworkAccount networkType accountName privateKey =>
      snd (LocalFileKeyStore.saveNetworkAccount networkType accountName privateKey this)
  | GetNodeAccount networkType keyName nodeName nodeInformation generate =>
      snd (LocalFileKeyStore.getNodeAccount networkType keyName nodeName nodeInformation
             generate this)
  | GetVotingKeyFile networkType nodeName nodeInformation startEpoch endEpoch =>
      snd (LocalFileKeyStore.getVotingKeyFile networkType nodeName nodeInformation
             startEpoch endEpoch this)
  end.

Definition performAll `{Externals} (ops : list Operation) (this : LocalFileKeyStore) :
    LocalFileKeyStore :=
  fold_left perform ops this.

(** The entries of a key store: a network account, an account of a node,
    a voting file of a node for a range of epochs. *)
Inductive Entry : Type :=
  | NetworkEntry (accountName : NetworkAccountName)
  | NodeEntry (nodeName : string) (nodeInformation : NodeInformation) (keyName : KeyName)
  | VotingEntry (nodeName : string) (nodeInformation : NodeInformation)
      (startEpoch endEpoch : nat).

(** What of an entry decides where it is stored: of the node record, its
    number only. *)
Definition entryIdentity (entry : Entry) :
    NetworkAccountName + (string * nat * KeyName) + (string * nat * nat * nat) :=
  match entry with
  | NetworkEntry accountName => inl (inl accountName)
  | NodeEntry nodeName nodeInformation keyName =>
      inl (inr (nodeName, NodeInformation.number nodeInformation, keyName))
  | VotingEntry nodeName nodeInformation startEpoch endEpoch =>
      inr (nodeName, NodeInformation.number nodeInformation, startEpoch, endEpoch)
  end.

Definition lookupEntry (entry : Entry) (this : LocalFileKeyStore) :
    option (StoredAccount + StoredVotingFile) :=
  match entry with
  | NetworkEntry accountName => inl <$> lookupNetwork accountName this
  | NodeEntry nodeName nodeInformation keyName =>
      inl <$> lookupNode nodeName nodeInformation keyName this
  | VotingEntry nodeName nodeInformation startEpoch endEpoch =>
      inr <$> lookupVotingFile nodeName nodeInformation startEpoch endEpoch this
  end.

(** The store with [value] stored at an entry of its kind. *)
Definition setEntry (entry : Entry) (value : StoredAccount + StoredVotingFile)
    (this : LocalFileKeyStore) : LocalFileKeyStore :=
  match entry, value with
  | NetworkEntry accountName, inl stored =>
      LocalFileKeyStore.setNetworkAccount accountName stored this
  | NodeEntry nodeName nodeInformation keyName, inl stored =>
      LocalFileKeyStore.setNodeAccount nodeName nodeInformation keyName stored this
  | VotingEntry nodeName nodeInformation startEpoch endEpoch, inr stored =>
      setVotingFile
        (LocalFileKeyStore.votingFileKey nodeName nodeInformation startEpoch endEpoch)
        stored this
  | _, _ => this
  end.

(** The entry an operation is about. *)
Definition target (op : Operation) : Entry :=
  match op with
  | GetNetworkAccount _ accountName _ => NetworkEntry accountName
  | SaveNetworkAccount _ accountName _ => NetworkEntry accountName
  | GetNodeAccount _ keyName nodeName nodeInformation _ =>
      NodeEntry nodeName nodeInformation keyName
  | GetVotingKeyFile _ nodeName nodeInformation startEpoch endEpoch =>
      VotingEntry nodeName nodeInformation startEpoch endEpoch
  end.

(** The file as a store writes it. *)
Definition written (this : LocalFileKeyStore) : KeyStoreDocument :=
  {| document := LocalFileKeyStore.storage this;
     encryptedWith := truthyString (LocalFileKeyStore.password this) |}.

Definition exampleOperations : list Operation :=
  [ GetNetworkAccount 152 founder true;
    GetNodeAccount 152 KeyName.Main "node" Example.peerNode true;
    GetNetworkAccount 152 faucet false;
    GetVotingKeyFile 152 "node" Example.peerNode 1 720;
    SaveNetworkAccount 152 nemesisSigner "not a key";
    GetNodeAccount 152 KeyName.Main "node" Example.peerNode false ].


(** Transactions of one node whose VRF key was linked twice. *)
Definition relinkedTransactions : list TransactionInformation :=
  [ {| TransactionInformation.type := "VRF"; TransactionInformation.nodeNumber := 1;
       TransactionInformation.typeNumber := 1; TransactionInformation.payload := "first" |};
    {| TransactionInformation.type := "Remote"; TransactionInformation.nodeNumber := 1;
       TransactionInformation.typeNumber := 2; TransactionInformation.payload := "remote" |};
    {| TransactionInformation.type := "VRF"; TransactionInformation.nodeNumber := 1;
       TransactionInformation.typeNumber := 1; TransactionInformation.payload := "second" |} ].


#[global] Instance NetworkAccountName_eq_dec : EqDecision NetworkAccountName.
Proof. solve_decision. Defined.

#[global] Instance KeyName_eq_dec : EqDecision KeyName.
Proof. solve_decision. Defined.

(** A Hoare triple for the computations of [M]: from a state of [P] the
    computation ends in a state of [Q] with its result, or throws an
    error of [E]. *)
Definition triple {S A} (P : S -> Prop) (c : M S A) (Q : A -> S -> Prop)
    (E : Error -> S -> Prop) : Prop :=
  forall s, P s ->
    match c s with
    | (Ok a, s') => Q a s'
    | (Err e, s') => E e s'
    end.


Section FurtherBalanceVocabulary.
Import NetworkGenesisService.

(** The entries of one mosaic for its additional distributions: one for
    every distribution, in order, the amount multiplied as a double. *)
Definition distributed (index divisibility : nat) (l : list (CurrencyDistribution Z)) :
    list NemesisBalance :=
  map (fun distribution =>
         {| mosaicIndex := index;
            address := CurrencyDistribution.address distribution;
            amount := Js.mul (CurrencyDistribution.amount distribution)
                        (Js.pow10 divisibility) |}) l.

Fixpoint additionalBalances (index : nat) (mosaics : list MosaicPreset)
    (additional : list (list (CurrencyDistribution Z))) : list NemesisBalance :=
  match mosaics with
  | [] => []
  | m :: rest =>
      match additional !! index, MosaicPreset.divisibility m with
      | Some l, Some d => distributed index d l ++ additionalBalances (S index) rest additional
      | _, _ => additionalBalances (S index) rest additional
      end
  end.



(** The state [a'] differs from [a] in its balances only, which are those
    of [a] followed by entries for mosaics below [bound]. *)
Definition extendsBalances (bound : nat) (a a' : Assembly) : Prop :=
  world a' = world a /\ transactions a' = transactions a /\
  knownPeers a' = knownPeers a /\ knownRestGateways a' = knownRestGateways a /\
  exists new, nemesisBalances a' = (nemesisBalances a ++ new)%list /\
              Forall (fun n => (mosaicIndex n < bound)%nat) new.

End FurtherBalanceVocabulary.


(** The key store of a run holds something at [entry]. *)
Definition knows (entry : Entry) (a : NetworkGenesisService.Assembly) : Prop :=
  is_Some (lookupEntry entry (keyStore (NetworkGenesisService.world a))).

(** The accounts that [updateNetworkPreset] asks for. *)
Definition presetAccounts : list NetworkAccountName :=
  [nemesisSigner; harvestNetworkFeeSink; namespaceRentalFeeSink; mosaicRentalFeeSink].


Section AssemblyVocabulary.
Import NetworkGenesisService.

(** The errors with which the assembly of the nemesis block can end:
    those that the modelled code throws there, but for the error of an
    account that is missing, and what the toolkit throws. *)
Definition assemblyError (e : Error) : Prop :=
  match e with
  | InvalidPrivateKey _ | UnresolvedConfigValue _ | UnreadableVotingFile
  | EpochMismatch _ _ _ | NoCandidateNode | ToolkitFailure _ => True
  | _ => False
  end.

(** The link transactions of a node, by identity: none for a services
    node, else those of the VRF and the remote key and, for a voting
    node, of the voting key. *)
Definition linkIdentities (node : NodeInformation) : list (nat * string * nat) :=
  let metadata := nodesMetadata (NodeInformation.nodeType node) in
  let number := NodeInformation.number node in
  if isServices metadata then []
  else [(1%nat, "VRF", number); (2%nat, "Remote", number)] ++
       (if NodeTypeMetadata.voting metadata then [(3%nat, "Voting", number)] else []).

(** A known peer without its public key. *)
Definition peerFields (p : PeerInfo) : string * Z * string * string :=
  (PeerInfo.endpointHost p, PeerInfo.endpointPort p, PeerInfo.metadataName p,
   PeerInfo.metadataRoles p).

Definition peersOf (node : NodeInformation) : list (string * Z * string * string) :=
  let metadata := nodesMetadata (NodeInformation.nodeType node) in
  if isServices metadata then []
  else [(NodeInformation.hostname node, 7900, NodeInformation.friendlyName node,
         rolesOf metadata)].

Definition gatewaysOf (node : NodeInformation) : list string :=
  let metadata := nodesMetadata (NodeInformation.nodeType node) in
  if isServices metadata then []
  else if NodeTypeMetadata.api metadata
       then [NetworkUtils.resolveRestUrl (NodeInformation.hostname node)
               (NodeInformation.restProtocol node)]
       else [].

(** What a run has collected, and its working directory. *)
Definition collected (identities : list (nat * string * nat))
    (peers : list (string * Z * string * string)) (gateways : list string)
    (ws : Workspace) (a : Assembly) : Prop :=
  transactionIdentity <$> transactions a = identities /\
  peerFields <$> knownPeers a = peers /\
  knownRestGateways a = gateways /\
  workspace (world a) = ws.

End AssemblyVocabulary.


(** One if the key store lacks the network account, zero if it holds it. *)
Definition missing (accountName : NetworkAccountName) (this : LocalFileKeyStore) : nat :=
  match lookupNetwork accountName this with
  | Some _ => 0
  | None => 1
  end.


(** Additional distributions of the first mosaic, one of them of amount
    zero. *)
Definition exampleAdditional : list (list (CurrencyDistribution Z)) :=
  [[ {| CurrencyDistribution.address := "TA"; CurrencyDistribution.amount := 5 |};
     {| CurrencyDistribution.address := "TB"; CurrencyDistribution.amount := 0 |} ]].



(** ** [src/utils/InitService.ts]: the validators of the prompts *)

(** What a validator returns: [true] or a message. *)
Inductive Validation : Type :=
  | Valid
  | Invalid (message : string).

Module InitService.

Definition isLetter (c : ascii) : bool :=
  let n := N_of_ascii c in
  ((65 <=? n) && (n <=? 90) || (97 <=? n) && (n <=? 122))%N.

Definition isDigit (c : ascii) : bool :=
  let n := N_of_ascii c in
  ((48 <=? n) && (n <=? 57))%N.

(** [input.match(/^[...]+$/)] for a class of characters, on a text that
    is not empty.  The classes of the source are classes of ASCII
    characters. *)
Fixpoint matchesClass (class : ascii -> bool) (input : string) : bool :=
  match input with
  | EmptyString => true
  | String c rest => class c && matchesClass class rest
  end.

(** The class [[A-Za-z\$\-\d]] *)
Definition templateClass (c : ascii) : bool :=
  isLetter c || Ascii.eqb c "$" || Ascii.eqb c "-" || isDigit c.

Definition isValidName (input : string) : Validation :=
  match truthyString (Some input) with
  | None => Invalid "Must be provided"
  | Some _ =>
      if matchesClass isLetter input then Valid
      else Invalid (input +:+ " is not a valid name")
  end.

Definition isValidTemplate (input : string) : Validation :=
  match truthyString (Some input) with
  | None => Invalid "Must be provided"
  | Some _ =>
      if matchesClass templateClass input then Valid
      else Invalid (input +:+ " is not a valid name")
  end.

End InitService.

(** A node built for a group of [groups]: its names come from the
    pattern, the suffix, the nick name of the group and a count. *)
Definition builtFrom (input : BasicNetworkFile) (groups : list NodeTypeInput)
    (n : NodeInformation) : Prop :=
  exists g k,
    g ∈ groups /\
    NodeInformation.friendlyName n =
      NetworkConfigurationService.formatFriendlyName (patternOf input)
        (BasicNetworkFile.suffix input) (NodeTypeInput.nickName g)
        ("0" +:+ NetworkUtils.zeroPad k 2) /\
    NodeInformation.hostname n =
      NodeInformation.friendlyName n +:+ "." +:+ BasicNetworkFile.domain input.


(** ** [src/utils/NetworkCommandUtils.ts] *)

(** What the parser of a flag does with its input. *)
Inductive Parsed : Type :=
  | Accepted (input : string)
  | Rejected (message : string).

Module NetworkCommandUtils.

Definition isValidPassword (input : option string) : Validation :=
  match truthyString input with
  | None => Valid
  | Some text =>
      if (4 <=? String.length text)%nat then Valid
      else Invalid ("Password must have at least 4 characters but got " +:+
                    Js.numberToString (String.length text))
  end.

(** The [parse] of the flag made by [getPasswordFlag(paramName, ...)] *)
Definition parse (paramName input : string) : Parsed :=
  match truthyString (Some input) with
  | None => Accepted input
  | Some _ =>
      match isValidPassword (Some input) with
      | Valid => Accepted input
      | Invalid message => Rejected ("--" +:+ paramName +:+ " is invalid, " +:+ message)
      end
  end.

(** The prompt with [validate: this.isValidPassword]: of the texts that
    the user enters one after the other, the first that the validator
    accepts; [None] when the user enters no such text. *)
Definition promptPassword (answers : list string) : option string :=
  List.find (fun answer =>
               match isValidPassword (Some answer) with
               | Valid => true
               | Invalid _ => false
               end) answers.

(** The resolved [Password] is a text or [false], here [None]; the outer
    [None] is a prompt that is never answered. *)
Definition resolvePassword (providedPassword : Password) (noPassword : bool)
    (answers : list string) : option (option string) :=
  let asked :=
    if noPassword then Some None
    else
      match promptPassword answers with
      | None => None
      | Some answer => Some (truthyString (Some answer))
      end in
  match providedPassword with
  | PasswordText text =>
      match truthyString (Some text) with
      | Some _ => Some (Some text)
      | None => asked
      end
  | PasswordFalse => Some None
  | PasswordUndefined => asked
  end.

End NetworkCommandUtils.

(** ** [LazyKeyStore] *)

Module LazyKeyStore.

(** The delegate, once made, and the number of calls of the factory. *)
Record t : Type := {
  delegate : option LocalFileKeyStore;
  factoryCalls : nat
}.

Definition new : t := {| delegate := None; factoryCalls := 0 |}.

Section Delegation.
Context `{Externals}.

(** The outcome of the factory, by the number of its earlier calls. *)
Variable factory : nat -> Result LocalFileKeyStore.

Definition getDelegate : M t LocalFileKeyStore :=
  fun this =>
    match delegate this with
    | Some store => (Ok store, this)
    | None =>
        match factory (factoryCalls this) with
        | Ok store =>
            (Ok store, {| delegate := Some store; factoryCalls := S (factoryCalls this) |})
        | Err e => (Err e, {| delegate := None; factoryCalls := S (factoryCalls this) |})
        end
    end.

(** [(await this.getDelegate()).method(...)]: the method acts on the
    delegate, which the lazy store keeps. *)
Definition onDelegate {A} (method : M LocalFileKeyStore A) : M t A :=
  let* store := getDelegate in
  fun this =>
    let '(result, store') := method store in
    (result, {| delegate := Some store'; factoryCalls := factoryCalls this |}).

Definition getNetworkAccount (networkType : nat) (accountName : NetworkAccountName)
    (generate : bool) : M t Account :=
  onDelegate (LocalFileKeyStore.getNetworkAccount networkType accountName generate).

Definition getNodeAccount (networkType : nat) (keyName : KeyName) (nodeName : string)
    (nodeInformation : NodeInformation) (generate : bool) : M t Account :=
  onDelegate (LocalFileKeyStore.getNodeAccount networkType keyName nodeName nodeInformation
                generate).

Definition saveNetworkAccount (networkType : nat) (accountName : NetworkAccountName)
    (privateKey : string) : M t unit :=
  onDelegate (LocalFileKeyStore.saveNetworkAccount networkType accountName privateKey).

Definition getVotingKeyFile (networkType : nat) (nodeName : string)
    (nodeInformation : NodeInformation) (startEpoch endEpoch : nat) :
    M t VotingKeyFileContent :=
  onDelegate (LocalFileKeyStore.getVotingKeyFile networkType nodeName nodeInformation
                startEpoch endEpoch).

End Delegation.

End LazyKeyStore.

(** A resolved password as a [Password]. *)
Definition resolved (password : option string) : Password :=
  match password with
  | Some text => PasswordText text
  | None => PasswordFalse
  end.

Section CreateStore.
Context `{Externals}.

(** The store after an operation on a lazy store. *)
Definition performLazily (factory : nat -> Result LocalFileKeyStore) (this : LazyKeyStore.t)
    (op : Operation) : LazyKeyStore.t :=
  match op with
  | GetNetworkAccount networkType accountName generate =>
      snd (LazyKeyStore.getNetworkAccount factory networkType accountName generate this)
  | SaveNetworkAccount networkType accountName privateKey =>
      snd (LazyKeyStore.saveNetworkAccount factory networkType accountName privateKey this)
  | GetNodeAccount networkType keyName nodeName nodeInformation generate =>
      snd (LazyKeyStore.getNodeAccount factory networkType keyName nodeName nodeInformation
             generate this)
  | GetVotingKeyFile networkType nodeName nodeInformation startEpoch endEpoch =>
      snd (LazyKeyStore.getVotingKeyFile factory networkType nodeName nodeInformation
             startEpoch endEpoch this)
  end.

(** The factory of [createStore]: the password is resolved, then the
    store is constructed over the file; [None] while the prompt is not
    answered. *)
Definition storeFactory (providedPassword : Password) (noPassword : bool)
    (answers : list string) (file : option KeyStoreDocument) (seed : nat) :
    option (Result LocalFileKeyStore) :=
  match NetworkCommandUtils.resolvePassword providedPassword noPassword answers with
  | None => None
  | Some password => Some (LocalFileKeyStore.new (resolved password) false file seed)
  end.

End CreateStore.


(** ** [src/services/NetworkAccountResolver.ts] *)

Module CertificatePair.
Record t : Type := {
  privateKey : option string;
  publicKey : string
}.
End CertificatePair.
Abbreviation CertificatePair := CertificatePair.t.

Module NetworkAccountResolver.

(** How [resolveAccount] ends: with an account, with an error of the key
    store or of the SDK, with the error of a public key that is not the
    expected one, with the [KnownError] of the caller, or in the prompt
    for the private key (lines 72 to 100, which are not modelled). *)
Inductive Outcome : Type :=
  | Resolved (account : Account)
  | Failed (e : Error)
  | InvalidPublicKey (keyName : KeyName) (expected got : string)
  | KnownError (message : string)
  | PrivateKeyPrompt (expected : CertificatePair).

Section Resolver.
Context `{Externals}.

(** The node of the resolver. *)
Variable node : NodeInformation.

Definition promptAccount (networkType : nat) (account : option CertificatePair)
    (generateErrorMessage : option string) (keyStore : LocalFileKeyStore) :
    Outcome * LocalFileKeyStore :=
  match account with
  | None =>
      match truthyString generateErrorMessage with
      | Some message => (KnownError message, keyStore)
      | None =>
          match LocalFileKeyStore.draw keyStore with
          | (Ok n, keyStore') => (Resolved (generateAccount n networkType), keyStore')
          | (Err e, keyStore') => (Failed e, keyStore')
          end
      end
  | Some certificate =>
      match truthyString (CertificatePair.privateKey certificate) with
      | None => (PrivateKeyPrompt certificate, keyStore)
      | Some privateKey =>
          match createFromPrivateKey privateKey networkType with
          | Some found => (Resolved found, keyStore)
          | None => (Failed (InvalidPrivateKey privateKey), keyStore)
          end
      end
  end.

Definition resolveAccount (networkType : nat) (account : option CertificatePair)
    (keyName : KeyName) (nodeName : option string) (generateErrorMessage : option string)
    (keyStore : LocalFileKeyStore) : Outcome * LocalFileKeyStore :=
  match account ≫= (fun certificate => truthyString (CertificatePair.privateKey certificate)) with
  | Some privateKey =>
      match createFromPrivateKey privateKey networkType with
      | Some found => (Resolved found, keyStore)
      | None => (Failed (InvalidPrivateKey privateKey), keyStore)
      end
  | None =>
      match truthyString nodeName with
      | None => promptAccount networkType account generateErrorMessage keyStore
      | Some name =>
          match LocalFileKeyStore.getNodeAccount networkType keyName name node true keyStore with
          | (Err e, keyStore') => (Failed e, keyStore')
          | (Ok storedAccount, keyStore') =>
              match account with
              | Some certificate =>
                  if negb (String.eqb (Account.publicKey storedAccount)
                             (CertificatePair.publicKey certificate))
                  then (InvalidPublicKey keyName (CertificatePair.publicKey certificate)
                          (Account.publicKey storedAccount), keyStore')
                  else (Resolved storedAccount, keyStore')
              | None => (Resolved storedAccount, keyStore')
              end
          end
      end
  end.

End Resolver.

End NetworkAccountResolver.




(** * Properties *)

(** ** The deployment assembly *)

(** C8.  For every entry of the catalog, the resolved assembly is the
    override when the entry has one and otherwise follows the rule of the
    role flags: ["dual"] for api and peer, ["api"] for api alone, ["peer"]
    otherwise.  For every metadata value, also outside the catalog, the
    same holds with an empty override counting as no override. *)
Theorem getAssembly_rule :
  (forall t : NodeMetadataType,
     let metadata := nodesMetadata t in
     NodeMetadataUtils.getAssembly metadata =
     match NodeTypeMetadata.assembly metadata with
     | Some override => override
     | None => assemblyRule (NodeTypeMetadata.api metadata) (NodeTypeMetadata.peer metadata)
     end) /\
  (forall metadata : NodeTypeMetadata,
     NodeMetadataUtils.getAssembly metadata =
     match NodeTypeMetadata.assembly metadata with
     | Some override =>
         if String.eqb override "" then
           assemblyRule (NodeTypeMetadata.api metadata) (NodeTypeMetadata.peer metadata)
         else override
     | None => assemblyRule (NodeTypeMetadata.api metadata) (NodeTypeMetadata.peer metadata)
     end).
Proof.
  split.
  - intros t; destruct t; reflexivity.
  - intros [? ? a p ? ? ? ? ? o ?]; unfold NodeMetadataUtils.getAssembly; simpl.
    destruct o as [override|]; simpl.
    + destruct (String.eqb override ""); [|reflexivity].
      destruct a, p; reflexivity.
    + destruct a, p; reflexivity.
Qed.

(** ** The candidate node of the genesis assembly *)

(** [find] with an [async] predicate returns the first element. *)
Lemma find_async_first {A} (array : list A) (settled : A -> bool) :
  Js.find array (fun x => Js.Promise (settled x)) = head array.
Proof. destruct array; reflexivity. Qed.

Lemma candidateNode_first {St} (nodes : list NodeInformation) (s : St) :
  NetworkGenesisService.candidateNode nodes s =
  (match nodes with
   | n :: _ => Ok n
   | [] => Err NoCandidateNode
   end, s).
Proof. destruct nodes; reflexivity. Qed.

(** C1.  What the code does.  The selection returns the first node of
    the topology, whatever its catalog entry, and throws
    [NoCandidateNode] only for an empty topology.  On the example
    topology, a plain peer followed by two voting dual nodes, the node
    handed to the toolkit is the peer, whose catalog entry is not
    harvesting, although the topology has harvesting nodes; and on a
    topology with a single peer and no harvesting node the assembly does
    not fail but hands over the peer. *)
Theorem candidate_is_first_node :
  let run network w :=
    fst (NetworkGenesisService.assembleNemesis network (NetworkGenesisService.start w)) in
  let harvests n := NodeTypeMetadata.harvesting (nodesMetadata (NodeInformation.nodeType n)) in
  (forall (St : Type) (nodes : list NodeInformation) (s : St),
     NetworkGenesisService.candidateNode nodes s =
     (match nodes with
      | n :: _ => Ok n
      | [] => Err NoCandidateNode
      end, s)) /\
  accountResolverNode <$> toOption (run Example.network Example.expandedWorld)
    = Some Example.peerNode /\
  harvests Example.peerNode = false /\
  existsb harvests (NetworkFile.nodes Example.network) = true /\
  accountResolverNode <$> toOption (run Example.peersOnly
                                      (Example.worldOf Example.peersOnly ∅))
    = Some Example.peerNode /\
  existsb harvests (NetworkFile.nodes Example.peersOnly) = false.
Proof.
  intros run harvests. split.
  - intros St nodes s. apply candidateNode_first.
  - subst run harvests. vm_compute. repeat split.
Qed.

(** ** The guards of the genesis assembly *)

Section Guards.
Context `{Externals}.




End Guards.



(** ** Balance scaling *)

Section Rounding.






End Rounding.

Section BalanceScaling.
Import NetworkGenesisService.

Lemma appendBalances_nil a : appendBalances a [] = a.
Proof. destruct a; unfold appendBalances; simpl. rewrite app_nil_r. reflexivity. Qed.

Lemma appendBalances_app a l1 l2 :
  appendBalances (appendBalances a l1) l2 = appendBalances a (l1 ++ l2).
Proof. unfold appendBalances; simpl. rewrite <- app_assoc. reflexivity. Qed.

Lemma pushNemesisBalance_run b a :
  pushNemesisBalance b a = (Ok tt, appendBalances a [b]).
Proof. reflexivity. Qed.

Lemma filter_all {A} (P : A -> Prop) `{forall x, Decision (P x)} (l : list A) :
  Forall P l -> filter P l = l.
Proof.
  induction 1 as [|x l Hx _ IH]; [reflexivity|].
  rewrite filter_cons_True by exact Hx. rewrite IH. reflexivity.
Qed.

Lemma filter_none {A} (P : A -> Prop) `{forall x, Decision (P x)} (l : list A) :
  Forall (fun x => ~ P x) l -> filter P l = [].
Proof.
  induction 1 as [|x l Hx _ IH]; [reflexivity|].
  rewrite filter_cons_False by exact Hx. exact IH.
Qed.




End BalanceScaling.

Section BalanceClaim.
Import NetworkGenesisService.




End BalanceClaim.

(** ** The key store *)

Section KeyStoreFacts.
Context `{Externals}.
Import LocalFileKeyStore.

Lemma save_run this :
  save this = if writable this then (Ok tt, saved this) else (Err passwordTooShort, this).
Proof.
  unfold save, writable, bind, get, modify, throw.
  destruct (truthyString (password this)) as [text|]; [|reflexivity].
  destruct (validPassword text); reflexivity.
Qed.

Lemma saving_ok {A} (a a' : A) this this' :
  saving a this = (Ok a', this') -> a' = a /\ this' = saved this /\ writable this = true.
Proof. unfold saving. destruct (writable this); intros [= <- <-]; auto. Qed.

Lemma saving_err {A} (a : A) this e this' :
  saving a this = (Err e, this') ->
  e = passwordTooShort /\ this' = this /\ writable this = false.
Proof. unfold saving. destruct (writable this); intros [= <- <-]; auto. Qed.

(** Whether a store can write its file depends on its password only. *)
Lemma writable_password this this' :
  password this' = password this -> writable this' = writable this.
Proof. unfold writable. intros ->. reflexivity. Qed.

Lemma getNetworkAccount_stored networkType accountName generate this stored :
  lookupNetwork accountName this = Some stored ->
  getNetworkAccount networkType accountName generate this =
  match createFromPrivateKey (StoredAccount.privateKey stored) networkType with
  | Some account => saving account (setNetworkAccount accountName (toStored account) this)
  | None => (Err (InvalidPrivateKey (StoredAccount.privateKey stored)), this)
  end.
Proof.
  unfold lookupNetwork, getNetworkAccount. intros Hstored. run. rewrite Hstored.
  destruct (createFromPrivateKey _ _); [|reflexivity].
  save_cases this.
Qed.

Lemma getNetworkAccount_absent networkType accountName generate this :
  lookupNetwork accountName this = None ->
  getNetworkAccount networkType accountName generate this =
  if generate then
    let generated := generateAccount (draws this) networkType in
    match createFromPrivateKey (Account.privateKey generated) networkType with
    | Some account =>
        saving account (setNetworkAccount accountName (toStored account) (drawn this))
    | None => (Err (InvalidPrivateKey (Account.privateKey generated)), drawn this)
    end
  else (Err AccountNotFound, this).
Proof.
  unfold lookupNetwork, getNetworkAccount. intros Habsent. run. rewrite Habsent.
  destruct generate; run; [|reflexivity].
  destruct (createFromPrivateKey _ _); [|reflexivity].
  save_cases this.
Qed.

Lemma getNodeAccount_stored networkType keyName nodeName nodeInformation generate this stored :
  lookupNode nodeName nodeInformation keyName this = Some stored ->
  getNodeAccount networkType keyName nodeName nodeInformation generate this =
  match createFromPrivateKey (StoredAccount.privateKey stored) networkType with
  | Some account =>
      saving account (setNodeAccount nodeName nodeInformation keyName (toStored account) this)
  | None => (Err (InvalidPrivateKey (StoredAccount.privateKey stored)), this)
  end.
Proof.
  unfold lookupNode, getNodeAccount. intros Hstored. run. rewrite Hstored.
  destruct (createFromPrivateKey _ _); [|reflexivity].
  save_cases this.
Qed.

Lemma getNodeAccount_absent networkType keyName nodeName nodeInformation generate this :
  lookupNode nodeName nodeInformation keyName this = None ->
  getNodeAccount networkType keyName nodeName nodeInformation generate this =
  if generate then
    let generated := generateAccount (draws this) networkType in
    match createFromPrivateKey (Account.privateKey generated) networkType with
    | Some account =>
        saving account
          (setNodeAccount nodeName nodeInformation keyName (toStored account) (drawn this))
    | None => (Err (InvalidPrivateKey (Account.privateKey generated)), drawn this)
    end
  else (Err AccountNotFound, this).
Proof.
  unfold lookupNode, getNodeAccount. intros Habsent. run. rewrite Habsent.
  destruct generate; run; [|reflexivity].
  destruct (createFromPrivateKey _ _); [|reflexivity].
  save_cases this.
Qed.

Lemma lookupNetwork_set accountName stored this :
  lookupNetwork accountName (setNetworkAccount accountName stored this) = Some stored.
Proof. unfold lookupNetwork, setNetworkAccount; simpl. apply lookup_insert_eq. Qed.

Lemma lookupNode_set nodeName nodeInformation keyName stored this :
  lookupNode nodeName nodeInformation keyName
    (setNodeAccount nodeName nodeInformation keyName stored this) = Some stored.
Proof.
  unfold lookupNode, setNodeAccount; simpl.
  rewrite lookup_insert_eq. simpl. apply lookup_insert_eq.
Qed.

Lemma lookupNetwork_saved accountName this :
  lookupNetwork accountName (saved this) = lookupNetwork accountName this.
Proof. reflexivity. Qed.

Lemma lookupNode_saved nodeName nodeInformation keyName this :
  lookupNode nodeName nodeInformation keyName (saved this) =
  lookupNode nodeName nodeInformation keyName this.
Proof. reflexivity. Qed.

(** Writing back the entry that is already there changes nothing. *)
Lemma setNetworkAccount_same accountName stored this :
  lookupNetwork accountName this = Some stored ->
  storage (setNetworkAccount accountName stored this) = storage this.
Proof.
  unfold lookupNetwork, setNetworkAccount. intros Hstored. simpl.
  rewrite (insert_id _ _ _ Hstored). destruct (storage this); reflexivity.
Qed.


(** A call of [getNetworkAccount] that returns has stored the account
    and saved the store. *)
Lemma getNetworkAccount_saved networkType accountName generate this account this' :
  getNetworkAccount networkType accountName generate this = (Ok account, this') ->
  exists set,
    this' = saved (setNetworkAccount accountName (toStored account) set) /\
    (set = this \/ set = drawn this) /\ writable this = true.
Proof.
  intros Hrun.
  destruct (lookupNetwork accountName this) as [stored|] eqn:Hlookup.
  - rewrite (getNetworkAccount_stored _ _ _ _ _ Hlookup) in Hrun.
    destruct (createFromPrivateKey _ _); [|discriminate].
    apply saving_ok in Hrun as (-> & -> & Hwritable). eauto.
  - rewrite (getNetworkAccount_absent _ _ _ _ Hlookup) in Hrun.
    destruct generate; [|discriminate]. cbv zeta in Hrun.
    destruct (createFromPrivateKey _ _); [|discriminate].
    apply saving_ok in Hrun as (-> & -> & Hwritable). eauto.
Qed.

Lemma getNodeAccount_saved networkType keyName nodeName nodeInformation generate this
    account this' :
  getNodeAccount networkType keyName nodeName nodeInformation generate this
    = (Ok account, this') ->
  exists set,
    this' = saved (setNodeAccount nodeName nodeInformation keyName (toStored account) set) /\
    (set = this \/ set = drawn this) /\ writable this = true.
Proof.
  intros Hrun.
  destruct (lookupNode nodeName nodeInformation keyName this) as [stored|] eqn:Hlookup.
  - rewrite (getNodeAccount_stored _ _ _ _ _ _ _ Hlookup) in Hrun.
    destruct (createFromPrivateKey _ _); [|discriminate].
    apply saving_ok in Hrun as (-> & -> & Hwritable). eauto.
  - rewrite (getNodeAccount_absent _ _ _ _ _ _ Hlookup) in Hrun.
    destruct generate; [|discriminate]. cbv zeta in Hrun.
    destruct (createFromPrivateKey _ _); [|discriminate].
    apply saving_ok in Hrun as (-> & -> & Hwritable). eauto.
Qed.

Lemma getNetworkAccount_returns networkType accountName generate this account this' :
  getNetworkAccount networkType accountName generate this = (Ok account, this') ->
  lookupNetwork accountName this' = Some (toStored account) /\
  storageFile this' = Some {| document := storage this';
                              encryptedWith := truthyString (password this') |} /\
  writes this' = S (writes this).
Proof.
  intros Hrun. apply getNetworkAccount_saved in Hrun as (set & -> & Hset & _).
  rewrite lookupNetwork_saved, lookupNetwork_set.
  destruct Hset as [->| ->]; auto.
Qed.

Lemma getNodeAccount_returns networkType keyName nodeName nodeInformation generate this
    account this' :
  getNodeAccount networkType keyName nodeName nodeInformation generate this
    = (Ok account, this') ->
  lookupNode nodeName nodeInformation keyName this' = Some (toStored account) /\
  storageFile this' = Some {| document := storage this';
                              encryptedWith := truthyString (password this') |} /\
  writes this' = S (writes this).
Proof.
  intros Hrun. apply getNodeAccount_saved in Hrun as (set & -> & Hset & _).
  rewrite lookupNode_saved, lookupNode_set.
  destruct Hset as [->| ->]; auto.
Qed.

End KeyStoreFacts.

Section KeyStoreClaims.
Context `{Externals}.
Import LocalFileKeyStore.

(** C5.  Let the SDK accept the private key in question.  When an entry
    is stored for the role, [getNetworkAccount], with [generate = false]
    and with [generate = true] alike, returns the account of the stored
    entry, without drawing randomness, if the store can write its file
    (it has no password or one of at least four characters); if it
    cannot, the call throws the error of the toolkit and the file stays
    as it is.  With [generate = false] and no entry it throws
    [AccountNotFound] and changes nothing.  With [generate = true] and no
    entry it generates an account and stores it under the role; if the
    store can write its file, it writes the store and returns the
    account; if it cannot, it throws the error of the toolkit, with the
    account in the storage of the store and the file as it was. *)
Theorem getNetworkAccount_cases (networkType : nat) (accountName : NetworkAccountName)
    (this : LocalFileKeyStore) :
  (forall stored account generate,
     lookupNetwork accountName this = Some stored ->
     createFromPrivateKey (StoredAccount.privateKey stored) networkType = Some account ->
     (writable this = true ->
      exists this',
        getNetworkAccount networkType accountName generate this = (Ok account, this') /\
        draws this' = draws this) /\
     (writable this = false ->
      exists this',
        getNetworkAccount networkType accountName generate this
          = (Err passwordTooShort, this') /\
        storageFile this' = storageFile this /\ writes this' = writes this)) /\
  (lookupNetwork accountName this = None ->
     getNetworkAccount networkType accountName false this = (Err AccountNotFound, this)) /\
  (lookupNetwork accountName this = None ->
     let account := generateAccount (draws this) networkType in
     createFromPrivateKey (Account.privateKey account) networkType = Some account ->
     (writable this = true ->
      exists this',
        getNetworkAccount networkType accountName true this = (Ok account, this') /\
        draws this' = S (draws this) /\
        lookupNetwork accountName this' = Some (toStored account) /\
        storageFile this' = Some {| document := storage this';
                                    encryptedWith := truthyString (password this') |}) /\
     (writable this = false ->
      exists this',
        getNetworkAccount networkType accountName true this
          = (Err passwordTooShort, this') /\
        lookupNetwork accountName this' = Some (toStored account) /\
        storageFile this' = storageFile this /\ writes this' = writes this)).
Proof.
  split; [|split].
  - intros stored account generate Hstored Hcreate.
    rewrite (getNetworkAccount_stored _ _ _ _ _ Hstored), Hcreate.
    unfold saving.
    rewrite (writable_password this (setNetworkAccount accountName (toStored account) this))
      by reflexivity.
    split; intros ->; eexists; (split; [reflexivity|]); auto.
  - intros Habsent. apply (getNetworkAccount_absent _ _ false _ Habsent).
  - intros Habsent account Hcreate.
    rewrite (getNetworkAccount_absent _ _ true _ Habsent). cbv zeta. fold account.
    rewrite Hcreate. unfold saving.
    rewrite (writable_password this
               (setNetworkAccount accountName (toStored account) (drawn this)))
      by reflexivity.
    split; intros ->; eexists; (split; [reflexivity|]).
    + split; [reflexivity|]. split; [|reflexivity].
      rewrite lookupNetwork_saved. apply lookupNetwork_set.
    + split; [apply lookupNetwork_set|]. auto.
Qed.

(** C9.  Every call of [getNetworkAccount] or [getNodeAccount] that
    returns an account, a plain lookup included, leaves the entry derived
    from that account in the storage map and writes the whole storage to
    the file: the file holds the storage as it is after the call and the
    count of writes is one more than before. *)
Theorem get_account_writes_store :
  (forall networkType accountName generate this account this',
     getNetworkAccount networkType accountName generate this = (Ok account, this') ->
     lookupNetwork accountName this' = Some (toStored account) /\
     storageFile this' = Some {| document := storage this';
                                 encryptedWith := truthyString (password this') |} /\
     writes this' = S (writes this)) /\
  (forall networkType keyName nodeName nodeInformation generate this account this',
     getNodeAccount networkType keyName nodeName nodeInformation generate this
       = (Ok account, this') ->
     lookupNode nodeName nodeInformation keyName this' = Some (toStored account) /\
     storageFile this' = Some {| document := storage this';
                                 encryptedWith := truthyString (password this') |} /\
     writes this' = S (writes this)).
Proof.
  split.
  - apply getNetworkAccount_returns.
  - apply getNodeAccount_returns.
Qed.


End KeyStoreClaims.

Section KeyStoreWitnesses.
Import LocalFileKeyStore.

Lemma getNetworkAccount_cases_witness :
  getNetworkAccount 152 founder false Example.emptyKeyStore
    = (Err AccountNotFound, Example.emptyKeyStore) /\
  (exists this',
     getNetworkAccount 152 founder true Example.emptyKeyStore
       = (Ok (Reference.generateAccount 0 152), this') /\
     draws this' = 1%nat /\
     lookupNetwork founder this' = Some (toStored (Reference.generateAccount 0 152)) /\
     storageFile this' = Some {| document := storage this';
                                 encryptedWith := truthyString (password this') |}) /\
  (exists this',
     getNetworkAccount 152 founder false Example.founderKeyStore
       = (Ok (Reference.generateAccount 0 152), this') /\
     draws this' = draws Example.founderKeyStore) /\
  (exists this',
     getNetworkAccount 152 founder true Example.shortPasswordKeyStore
       = (Err passwordTooShort, this') /\
     lookupNetwork founder this' = Some (toStored (Reference.generateAccount 0 152)) /\
     storageFile this' = None /\ writes this' = 0%nat).
Proof.
  pose proof (getNetworkAccount_cases 152 founder Example.emptyKeyStore) as (_ & Habsent & Hgenerate).
  pose proof (getNetworkAccount_cases 152 founder Example.founderKeyStore) as (Hstored & _ & _).
  pose proof (getNetworkAccount_cases 152 founder Example.shortPasswordKeyStore)
    as (_ & _ & Hshort).
  split; [exact (Habsent eq_refl)|].
  split; [exact (proj1 (Hgenerate eq_refl eq_refl) eq_refl)|].
  split.
  - exact (proj1 (Hstored (toStored (Reference.generateAccount 0 152))
                    (Reference.generateAccount 0 152) false eq_refl eq_refl) eq_refl).
  - exact (proj2 (Hshort eq_refl eq_refl) eq_refl).
Defined.

Lemma get_account_writes_store_witness :
  let this1 := snd (getNetworkAccount 152 founder false Example.founderKeyStore) in
  let this2 := snd (getNodeAccount 152 KeyName.Main "node" Example.peerNode false
                      Example.mainKeyStore) in
  (lookupNetwork founder this1 = Some (toStored (Reference.generateAccount 0 152)) /\
   storageFile this1 = Some {| document := storage this1;
                               encryptedWith := truthyString (password this1) |} /\
   writes this1 = S (writes Example.founderKeyStore)) /\
  (lookupNode "node" Example.peerNode KeyName.Main this2
     = Some (toStored (Reference.generateAccount 0 152)) /\
   storageFile this2 = Some {| document := storage this2;
                               encryptedWith := truthyString (password this2) |} /\
   writes this2 = S (writes Example.mainKeyStore)).
Proof.
  split.
  - exact (proj1 get_account_writes_store 152%nat founder false Example.founderKeyStore
             (Reference.generateAccount 0 152)
             (snd (getNetworkAccount 152 founder false Example.founderKeyStore)) eq_refl).
  - exact (proj2 get_account_writes_store 152%nat KeyName.Main "node" Example.peerNode false
             Example.mainKeyStore (Reference.generateAccount 0 152)
             (snd (getNodeAccount 152 KeyName.Main "node" Example.peerNode false
                     Example.mainKeyStore)) eq_refl).
Defined.


End KeyStoreWitnesses.

(** ** Voting key files *)

Section VotingKeys.
#[local] Arguments String.append !_ _ /.


Lemma numberToString_inj (n n' : nat) :
  Js.numberToString n = Js.numberToString n' -> n = n'.
Proof.
  unfold Js.numberToString. intros Heq.
  apply DecimalNat.Unsigned.to_uint_inj.
  pose proof (NilEmpty.usu (Nat.to_uint n)) as Hn.
  rewrite Heq, NilEmpty.usu in Hn. injection Hn as ->. reflexivity.
Qed.

Lemma append_inj_r (p s s' : string) : p +:+ s = p +:+ s' -> s = s'.
Proof. induction p; simpl; intros Heq; [exact Heq|]. injection Heq as Heq. auto. Qed.



End VotingKeys.

Section VotingKeyFacts.
Context `{Externals}.
Import LocalFileKeyStore.

Lemma getVotingKeyFile_absent networkType nodeName nodeInformation s e this :
  lookupVotingFile nodeName nodeInformation s e this = None ->
  let votingAccount := generateAccount (draws this) networkType in
  getVotingKeyFile networkType nodeName nodeInformation s e this =
  match createVotingFile (S (draws this)) (Account.privateKey votingAccount) s e with
  | Some content =>
      saving
        {| VotingKeyFileContent.publicKey := Account.publicKey votingAccount;
           VotingKeyFileContent.startEpoch := s;
           VotingKeyFileContent.endEpoch := e;
           VotingKeyFileContent.privateFileContent := content |}
        (setVotingFile (votingFileKey nodeName nodeInformation s e)
           {| StoredVotingFile.publicKey := Account.publicKey votingAccount;
              StoredVotingFile.privateFileContent := toBase64 content |}
           (drawn (drawn this)))
  | None =>
      (Err (ToolkitFailure "The voting key file cannot be created"), drawn (drawn this))
  end.
Proof.
  unfold lookupVotingFile, getVotingKeyFile. intros Habsent. run. rewrite Habsent.
  destruct (createVotingFile _ _ _ _) as [content|]; [|reflexivity].
  save_cases this.
Qed.


Lemma getVotingKeyFile_stored networkType nodeName nodeInformation s e this stored :
  lookupVotingFile nodeName nodeInformation s e this = Some stored ->
  getVotingKeyFile networkType nodeName nodeInformation s e this =
  match decodeStored stored with
  | None => (Err UnreadableVotingFile, this)
  | Some votingFile =>
      if negb (VotingKeyAccount.startEpoch votingFile =? s)%nat then
        (Err (EpochMismatch "startEpoch" s (VotingKeyAccount.startEpoch votingFile)), this)
      else if negb (VotingKeyAccount.endEpoch votingFile =? e)%nat then
        (Err (EpochMismatch "endEpoch" e (VotingKeyAccount.endEpoch votingFile)), this)
      else
        (Ok {| VotingKeyFileContent.publicKey := VotingKeyAccount.publicKey votingFile;
               VotingKeyFileContent.startEpoch := VotingKeyAccount.startEpoch votingFile;
               VotingKeyFileContent.endEpoch := VotingKeyAccount.endEpoch votingFile;
               VotingKeyFileContent.privateFileContent :=
                 fromBase64 (StoredVotingFile.privateFileContent stored) |}, this)
  end.
Proof.
  unfold lookupVotingFile, getVotingKeyFile, decodeStored. intros Hstored. run.
  rewrite Hstored.
  destruct (readVotingFile _) as [votingFile|]; [|reflexivity].
  destruct (VotingKeyAccount.startEpoch votingFile =? s)%nat; [|reflexivity].
  destruct (VotingKeyAccount.endEpoch votingFile =? e)%nat; reflexivity.
Qed.



End VotingKeyFacts.

Section VotingKeyClaim.
Context `{Externals}.
Import LocalFileKeyStore.



End VotingKeyClaim.

Section VotingKeyWitness.
Import LocalFileKeyStore.



End VotingKeyWitness.

(** ** Uniqueness of the names of the expanded nodes *)

Section UniqBy.
Context {A : Type} (iteratee : A -> string).

Lemma uniqByFrom_length_le (array : list A) :
  forall seen, (length (Lodash.uniqByFrom iteratee seen array) <= length array)%nat.
Proof.
  induction array as [|x rest IH]; intros seen; simpl; [lia|].
  case_bool_decide; simpl.
  - specialize (IH seen). lia.
  - specialize (IH (iteratee x :: seen)). lia.
Qed.

Lemma uniqByFrom_length_eq (array : list A) :
  forall seen,
  length (Lodash.uniqByFrom iteratee seen array) = length array <->
  NoDup (iteratee <$> array) /\ (forall key, key ∈ iteratee <$> array -> key ∉ seen).
Proof.
  induction array as [|x rest IH]; intros seen; simpl.
  - split; [|reflexivity]. intros _. split; [constructor|].
    intros key Hkey. inversion Hkey.
  - case_bool_decide as Hseen; simpl.
    + pose proof (uniqByFrom_length_le rest seen). split; [lia|].
      intros [_ Hfresh]. exfalso. apply (Hfresh (iteratee x)); [left|exact Hseen].
    + rewrite NoDup_cons. split.
      * intros Hlen. injection Hlen as Hlen. apply IH in Hlen as [Hnodup Hfresh].
        split; [split; [|exact Hnodup]|].
        -- intros Hin. apply (Hfresh _ Hin). left.
        -- intros key Hkey Hin. apply elem_of_cons in Hkey as [->|Hkey]; [contradiction|].
           apply (Hfresh _ Hkey). right. exact Hin.
      * intros [[Hnotin Hnodup] Hfresh]. f_equal. apply IH. split; [exact Hnodup|].
        intros key Hkey Hin. apply elem_of_cons in Hin as [->|Hin]; [contradiction|].
        apply (Hfresh key); [right; exact Hkey|exact Hin].
Qed.

(** [nodes.length != _.uniqBy(nodes, iteratee).length] tells whether two
    elements share a key. *)
Lemma uniqBy_length (array : list A) :
  (length array =? length (Lodash.uniqBy array iteratee))%nat = true <->
  NoDup (iteratee <$> array).
Proof.
  rewrite Nat.eqb_eq. unfold Lodash.uniqBy. split.
  - intros Hlen. symmetry in Hlen. apply uniqByFrom_length_eq in Hlen. tauto.
  - intros Hnodup. symmetry. apply uniqByFrom_length_eq. split; [exact Hnodup|].
    intros key _ Hin. inversion Hin.
Qed.

Lemma shared_key_not_NoDup (array : list A) (i j : nat) (x y : A) :
  i <> j -> array !! i = Some x -> array !! j = Some y -> iteratee x = iteratee y ->
  ~ NoDup (iteratee <$> array).
Proof.
  intros Hij Hx Hy Hkey Hnodup. apply Hij.
  apply (proj1 (NoDup_alt _) Hnodup i j (iteratee x)).
  - rewrite list_lookup_fmap, Hx. reflexivity.
  - rewrite list_lookup_fmap, Hy, Hkey. reflexivity.
Qed.

End UniqBy.

Section ExpandClaim.
Context `{Externals}.
Import NetworkConfigurationService.

(** C4.  Let the input file be loaded.  If two of the expanded nodes
    share the [friendlyName] or share the [hostname], [expandNodes] throws
    [DuplicateIdentifier] and the working directory is as before: no
    network file is written.  If the names are all distinct and the host
    names are all distinct, [expandNodes] returns the network of the
    expanded nodes and has written it, stripped of private keys. *)
Theorem expandNodes_duplicates (ws : Workspace) (input : NetworkInputFile) :
  Workspace.networkInputFile ws = Some input ->
  let nodes := expandedNodes input in
  ((exists i j n1 n2,
      i <> j /\ nodes !! i = Some n1 /\ nodes !! j = Some n2 /\
      (NodeInformation.friendlyName n1 = NodeInformation.friendlyName n2 \/
       NodeInformation.hostname n1 = NodeInformation.hostname n2)) ->
   exists message, expandNodes ws = (Err (DuplicateIdentifier message), ws)) /\
  (NoDup (NodeInformation.friendlyName <$> nodes) ->
   NoDup (NodeInformation.hostname <$> nodes) ->
   let output := {| NetworkFile.basic := NetworkInputFile.basic input;
                    NetworkFile.nodes := nodes |} in
   expandNodes ws =
   (Ok output,
    {| Workspace.path := Workspace.path ws;
       Workspace.currentDirectory := Workspace.currentDirectory ws;
       Workspace.networkInputFile := Workspace.networkInputFile ws;
       Workspace.networkFile := Some (removePrivateKeys output);
       Workspace.presetFiles := Workspace.presetFiles ws;
       Workspace.folders := Workspace.folders ws |})).
Proof.
  intros Hload nodes.
  assert (Hrun : expandNodes ws =
    (if negb (length nodes =? length (Lodash.uniqBy nodes NodeInformation.friendlyName))%nat then
       throw (DuplicateIdentifier "Duplicated friendlyNames!!")
     else if negb (length nodes =? length (Lodash.uniqBy nodes NodeInformation.hostname))%nat then
       throw (DuplicateIdentifier "Duplicated hostname!!")
     else
       let output := {| NetworkFile.basic := NetworkInputFile.basic input;
                        NetworkFile.nodes := nodes |} in
       bind (NetworkUtils.saveNetwork output) (fun _ => ret output)) ws).
  { unfold expandNodes, NetworkUtils.loadNetworkInput.
    unfold bind at 1. unfold bind at 1. unfold get, fromOption. rewrite Hload. reflexivity. }
  rewrite Hrun. clear Hrun.
  destruct (length nodes =? length (Lodash.uniqBy nodes NodeInformation.friendlyName))%nat
    eqn:Hnames;
  [destruct (length nodes =? length (Lodash.uniqBy nodes NodeInformation.hostname))%nat
     eqn:Hhosts|]; simpl.
  - apply uniqBy_length in Hnames, Hhosts. split.
    + intros (i & j & n1 & n2 & Hij & H1 & H2 & [Hsame|Hsame]); exfalso.
      * exact (shared_key_not_NoDup _ _ _ _ _ _ Hij H1 H2 Hsame Hnames).
      * exact (shared_key_not_NoDup _ _ _ _ _ _ Hij H1 H2 Hsame Hhosts).
    + intros _ _. reflexivity.
  - split; [eauto|]. intros _ Hnodup. apply uniqBy_length in Hnodup. congruence.
  - split; [eauto|]. intros Hnodup _. apply uniqBy_length in Hnodup. congruence.
Qed.

End ExpandClaim.

Lemma expandNodes_duplicates_witness :
  (exists message,
     NetworkConfigurationService.expandNodes (Example.workspaceOf Example.duplicateInput)
     = (Err (DuplicateIdentifier message), Example.workspaceOf Example.duplicateInput)) /\
  NetworkConfigurationService.expandNodes Example.initialWorkspace
  = (Ok Example.network,
     {| Workspace.path := ".";
        Workspace.currentDirectory := None;
        Workspace.networkInputFile := Some Example.input;
        Workspace.networkFile := Some Example.network;
        Workspace.presetFiles := Workspace.presetFiles Example.initialWorkspace;
        Workspace.folders := ∅ |}).
Proof.
  split.
  - apply (proj1 (expandNodes_duplicates (Example.workspaceOf Example.duplicateInput)
                    Example.duplicateInput eq_refl)).
    exists 0%nat, 1%nat.
    eexists _, _. split; [discriminate|]. split; [reflexivity|]. split; [reflexivity|].
    left. vm_compute. reflexivity.
  - pose proof (proj2 (expandNodes_duplicates Example.initialWorkspace Example.input eq_refl))
      as Hdistinct.
    exact (Hdistinct ltac:(apply (bool_decide_unpack _); vm_compute; exact I)
                     ltac:(apply (bool_decide_unpack _); vm_compute; exact I)).
Defined.

(** ** Texts *)

Section Texts.
#[local] Arguments String.append !_ _ /.

Lemma length_append (a b : string) :
  String.length (a +:+ b) = (String.length a + String.length b)%nat.
Proof. induction a; simpl; auto. Qed.

Lemma length_repeatChar (c : ascii) (n : nat) : String.length (Js.repeatChar c n) = n.
Proof. induction n; simpl; auto. Qed.

Lemma string_of_uint_lacks (c : ascii) (d : Decimal.uint) :
  (N_of_ascii c <? 48)%N || (57 <? N_of_ascii c)%N = true ->
  lacks c (NilEmpty.string_of_uint d).
Proof.
  intros Hc. induction d; simpl; auto; split; auto; intros <-; discriminate Hc.
Qed.

Lemma lacks_append (c : ascii) (a b : string) :
  lacks c (a +:+ b) <-> lacks c a /\ lacks c b.
Proof. induction a; simpl; tauto. Qed.

Lemma lacks_repeatChar (c d : ascii) (n : nat) : d <> c -> lacks c (Js.repeatChar d n).
Proof. intros Hne. induction n; simpl; auto. Qed.

Lemma zeroPad_lacks (c : ascii) (num places : nat) :
  (N_of_ascii c <? 48)%N || (57 <? N_of_ascii c)%N = true ->
  lacks c (NetworkUtils.zeroPad num places).
Proof.
  intros Hc. unfold NetworkUtils.zeroPad, Js.padStart. apply lacks_append. split.
  - apply lacks_repeatChar. intros <-. discriminate Hc.
  - apply string_of_uint_lacks. exact Hc.
Qed.

Lemma append_assoc (a b c : string) : (a +:+ b) +:+ c = a +:+ (b +:+ c).
Proof. induction a; simpl; [reflexivity|]. f_equal. assumption. Qed.

Lemma append_inj_l (a b c : string) : a +:+ c = b +:+ c -> a = b.
Proof.
  revert b. induction a as [|x a IH]; intros [|y b] Heq; simpl in *.
  - reflexivity.
  - apply (f_equal String.length) in Heq. simpl in Heq. rewrite length_append in Heq. lia.
  - apply (f_equal String.length) in Heq. simpl in Heq. rewrite length_append in Heq. lia.
  - injection Heq as -> Heq. f_equal. auto.
Qed.

Lemma noDollar_lacks (s : string) : noDollar s <-> lacks "$" s.
Proof. induction s; simpl; tauto. Qed.

Lemma noDollar_append (a b : string) : noDollar (a +:+ b) <-> noDollar a /\ noDollar b.
Proof. rewrite !noDollar_lacks. apply lacks_append. Qed.

(** A replacement text without dollar signs is inserted as it is. *)
Lemma getSubstitution_plain (matched before after template : string) :
  noDollar template -> Js.getSubstitution matched before after template = template.
Proof.
  induction template as [|c template IH]; intros Hplain; [reflexivity|].
  destruct Hplain as [Hc Hplain]. cbn [Js.getSubstitution].
  destruct (Ascii.eqb_spec c "$"); [contradiction|]. f_equal. auto.
Qed.

(** The first occurrence of a variable is not in a text without dollar
    signs. *)
Lemma splitAtFirst_skip (body a s : string) :
  noDollar a ->
  Js.splitAtFirst (String "$" body) (a +:+ s) =
  match Js.splitAtFirst (String "$" body) s with
  | Some (before, after) => Some (a +:+ before, after)
  | None => None
  end.
Proof.
  induction a as [|c a IH]; intros Hplain.
  - simpl. destruct (Js.splitAtFirst (String "$" body) s) as [[? ?]|]; reflexivity.
  - destruct Hplain as [Hc Hplain].
    change (String c a +:+ s) with (String c (a +:+ s)).
    cbn [Js.splitAtFirst Js.startsWith].
    destruct (Ascii.eqb_spec "$" c) as [Heq|_]; [symmetry in Heq; contradiction|].
    rewrite (IH Hplain).
    destruct (Js.splitAtFirst (String "$" body) s) as [[? ?]|]; reflexivity.
Qed.

Lemma replace_plain (body a s value before after : string) :
  noDollar a -> noDollar value ->
  Js.splitAtFirst (String "$" body) s = Some (before, after) ->
  Js.replace (a +:+ s) (String "$" body) value = (a +:+ before) +:+ value +:+ after.
Proof.
  intros Ha Hvalue Hsplit. unfold Js.replace.
  rewrite (splitAtFirst_skip _ _ _ Ha), Hsplit, (getSubstitution_plain _ _ _ _ Hvalue).
  reflexivity.
Qed.

End Texts.

(** ** Pattern variables are replaced once *)

Section Occurrences.
#[local] Arguments String.append !_ _ /.

Lemma startsWith_app (q a b : string) :
  Js.startsWith q a = true -> Js.startsWith q (a +:+ b) = true.
Proof.
  revert a. induction q as [|c q IH]; intros a Hq; [reflexivity|].
  destruct a as [|d a]; simpl in *; [discriminate|].
  destruct (Ascii.eqb c d); [auto|discriminate].
Qed.

Lemma occurrences_app_ge (q a b : string) :
  q <> "" ->
  (Js.occurrences q a + Js.occurrences q b <= Js.occurrences q (a +:+ b))%nat.
Proof.
  intros Hq. induction a as [|c a IH].
  - destruct q; [contradiction|]. simpl. lia.
  - cbn [String.append Js.occurrences].
    destruct (Js.startsWith q (String c a)) eqn:Hstarts.
    + change (String c (a +:+ b)) with (String c a +:+ b).
      rewrite (startsWith_app _ _ b Hstarts). lia.
    + destruct (Js.startsWith q (String c (a +:+ b))); lia.
Qed.

Lemma startsWith_drop (p s : string) :
  Js.startsWith p s = true -> s = p +:+ Js.drop (String.length p) s.
Proof.
  revert s. induction p as [|c p IH]; intros s Hp; [reflexivity|].
  destruct s as [|d s]; simpl in *; [discriminate|].
  destruct (Ascii.eqb_spec c d) as [->|]; [|discriminate].
  f_equal. auto.
Qed.

Lemma splitAtFirst_spec (p s before after : string) :
  Js.splitAtFirst p s = Some (before, after) -> s = before +:+ p +:+ after.
Proof.
  revert before. induction s as [|c s IH]; intros before; simpl.
  - destruct (Js.startsWith p "") eqn:Hp; [|discriminate].
    intros Heq. injection Heq as <- <-. apply (startsWith_drop _ _ Hp).
  - destruct (Js.startsWith p (String c s)) eqn:Hp.
    + intros Heq. injection Heq as <- <-. apply (startsWith_drop _ _ Hp).
    + destruct (Js.splitAtFirst p s) as [[before' after']|]; [|discriminate].
      intros Heq. injection Heq as <- <-. simpl. f_equal. auto.
Qed.

(** A text without dollar signs that begins a text cut by a dollar sign
    lies before the cut. *)
Lemma startsWith_before_dollar (body before rest : string) :
  noDollar body ->
  Js.startsWith body (before +:+ String "$" rest) = true ->
  Js.startsWith body before = true.
Proof.
  revert before. induction body as [|c body IH]; intros before Hno Hstarts;
    [reflexivity|].
  destruct Hno as [Hc Hbody].
  destruct before as [|d before]; simpl in *.
  - destruct (Ascii.eqb_spec c "$"); [contradiction|discriminate].
  - destruct (Ascii.eqb c d); [auto|discriminate].
Qed.

Lemma variable_shape (q : string) :
  In q patternVariables -> exists body, q = String "$" body /\ noDollar body.
Proof.
  intros [<-|[<-|[<-|[]]]]; eexists; (split; [reflexivity|]);
    simpl; repeat split; discriminate.
Qed.

(** The occurrences of a variable in a text are those before the first
    occurrence of a variable, that occurrence if it is of the same
    variable, and those after it. *)
Lemma occurrences_split (p q s : string) :
  In p patternVariables -> In q patternVariables ->
  forall before after,
  Js.splitAtFirst p s = Some (before, after) ->
  (Js.occurrences q s <=
   Js.occurrences q before + (if String.eqb p q then 1 else 0) + Js.occurrences q after)%nat.
Proof.
  intros Hp Hq.
  assert (Hhead : forall after,
    (Js.occurrences q (p +:+ after) <=
     (if String.eqb p q then 1 else 0) + Js.occurrences q after)%nat).
  { intros after.
    destruct Hp as [<-|[<-|[<-|[]]]]; destruct Hq as [<-|[<-|[<-|[]]]]; simpl; lia. }
  destruct (variable_shape q Hq) as (body & -> & Hbody).
  destruct (variable_shape p Hp) as (pbody & Hpshape & _).
  induction s as [|c s IH]; intros before after; cbn [Js.splitAtFirst].
  - intros _. cbn [Js.occurrences Js.startsWith]. lia.
  - destruct (Js.startsWith p (String c s)) eqn:Hstarts.
    + intros Heq. injection Heq as <- <-.
      pose proof (Hhead (Js.drop (String.length p) (String c s))) as Hle.
      rewrite <- (startsWith_drop _ _ Hstarts) in Hle.
      cbn [Js.occurrences Js.startsWith] in Hle |- *. lia.
    + destruct (Js.splitAtFirst p s) as [[before' after']|] eqn:Hsplit; [|discriminate].
      intros Heq. injection Heq as <- <-.
      specialize (IH before' after' eq_refl).
      cbn [Js.occurrences].
      assert (Hfirst :
        Js.startsWith (String "$" body) (String c s) = true ->
        Js.startsWith (String "$" body) (String c before') = true).
      { cbn [Js.startsWith]. destruct (Ascii.eqb "$" c); [|intros Hfalse; discriminate Hfalse].
        rewrite (splitAtFirst_spec _ _ _ _ Hsplit), Hpshape.
        change (String "$" pbody +:+ after') with (String "$" (pbody +:+ after')).
        apply startsWith_before_dollar. exact Hbody. }
      destruct (Js.startsWith (String "$" body) (String c s)).
      * rewrite (Hfirst eq_refl). lia.
      * destruct (Js.startsWith (String "$" body) (String c before')); lia.
Qed.

(** One replacement removes at most one occurrence of the variable it
    replaces and none of another variable. *)
Lemma occurrences_replace (p q s r : string) :
  In p patternVariables -> In q patternVariables ->
  (Js.occurrences q s - (if String.eqb p q then 1 else 0)
   <= Js.occurrences q (Js.replace s p r))%nat.
Proof.
  intros Hp Hq. unfold Js.replace.
  destruct (Js.splitAtFirst p s) as [[before after]|] eqn:Hsplit; [|lia].
  pose proof (occurrences_split p q s Hp Hq before after Hsplit) as Hle.
  assert (Hne : q <> "") by (destruct (variable_shape q Hq) as (? & -> & _); discriminate).
  pose proof (occurrences_app_ge q before (Js.getSubstitution p before after r +:+ after) Hne).
  pose proof (occurrences_app_ge q (Js.getSubstitution p before after r) after Hne).
  lia.
Qed.

Lemma occurrences_formatFriendlyName (pattern suffix nickname friendlyNumber q : string) :
  In q patternVariables ->
  (Js.occurrences q pattern - 1 <=
   Js.occurrences q
     (NetworkConfigurationService.formatFriendlyName pattern suffix nickname friendlyNumber))%nat.
Proof.
  intros Hq. unfold NetworkConfigurationService.formatFriendlyName. cbn [fold_left].
  set (s1 := Js.replace pattern ("$" +:+ "suffix") suffix).
  set (s2 := Js.replace s1 ("$" +:+ "nickname") nickname).
  pose proof (occurrences_replace "$suffix" q pattern suffix) as H1.
  pose proof (occurrences_replace "$nickname" q s1 nickname) as H2.
  pose proof (occurrences_replace "$friendlyNumber" q s2 friendlyNumber) as H3.
  change (Js.replace pattern "$suffix" suffix) with s1 in H1.
  change (Js.replace s1 "$nickname" nickname) with s2 in H2.
  change ("$" +:+ "friendlyNumber") with "$friendlyNumber".
  specialize (H1 ltac:(simpl; tauto) Hq).
  specialize (H2 ltac:(simpl; tauto) Hq).
  specialize (H3 ltac:(simpl; tauto) Hq).
  destruct Hq as [<-|[<-|[<-|[]]]]; simpl in H1, H2, H3; lia.
Qed.

End Occurrences.

Section PatternClaim.
#[local] Arguments String.append !_ _ /.
Import NetworkConfigurationService.

Lemma expandNode_formatted input nodeTypeInput st :
  Forall (formatted input) (nodes st) ->
  Forall (formatted input) (nodes (expandNode input nodeTypeInput st)).
Proof.
  intros Hst. unfold expandNode. cbn [nodes].
  apply Forall_app. split; [exact Hst|].
  apply Forall_singleton. split; [|reflexivity].
  cbn [NodeInformation.friendlyName]. eexists _, _. reflexivity.
Qed.

Lemma expandNodeType_formatted input nodeTypeInput st :
  Forall (formatted input) (nodes st) ->
  Forall (formatted input) (nodes (expandNodeType input st nodeTypeInput)).
Proof.
  intros Hst. unfold expandNodeType.
  induction (NodeTypeInput.total nodeTypeInput) as [|n IH]; [exact Hst|].
  cbn [Nat.iter nat_rect]. apply expandNode_formatted. exact IH.
Qed.

Lemma expandedNodes_formatted (input : NetworkInputFile) :
  Forall (formatted (NetworkInputFile.basic input)) (expandedNodes input).
Proof.
  unfold expandedNodes.
  assert (Hfold : forall groups st,
    Forall (formatted (NetworkInputFile.basic input)) (nodes st) ->
    Forall (formatted (NetworkInputFile.basic input))
      (nodes (fold_left (expandNodeType (NetworkInputFile.basic input)) groups st))).
  { induction groups as [|g groups IH]; intros st Hst; [exact Hst|].
    cbn [fold_left]. apply IH. apply expandNodeType_formatted. exact Hst. }
  apply Hfold. constructor.
Qed.

Lemma expandNode_named input nodeTypeInput st :
  Forall (named input) (nodes st) ->
  Forall (named input) (nodes (expandNode input nodeTypeInput st)).
Proof.
  intros Hst. unfold expandNode. cbn [nodes].
  apply Forall_app. split; [exact Hst|].
  apply Forall_singleton. split; [|reflexivity].
  cbn [NodeInformation.friendlyName NodeInformation.nickName]. eexists. reflexivity.
Qed.

Lemma expandedNodes_named (input : NetworkInputFile) :
  Forall (named (NetworkInputFile.basic input)) (expandedNodes input).
Proof.
  unfold expandedNodes.
  assert (Hfold : forall groups st,
    Forall (named (NetworkInputFile.basic input)) (nodes st) ->
    Forall (named (NetworkInputFile.basic input))
      (nodes (fold_left (expandNodeType (NetworkInputFile.basic input)) groups st))).
  { induction groups as [|g groups IH]; intros st Hst; [exact Hst|].
    cbn [fold_left]. apply IH. unfold expandNodeType.
    induction (NodeTypeInput.total g) as [|k IHk]; [exact Hst|].
    cbn [Nat.iter nat_rect]. apply expandNode_named. exact IHk. }
  apply Hfold. constructor.
Qed.

(** *** Replacing in a pattern of plain texts and variables *)

Lemma variableText_shape (v : PatternVariable) :
  exists body, variableText v = String "$" body /\ noDollar body.
Proof. destruct v; eexists; (split; [reflexivity|]); simpl; repeat split; discriminate. Qed.

Lemma replace_skip_plain (body a s value : string) :
  noDollar a -> noDollar value ->
  Js.replace (a +:+ s) (String "$" body) value = a +:+ Js.replace s (String "$" body) value.
Proof.
  intros Ha Hvalue. unfold Js.replace. rewrite (splitAtFirst_skip _ _ _ Ha).
  destruct (Js.splitAtFirst (String "$" body) s) as [[before after]|]; [|reflexivity].
  rewrite !(getSubstitution_plain _ _ _ _ Hvalue). apply append_assoc.
Qed.

Lemma replace_skip_variable (v w : PatternVariable) (s value : string) :
  w <> v -> noDollar value ->
  Js.replace (variableText w +:+ s) (variableText v) value =
  variableText w +:+ Js.replace s (variableText v) value.
Proof.
  intros Hne Hvalue. unfold Js.replace.
  destruct v, w; try contradiction; cbn;
    destruct (Js.splitAtFirst _ s) as [[before after]|]; cbn;
    rewrite ?(getSubstitution_plain _ _ _ _ Hvalue); reflexivity.
Qed.

Lemma replace_here (v : PatternVariable) (s value : string) :
  noDollar value ->
  Js.replace (variableText v +:+ s) (variableText v) value = value +:+ s.
Proof.
  intros Hvalue. unfold Js.replace.
  destruct v; cbn; rewrite (getSubstitution_plain _ _ _ _ Hvalue); reflexivity.
Qed.

(** One replacement of the source replaces the first occurrence of the
    variable among the tokens. *)
Lemma replace_tokens (v : PatternVariable) (value : string) (tokens : list Token) :
  Forall plainToken tokens -> noDollar value ->
  Js.replace (patternText tokens) (variableText v) value =
  patternText (replaceFirst v value tokens).
Proof.
  intros Hplain Hvalue. induction Hplain as [|t rest Ht _ IH]; [destruct v; reflexivity|].
  destruct (variableText_shape v) as (body & Hshape & _).
  cbn [patternText replaceFirst]. destruct t as [text|w].
  - cbn [tokenText patternText]. rewrite <- IH, Hshape.
    apply replace_skip_plain; assumption.
  - cbn [tokenText]. case_bool_decide as Hw.
    + subst w. cbn [patternText tokenText]. apply replace_here, Hvalue.
    + cbn [patternText tokenText]. rewrite <- IH.
      apply replace_skip_variable; assumption.
Qed.

Lemma replaceFirst_plain (v : PatternVariable) (value : string) (tokens : list Token) :
  Forall plainToken tokens -> noDollar value ->
  Forall plainToken (replaceFirst v value tokens).
Proof.
  intros Hplain Hvalue. induction Hplain as [|t rest Ht Hrest IH]; [constructor|].
  cbn [replaceFirst]. destruct t as [text|w].
  - constructor; assumption.
  - case_bool_decide; constructor; assumption.
Qed.

(** The three replacements of the source, one after the other, on a
    pattern of plain texts and variables. *)
Lemma formatFriendlyName_tokens (tokens : list Token) (suffix nickname friendlyNumber : string) :
  Forall plainToken tokens ->
  noDollar suffix -> noDollar nickname -> noDollar friendlyNumber ->
  formatFriendlyName (patternText tokens) suffix nickname friendlyNumber =
  patternText
    (replaceFirst FriendlyNumberVariable friendlyNumber
       (replaceFirst NicknameVariable nickname
          (replaceFirst SuffixVariable suffix tokens))).
Proof.
  intros Hplain Hsuffix Hnickname Hnumber.
  unfold formatFriendlyName. cbn [fold_left].
  change ("$" +:+ "suffix") with (variableText SuffixVariable).
  change ("$" +:+ "nickname") with (variableText NicknameVariable).
  change ("$" +:+ "friendlyNumber") with (variableText FriendlyNumberVariable).
  rewrite (replace_tokens _ _ _ Hplain Hsuffix).
  pose proof (replaceFirst_plain SuffixVariable suffix tokens Hplain Hsuffix) as Hplain1.
  rewrite (replace_tokens _ _ _ Hplain1 Hnickname).
  pose proof (replaceFirst_plain NicknameVariable nickname _ Hplain1 Hnickname) as Hplain2.
  rewrite (replace_tokens _ _ _ Hplain2 Hnumber).
  reflexivity.
Qed.

(** *** The replacements one after the other and in one pass *)

Lemma replacePending_nil value replaced v : replacePending value replaced v [] = [].
Proof. unfold replacePending. case_bool_decide; reflexivity. Qed.

Lemma replacePending_plain value replaced v text rest :
  replacePending value replaced v (Plain text :: rest) =
  Plain text :: replacePending value replaced v rest.
Proof. unfold replacePending. case_bool_decide; reflexivity. Qed.

Lemma replacePending_other value replaced v w rest :
  w <> v ->
  replacePending value replaced v (Placeholder w :: rest) =
  Placeholder w :: replacePending value replaced v rest.
Proof.
  intros Hne. unfold replacePending. case_bool_decide; [reflexivity|].
  cbn [replaceFirst]. rewrite bool_decide_eq_false_2 by exact Hne. reflexivity.
Qed.

Lemma replacePending_replaced value replaced v tokens :
  v ∈ replaced -> replacePending value replaced v tokens = tokens.
Proof. intros Hin. unfold replacePending. rewrite bool_decide_eq_true_2 by exact Hin. reflexivity. Qed.

Lemma replacePending_here value replaced v rest :
  v ∉ replaced ->
  replacePending value replaced v (Placeholder v :: rest) = Plain (value v) :: rest.
Proof.
  intros Hin. unfold replacePending. rewrite bool_decide_eq_false_2 by exact Hin.
  cbn [replaceFirst]. rewrite bool_decide_eq_true_2 by reflexivity. reflexivity.
Qed.

Lemma replacePending_cons value replaced v w tokens :
  w <> v ->
  replacePending value (w :: replaced) v tokens = replacePending value replaced v tokens.
Proof.
  intros Hne. unfold replacePending.
  destruct (decide (v ∈ replaced)) as [Hin|Hin].
  - rewrite !bool_decide_eq_true_2; [reflexivity|exact Hin|right; exact Hin].
  - rewrite !bool_decide_eq_false_2; [reflexivity|exact Hin|].
    intros [Heq|Hin']%elem_of_cons; [symmetry in Heq|]; contradiction.
Qed.

Lemma replacePending_all (value : PatternVariable -> string) (tokens : list Token) :
  forall replaced,
  patternText
    (replacePending value replaced FriendlyNumberVariable
       (replacePending value replaced NicknameVariable
          (replacePending value replaced SuffixVariable tokens))) =
  substituteFirst value replaced tokens.
Proof.
  induction tokens as [|t rest IH]; intros replaced.
  - rewrite !replacePending_nil. reflexivity.
  - destruct t as [text|w].
    + rewrite !replacePending_plain. cbn [patternText tokenText substituteFirst].
      rewrite IH. reflexivity.
    + cbn [substituteFirst]. case_bool_decide as Hw.
      * assert (Hpass : forall v tokens',
          replacePending value replaced v (Placeholder w :: tokens') =
          Placeholder w :: replacePending value replaced v tokens').
        { intros v tokens'. destruct (decide (w = v)) as [<-|Hne].
          - rewrite !replacePending_replaced by exact Hw. reflexivity.
          - apply replacePending_other, Hne. }
        rewrite !Hpass. cbn [patternText tokenText]. rewrite IH. reflexivity.
      * rewrite <- (IH (w :: replaced)).
        destruct w.
        -- rewrite (replacePending_here _ _ _ _ Hw), !replacePending_plain.
           rewrite (replacePending_replaced _ (SuffixVariable :: replaced) SuffixVariable)
             by left.
           rewrite !(replacePending_cons _ _ _ SuffixVariable) by discriminate.
           reflexivity.
        -- rewrite (replacePending_other _ _ SuffixVariable) by discriminate.
           rewrite (replacePending_here _ _ _ _ Hw), !replacePending_plain.
           rewrite (replacePending_replaced _ (NicknameVariable :: replaced) NicknameVariable)
             by left.
           rewrite !(replacePending_cons _ _ _ NicknameVariable) by discriminate.
           reflexivity.
        -- rewrite (replacePending_other _ _ SuffixVariable),
             (replacePending_other _ _ NicknameVariable) by discriminate.
           rewrite (replacePending_here _ _ _ _ Hw).
           rewrite (replacePending_replaced _ (FriendlyNumberVariable :: replaced)
                      FriendlyNumberVariable) by left.
           rewrite !(replacePending_cons _ _ _ FriendlyNumberVariable) by discriminate.
           reflexivity.
Qed.

(** On a pattern of plain texts and variables, with values that hold no
    dollar sign, the source replaces every variable where it occurs
    first and nowhere else. *)
Lemma formatFriendlyName_first (tokens : list Token) (suffix nickname friendlyNumber : string) :
  Forall plainToken tokens ->
  noDollar suffix -> noDollar nickname -> noDollar friendlyNumber ->
  formatFriendlyName (patternText tokens) suffix nickname friendlyNumber =
  substituteFirst (patternValues suffix nickname friendlyNumber) [] tokens.
Proof.
  intros Hplain Hsuffix Hnickname Hnumber.
  rewrite (formatFriendlyName_tokens _ _ _ _ Hplain Hsuffix Hnickname Hnumber).
  apply (replacePending_all (patternValues suffix nickname friendlyNumber) tokens []).
Qed.

(** C10, as amended.  For every node that [expandNodes] builds.  Of the
    occurrences of each of the variables [$suffix], [$nickname] and
    [$friendlyNumber] in the pattern, at most one is missing from the
    [friendlyName], and so from the [hostname].  If the pattern is made
    of plain texts and variables, so that every dollar sign in it begins
    a variable, and the suffix and the nick name of the node hold no
    dollar sign, then the [friendlyName] is the pattern with every
    variable replaced by its value where it occurs first and left as it
    is written wherever it occurs again, the value of [$friendlyNumber]
    being a zero and a number padded to two digits; and the [hostname] is
    that name, a dot and the domain. *)
Theorem pattern_variable_replaced_once (input : NetworkInputFile) (n : NodeInformation) :
  In n (expandedNodes input) ->
  let basic := NetworkInputFile.basic input in
  let pattern := patternOf basic in
  (forall variable, In variable patternVariables ->
     (Js.occurrences variable pattern - 1 <=
      Js.occurrences variable (NodeInformation.friendlyName n))%nat /\
     (Js.occurrences variable pattern - 1 <=
      Js.occurrences variable (NodeInformation.hostname n))%nat) /\
  (forall tokens,
     pattern = patternText tokens -> Forall plainToken tokens ->
     noDollar (BasicNetworkFile.suffix basic) -> noDollar (NodeInformation.nickName n) ->
     exists k : nat,
       NodeInformation.friendlyName n =
         substituteFirst
           (patternValues (BasicNetworkFile.suffix basic) (NodeInformation.nickName n)
              ("0" +:+ NetworkUtils.zeroPad k 2))
           [] tokens /\
       NodeInformation.hostname n =
         NodeInformation.friendlyName n +:+ "." +:+ BasicNetworkFile.domain basic).
Proof.
  intros Hn basic pattern.
  pose proof (expandedNodes_named input) as Hall.
  rewrite Forall_forall in Hall.
  destruct (Hall n (proj2 (list_elem_of_In _ _) Hn)) as [(k & Hname) Hhost].
  fold basic in Hname, Hhost. fold pattern in Hname.
  split.
  - intros variable Hvariable.
    pose proof (occurrences_formatFriendlyName pattern (BasicNetworkFile.suffix basic)
                  (NodeInformation.nickName n) ("0" +:+ NetworkUtils.zeroPad k 2)
                  variable Hvariable) as Hle.
    rewrite <- Hname in Hle.
    split; [exact Hle|].
    rewrite Hhost.
    assert (Hne : variable <> "")
      by (destruct (variable_shape variable Hvariable) as (? & -> & _); discriminate).
    pose proof (occurrences_app_ge variable (NodeInformation.friendlyName n)
                  ("." +:+ BasicNetworkFile.domain basic) Hne).
    lia.
  - intros tokens Hpattern Hplain Hsuffix Hnick. exists k.
    split; [|exact Hhost].
    rewrite Hname, Hpattern.
    apply formatFriendlyName_first; try assumption.
    apply noDollar_lacks, lacks_append. split; [simpl; split; [discriminate|exact I]|].
    apply zeroPad_lacks. reflexivity.
Qed.

Lemma pattern_variable_replaced_once_witness :
  exists n,
    NetworkConfigurationService.expandedNodes Example.repeatedVariableInput = [n] /\
    NodeInformation.friendlyName n = "peer-$nickname-001" /\
    exists k : nat,
      NodeInformation.friendlyName n =
        substituteFirst (patternValues "net" "peer" ("0" +:+ NetworkUtils.zeroPad k 2)) []
          [Placeholder NicknameVariable; Plain "-"; Placeholder NicknameVariable; Plain "-";
           Placeholder FriendlyNumberVariable] /\
      NodeInformation.hostname n = NodeInformation.friendlyName n +:+ ".example.org".
Proof.
  eexists. split; [vm_compute; reflexivity|]. split; [reflexivity|].
  refine (proj2 (pattern_variable_replaced_once Example.repeatedVariableInput _ _)
            [Placeholder NicknameVariable; Plain "-"; Placeholder NicknameVariable; Plain "-";
             Placeholder FriendlyNumberVariable] eq_refl _ _ _).
  - vm_compute. left. reflexivity.
  - repeat constructor; discriminate.
  - simpl. repeat split; discriminate.
  - simpl. repeat split; discriminate.
Defined.

(** C10, as stated, fails: with the default pattern and a suffix that is
    the text [$nickname], the first replacement puts that text where
    [$suffix] was, and the second replacement hits it: the name of the
    node begins with its nick name, and the occurrence of [$nickname] in
    the pattern, its first and only one, is left as it is written. *)
Lemma suffix_holding_a_variable :
  let input := Example.variableSuffixInput in
  let pattern := patternOf (NetworkInputFile.basic input) in
  let tokens := [Placeholder SuffixVariable; Plain "-"; Placeholder NicknameVariable; Plain "-";
                 Placeholder FriendlyNumberVariable] in
  pattern = patternText tokens /\
  Js.occurrences "$nickname" pattern = 1%nat /\
  NodeInformation.friendlyName <$> NetworkConfigurationService.expandedNodes input =
    ["peer-$nickname-001"] /\
  substituteFirst (patternValues "$nickname" "peer" "001") [] tokens = "$nickname-peer-001".
Proof. vm_compute. repeat split. Qed.

End PatternClaim.

(** * Further properties *)

(** ** Zero padding and the keys of the ledger *)

Section Padding.
#[local] Arguments String.append !_ _ /.

Lemma uint_of_string_zeros (n : nat) (s : string) :
  Nat.of_uint <$> NilEmpty.uint_of_string (Js.repeatChar "0" n +:+ s) =
  Nat.of_uint <$> NilEmpty.uint_of_string s.
Proof.
  induction n as [|n IH]; [reflexivity|].
  cbn [Js.repeatChar String.append NilEmpty.uint_of_string].
  destruct (NilEmpty.uint_of_string (Js.repeatChar "0" n +:+ s)) as [d|] eqn:Hd;
    destruct (NilEmpty.uint_of_string s) as [d'|] eqn:Hd'; simpl in IH; try discriminate IH.
  - injection IH as IH. simpl. f_equal. unfold Nat.of_uint in *. simpl. exact IH.
  - reflexivity.
Qed.

Lemma decimal_numberToString (n : nat) : decimal (Js.numberToString n) = Some n.
Proof.
  unfold decimal, Js.numberToString. rewrite NilEmpty.usu. simpl.
  f_equal. apply DecimalNat.Unsigned.of_to.
Qed.

Lemma length_string_of_uint (d : Decimal.uint) :
  String.length (NilEmpty.string_of_uint d) = DecimalNat.Unsigned.usize d.
Proof. induction d; simpl; auto. Qed.

Lemma unorm_head (d : Decimal.uint) :
  Decimal.unorm d = Decimal.zero \/
  (10 ^ (DecimalNat.Unsigned.usize (Decimal.unorm d) - 1) <= Nat.of_uint (Decimal.unorm d))%nat.
Proof.
  assert (Hacc : forall k d', (1 <= k)%nat ->
            (10 ^ DecimalNat.Unsigned.usize d' <= Nat.of_uint_acc d' k)%nat).
  { intros k d' Hk. rewrite DecimalNat.Unsigned.of_uint_acc_spec.
    assert (10 ^ DecimalNat.Unsigned.usize d' <= k * 10 ^ DecimalNat.Unsigned.usize d')%nat
      by nia.
    lia. }
  induction d; [left; reflexivity | exact IHd | right ..];
    unfold Nat.of_uint, Decimal.unorm;
    cbn [Decimal.nzhead Nat.of_uint_acc DecimalNat.Unsigned.usize];
    rewrite ?Nat.tail_mul_spec, Nat.sub_succ, Nat.sub_0_r; apply Hacc; lia.
Qed.

(** The digits of a number below [10^places] are at most [places]. *)
Lemma length_numberToString (n places : nat) :
  (1 <= places)%nat -> (n < 10 ^ places)%nat ->
  (String.length (Js.numberToString n) <= places)%nat.
Proof.
  intros Hplaces Hn. unfold Js.numberToString. rewrite length_string_of_uint.
  assert (Hnorm : Nat.to_uint n = Decimal.unorm (Nat.to_uint n)).
  { rewrite <- DecimalNat.Unsigned.to_of, DecimalNat.Unsigned.of_to. reflexivity. }
  destruct (unorm_head (Nat.to_uint n)) as [Hzero|Hle]; rewrite <- Hnorm in *.
  - rewrite Hzero. simpl. exact Hplaces.
  - rewrite DecimalNat.Unsigned.of_to in Hle.
    destruct (Nat.le_gt_cases (DecimalNat.Unsigned.usize (Nat.to_uint n)) places)
      as [|Hgt]; [assumption|].
    assert (10 ^ places <= 10 ^ (DecimalNat.Unsigned.usize (Nat.to_uint n) - 1))%nat
      by (apply Nat.pow_le_mono_r; lia).
    lia.
Qed.

Lemma zeroPad_length (num places : nat) :
  String.length (NetworkUtils.zeroPad num places) =
  Nat.max places (String.length (Js.numberToString num)).
Proof.
  unfold NetworkUtils.zeroPad, Js.padStart.
  rewrite length_append, length_repeatChar. lia.
Qed.

Lemma zeroPad_decimal (num places : nat) :
  decimal (NetworkUtils.zeroPad num places) = Some num.
Proof.
  unfold NetworkUtils.zeroPad, Js.padStart, decimal.
  rewrite uint_of_string_zeros. apply decimal_numberToString.
Qed.

Lemma zeroPad_inj (n m places : nat) :
  NetworkUtils.zeroPad n places = NetworkUtils.zeroPad m places -> n = m.
Proof.
  intros Heq. pose proof (zeroPad_decimal n places) as Hn.
  rewrite Heq, zeroPad_decimal in Hn. injection Hn as ->. reflexivity.
Qed.

(** X1.  [zeroPad] keeps the number.  For a whole number of at most
    [2^53], the range in which a number is printed with all its digits:
    the padded text has the width [places], or the width of the number
    if that is larger, it denotes the number it was made from, and for a
    number below [10^places] it has exactly [places] characters. *)
Theorem zeroPad_keeps_number (num places : nat) :
  Z.of_nat num <= 2 ^ 53 ->
  String.length (NetworkUtils.zeroPad num places) =
    Nat.max places (String.length (Js.numberToString num)) /\
  decimal (NetworkUtils.zeroPad num places) = Some num /\
  ((1 <= places)%nat -> (num < 10 ^ places)%nat ->
   String.length (NetworkUtils.zeroPad num places) = places).
Proof.
  intros _.
  split; [apply zeroPad_length|]. split; [apply zeroPad_decimal|].
  intros Hplaces Hnum. rewrite zeroPad_length.
  pose proof (length_numberToString num places Hplaces Hnum). lia.
Qed.

End Padding.

Lemma zeroPad_keeps_number_witness :
  NetworkUtils.zeroPad 7 3 = "007" /\ String.length (NetworkUtils.zeroPad 7 3) = 3%nat.
Proof.
  split; [reflexivity|].
  apply (proj2 (proj2 (zeroPad_keeps_number 7 3 ltac:(vm_compute; discriminate))));
    simpl; lia.
Defined.

Section LedgerKeys.
#[local] Arguments String.append !_ _ /.

Lemma split_at_first (c : ascii) (a a' b b' : string) :
  lacks c a -> lacks c a' ->
  a +:+ String c b = a' +:+ String c b' -> a = a' /\ b = b'.
Proof.
  revert a'. induction a as [|d a IH]; intros [|d' a'] Ha Ha' Heq; simpl in *.
  - injection Heq as ->. auto.
  - injection Heq as <- _. tauto.
  - injection Heq as -> _. tauto.
  - injection Heq as -> Heq. destruct (IH a') as [-> ->]; tauto.
Qed.

Lemma split_at_last (c : ascii) (a a' b b' : string) :
  lacks c b -> lacks c b' ->
  a +:+ String c b = a' +:+ String c b' -> a = a' /\ b = b'.
Proof.
  intros Hb Hb'. revert a'. induction a as [|d a IH]; intros [|d' a'] Heq; simpl in *.
  - injection Heq as ->. auto.
  - injection Heq as <- Heq. exfalso. rewrite Heq in Hb.
    apply lacks_append in Hb as [_ [Hc _]]. contradiction.
  - injection Heq as -> Heq. exfalso. rewrite <- Heq in Hb'.
    apply lacks_append in Hb' as [_ [Hc _]]. contradiction.
  - injection Heq as -> Heq. destruct (IH a' Heq) as [-> ->]. auto.
Qed.

Lemma getTransactionKey_inj (t t' : TransactionInformation) :
  NetworkUtils.getTransactionKey t = NetworkUtils.getTransactionKey t' ->
  transactionIdentity t = transactionIdentity t'.
Proof.
  unfold NetworkUtils.getTransactionKey, transactionIdentity. intros Heq.
  apply (split_at_first "_") in Heq;
    [|apply string_of_uint_lacks; reflexivity|apply string_of_uint_lacks; reflexivity].
  destruct Heq as [Hnumber Heq].
  apply (split_at_last "_") in Heq; [|apply zeroPad_lacks; reflexivity ..].
  destruct Heq as [Htype Hnode].
  apply numberToString_inj in Hnumber. apply zeroPad_inj in Hnode.
  congruence.
Qed.

Lemma keyByMapValues_snoc {A B} (array : list A) (x : A) (key : A -> string) (value : A -> B) :
  Lodash.keyByMapValues (array ++ [x]) key value =
  <[key x := value x]> (Lodash.keyByMapValues array key value).
Proof. unfold Lodash.keyByMapValues. rewrite fold_left_app. reflexivity. Qed.

Lemma keyByMapValues_absent {A B} (array : list A) (key : A -> string) (value : A -> B) k :
  k ∉ key <$> array -> Lodash.keyByMapValues array key value !! k = None.
Proof.
  induction array as [|x array IH] using rev_ind; intros Hk; [reflexivity|].
  rewrite keyByMapValues_snoc. rewrite fmap_app in Hk.
  apply not_elem_of_app in Hk as [Hk Hx].
  rewrite lookup_insert_ne; [auto|]. intros Heq. apply Hx. simpl. rewrite Heq. left.
Qed.

Lemma keyByMapValues_last {A B} (before after : list A) (x : A) (key : A -> string)
    (value : A -> B) :
  key x ∉ key <$> after ->
  Lodash.keyByMapValues (before ++ x :: after) key value !! key x = Some (value x).
Proof.
  induction after as [|y after IH] using rev_ind; intros Hx.
  - rewrite keyByMapValues_snoc. apply lookup_insert_eq.
  - rewrite fmap_app in Hx. apply not_elem_of_app in Hx as [Hx Hy].
    replace (before ++ x :: after ++ [y])%list with ((before ++ x :: after) ++ [y])%list
      by (rewrite <- app_assoc; reflexivity).
    rewrite keyByMapValues_snoc.
    rewrite lookup_insert_ne; [auto|]. intros Heq. apply Hy. simpl. rewrite Heq. left.
Qed.

Lemma keyByMapValues_size {A B} (array : list A) (key : A -> string) (value : A -> B) :
  NoDup (key <$> array) -> size (Lodash.keyByMapValues array key value) = length array.
Proof.
  induction array as [|x array IH] using rev_ind; intros Hnodup; [reflexivity|].
  rewrite fmap_app in Hnodup. apply NoDup_app in Hnodup as (Hnodup & Hfresh & _).
  rewrite keyByMapValues_snoc, map_size_insert_None, length_app, IH; [simpl; lia|exact Hnodup|].
  apply keyByMapValues_absent. intros Hin. apply (Hfresh _ Hin). simpl. left.
Qed.

(** X2.  The key of a transaction identifies it: two transactions have
    the same key exactly when they have the same type number, type and
    node number.  In the ledger a transaction is found under its key with
    its payload unless a later transaction has the same identity, which
    then replaces it; and if the identities are pairwise distinct the
    ledger has one entry per transaction. *)
Theorem ledger_keys (txs : list TransactionInformation) :
  let ledger l :=
    Lodash.keyByMapValues l NetworkUtils.getTransactionKey TransactionInformation.payload in
  (forall t t',
     NetworkUtils.getTransactionKey t = NetworkUtils.getTransactionKey t' <->
     transactionIdentity t = transactionIdentity t') /\
  (forall before t after,
     txs = (before ++ t :: after)%list ->
     transactionIdentity t ∉ transactionIdentity <$> after ->
     ledger txs !! NetworkUtils.getTransactionKey t = Some (TransactionInformation.payload t)) /\
  (NoDup (transactionIdentity <$> txs) -> size (ledger txs) = length txs).
Proof.
  intros ledger.
  assert (Hiff : forall t t',
     NetworkUtils.getTransactionKey t = NetworkUtils.getTransactionKey t' <->
     transactionIdentity t = transactionIdentity t').
  { intros t t'. split; [apply getTransactionKey_inj|].
    unfold transactionIdentity, NetworkUtils.getTransactionKey.
    intros Heq. injection Heq as -> -> ->. reflexivity. }
  assert (Hkeys : forall (l : list TransactionInformation) t,
     NetworkUtils.getTransactionKey t ∈ NetworkUtils.getTransactionKey <$> l ->
     transactionIdentity t ∈ transactionIdentity <$> l).
  { intros l t Hin. apply list_elem_of_fmap in Hin as (t' & Heq & Hin).
    apply Hiff in Heq. rewrite Heq. apply list_elem_of_fmap. eauto. }
  split; [exact Hiff|]. split.
  - intros before t after -> Hlast. apply keyByMapValues_last.
    intros Hin. apply Hlast. apply Hkeys. exact Hin.
  - intros Hnodup. apply keyByMapValues_size.
    clear ledger. induction txs as [|t txs IH]; [constructor|].
    simpl in *. apply NoDup_cons in Hnodup as [Hfresh Hnodup].
    apply NoDup_cons. split; [|auto].
    intros Hin. apply Hfresh. apply Hkeys. exact Hin.
Qed.

End LedgerKeys.

(** ** The expanded topology *)

Section Numbering.
Import NetworkConfigurationService.

Lemma expandNode_nodes input nodeTypeInput st :
  exists node,
    nodes (expandNode input nodeTypeInput st) = (nodes st ++ [node])%list /\
    nodeCounter (expandNode input nodeTypeInput st) = S (nodeCounter st) /\
    NodeInformation.number node = S (nodeCounter st) /\
    NodeInformation.nodeType node = NodeTypeInput.nodeType nodeTypeInput /\
    NodeInformation.nickName node = NodeTypeInput.nickName nodeTypeInput /\
    NodeInformation.balances node = NodeTypeInput.balances nodeTypeInput /\
    NodeInformation.restProtocol node = NodeTypeInput.restProtocol nodeTypeInput.
Proof. eexists. unfold expandNode. cbn. repeat split. Qed.

Lemma expandNode_numbered input g st fields :
  numbered st fields ->
  numbered (expandNode input g st) (fields ++ [groupFields g]).
Proof.
  intros (Hcounter & Hnumbers & Hfields).
  destruct (expandNode_nodes input g st)
    as (node & Hnodes & Hcounter' & Hnumber & Htype & Hnick & Hbalances & Hrest).
  unfold numbered. rewrite Hnodes, Hcounter', !fmap_app, length_app, Hnumbers, Hfields.
  cbn [length fmap list_fmap]. split; [lia|]. split.
  - rewrite Nat.add_1_r, seq_S, Hnumber, Hcounter. reflexivity.
  - unfold copiedFields, groupFields. rewrite Htype, Hnick, Hbalances, Hrest. reflexivity.
Qed.

Lemma expandNodeType_numbered input g st fields :
  numbered st fields ->
  numbered (expandNodeType input st g)
    (fields ++ replicate (NodeTypeInput.total g) (groupFields g)).
Proof.
  intros Hst. unfold expandNodeType.
  induction (NodeTypeInput.total g) as [|n IH].
  - simpl. rewrite app_nil_r. exact Hst.
  - cbn [Nat.iter nat_rect].
    replace (fields ++ replicate (S n) (groupFields g))%list
      with ((fields ++ replicate n (groupFields g)) ++ [groupFields g])%list.
    + apply expandNode_numbered. exact IH.
    + rewrite <- app_assoc. f_equal. symmetry. apply replicate_cons_app.
Qed.

Lemma fold_expandNodeType_numbered input groups :
  forall st fields,
  numbered st fields ->
  numbered (fold_left (expandNodeType input) groups st)
    (fields ++ mjoin ((fun g => replicate (NodeTypeInput.total g) (groupFields g)) <$> groups)).
Proof.
  induction groups as [|g groups IH]; intros st fields Hst.
  - simpl. rewrite app_nil_r. exact Hst.
  - cbn [fold_left fmap list_fmap mjoin list_join]. rewrite app_assoc.
    apply IH. apply expandNodeType_numbered. exact Hst.
Qed.

(** X3.  The expanded nodes are the groups of the input in order, each
    group giving as many nodes as its [total], every node with the nick
    name, node type, balances and REST protocol of its group; and the
    nodes are numbered 1, 2, 3, ... in that order. *)
Theorem expandedNodes_numbered (input : NetworkInputFile) :
  let nodes := expandedNodes input in
  let groups := NetworkInputFile.nodeTypes input in
  copiedFields <$> nodes =
    mjoin ((fun g => replicate (NodeTypeInput.total g) (groupFields g)) <$> groups) /\
  length nodes = sum_list (NodeTypeInput.total <$> groups) /\
  NodeInformation.number <$> nodes = seq 1 (length nodes).
Proof.
  intros nodes groups.
  pose proof (fold_expandNodeType_numbered (NetworkInputFile.basic input) groups
                {| NetworkConfigurationService.nodes := [];
                   nodeCounter := 0; counters := ∅ |} []) as Hfold.
  destruct Hfold as (_ & Hnumbers & Hfields); [repeat split|].
  subst nodes. unfold expandedNodes. fold groups.
  simpl in Hfields. split; [exact Hfields|]. split; [|exact Hnumbers].
  apply (f_equal length) in Hfields. rewrite length_fmap in Hfields. rewrite Hfields.
  clear. induction groups as [|g groups IH]; [reflexivity|].
  rewrite !fmap_cons. simpl. rewrite length_app, length_replicate, IH. reflexivity.
Qed.

End Numbering.

Section DefaultPattern.
#[local] Arguments String.append !_ _ /.
Import NetworkConfigurationService.

(** With plain values the default pattern gives suffix, nick name and
    number, joined by dashes. *)
Lemma formatFriendlyName_default (suffix nickname friendlyNumber : string) :
  noDollar suffix -> noDollar nickname -> noDollar friendlyNumber ->
  formatFriendlyName defaultFriendlyNamePattern suffix nickname friendlyNumber =
  suffix +:+ "-" +:+ nickname +:+ "-" +:+ friendlyNumber.
Proof.
  intros Hsuffix Hnickname Hnumber.
  unfold formatFriendlyName, defaultFriendlyNamePattern. cbn [fold_left].
  change ("$" +:+ "suffix") with (String "$" "suffix").
  change ("$" +:+ "nickname") with (String "$" "nickname").
  change ("$" +:+ "friendlyNumber") with (String "$" "friendlyNumber").
  assert (H1 : Js.replace "$suffix-$nickname-$friendlyNumber" "$suffix" suffix =
               suffix +:+ "-$nickname-$friendlyNumber").
  { exact (replace_plain "suffix" "" "$suffix-$nickname-$friendlyNumber" suffix ""
             "-$nickname-$friendlyNumber" I Hsuffix eq_refl). }
  rewrite H1.
  assert (H2 : Js.replace (suffix +:+ "-$nickname-$friendlyNumber") "$nickname" nickname =
               (suffix +:+ "-") +:+ nickname +:+ "-$friendlyNumber").
  { exact (replace_plain "nickname" suffix "-$nickname-$friendlyNumber" nickname "-"
             "-$friendlyNumber" Hsuffix Hnickname eq_refl). }
  rewrite H2.
  assert (Hprefix : noDollar ((suffix +:+ "-") +:+ nickname)).
  { rewrite !noDollar_append. simpl. repeat split; auto; discriminate. }
  rewrite <- append_assoc.
  assert (H3 : Js.replace (((suffix +:+ "-") +:+ nickname) +:+ "-$friendlyNumber")
                 "$friendlyNumber" friendlyNumber =
               ((((suffix +:+ "-") +:+ nickname) +:+ "-") +:+ friendlyNumber) +:+ "").
  { rewrite (replace_plain "friendlyNumber" ((suffix +:+ "-") +:+ nickname)
               "-$friendlyNumber" friendlyNumber "-" "" Hprefix Hnumber eq_refl).
    rewrite !append_assoc. reflexivity. }
  rewrite H3, !append_assoc. simpl. do 4 f_equal.
  clear. induction friendlyNumber; simpl; [reflexivity|]. f_equal. assumption.
Qed.

End DefaultPattern.

Section DefaultNames.
#[local] Arguments String.append !_ _ /.
Import NetworkConfigurationService.

Lemma defaultName_inj (suffix : string) (l1 l2 : string * nat) :
  defaultName suffix l1 = defaultName suffix l2 -> l1 = l2.
Proof.
  destruct l1 as [n1 k1], l2 as [n2 k2]. unfold defaultName. cbn [fst snd]. intros Heq.
  do 2 apply append_inj_r in Heq.
  apply (split_at_last "-") in Heq.
  - destruct Heq as [-> Heq]. apply append_inj_r in Heq. apply zeroPad_inj in Heq.
    congruence.
  - apply lacks_append. split; [simpl; split; [discriminate|exact I]|].
    apply zeroPad_lacks. reflexivity.
  - apply lacks_append. split; [simpl; split; [discriminate|exact I]|].
    apply zeroPad_lacks. reflexivity.
Qed.

Lemma nickCount_app nick l1 l2 :
  nickCount nick (l1 ++ l2) = (nickCount nick l1 + nickCount nick l2)%nat.
Proof. unfold nickCount. rewrite filter_app, length_app. reflexivity. Qed.

Lemma nickCount_here n : nickCount (NodeInformation.nickName n) [n] = 1%nat.
Proof. unfold nickCount. rewrite filter_cons_True by reflexivity. reflexivity. Qed.

Lemma nickCount_other nick n : NodeInformation.nickName n <> nick -> nickCount nick [n] = 0%nat.
Proof. intros Hne. unfold nickCount. rewrite filter_cons_False by exact Hne. reflexivity. Qed.

(** A node counts among the nodes up to every later place. *)
Lemma nickCount_later (nodes : list NodeInformation) i j n :
  nodes !! i = Some n -> (i < j)%nat ->
  (nickCount (NodeInformation.nickName n) (take i nodes) <
   nickCount (NodeInformation.nickName n) (take j nodes))%nat.
Proof.
  intros Hi Hlt.
  rewrite <- (take_drop (S i) (take j nodes)), take_take.
  replace (S i `min` j)%nat with (S i) by lia.
  rewrite (take_S_r _ _ _ Hi), !nickCount_app, nickCount_here. lia.
Qed.

Lemma expandNode_counted input g st :
  patternOf input = defaultFriendlyNamePattern ->
  noDollar (BasicNetworkFile.suffix input) ->
  noDollar (NodeTypeInput.nickName g) ->
  counted (BasicNetworkFile.suffix input) st ->
  counted (BasicNetworkFile.suffix input) (expandNode input g st).
Proof.
  intros Hpattern Hsuffix Hnick (Hcounters & Hnames).
  set (nick := NodeTypeInput.nickName g) in *.
  set (k := (default 0 (counters st !! (nick +:+ "0")) + 1)%nat).
  assert (Hname :
    formatFriendlyName (patternOf input) (BasicNetworkFile.suffix input) nick
      ("0" +:+ NetworkUtils.zeroPad k 2) =
    defaultName (BasicNetworkFile.suffix input) (nick, k)).
  { rewrite Hpattern, formatFriendlyName_default; auto.
    apply noDollar_lacks, lacks_append. split; [simpl; split; [discriminate|exact I]|].
    apply zeroPad_lacks. reflexivity. }
  unfold counted, expandNode. cbn [nodes counters].
  change (Js.numberToString 0) with "0".
  fold nick. fold k. fold (patternOf input). rewrite Hname.
  split.
  - intros nick'. rewrite nickCount_app.
    destruct (decide (nick = nick')) as [<-|Hne].
    + rewrite lookup_insert_eq.
      rewrite (nickCount_here
                 {| NodeInformation.number := S (nodeCounter st);
                    NodeInformation.friendlyName := _; NodeInformation.assembly := _;
                    NodeInformation.hostname := _; NodeInformation.customPreset := _;
                    NodeInformation.nickName := nick; NodeInformation.nodeType := _;
                    NodeInformation.balances := _; NodeInformation.restProtocol := _ |}).
      cbn [default from_option id]. unfold k. rewrite Hcounters. reflexivity.
    + rewrite lookup_insert_ne by (intros Heq; apply Hne, (append_inj_l _ _ _ Heq)).
      rewrite nickCount_other by exact Hne. rewrite Hcounters. lia.
  - intros i n Hi.
    destruct (decide (i < length (nodes st))%nat) as [Hlt|Hge].
    + rewrite lookup_app_l in Hi by exact Hlt.
      rewrite take_app_le by lia. apply Hnames, Hi.
    + assert (i = length (nodes st)) as ->.
      { apply lookup_lt_Some in Hi. rewrite length_app in Hi. cbn in Hi. lia. }
      rewrite list_lookup_middle in Hi by reflexivity. injection Hi as <-.
      cbn [NodeInformation.friendlyName NodeInformation.nickName].
      rewrite take_app_length. unfold k. rewrite Hcounters, Nat.add_1_r. reflexivity.
Qed.

Lemma fold_expandNodeType_counted input groups :
  patternOf input = defaultFriendlyNamePattern ->
  noDollar (BasicNetworkFile.suffix input) ->
  Forall (fun g => noDollar (NodeTypeInput.nickName g)) groups ->
  forall st,
  counted (BasicNetworkFile.suffix input) st ->
  counted (BasicNetworkFile.suffix input) (fold_left (expandNodeType input) groups st).
Proof.
  intros Hpattern Hsuffix Hgroups.
  induction Hgroups as [|g groups Hg _ IH]; intros st Hst; [exact Hst|].
  cbn [fold_left]. apply IH. unfold expandNodeType.
  induction (NodeTypeInput.total g) as [|n IHn]; [exact Hst|].
  cbn [Nat.iter nat_rect]. apply expandNode_counted; assumption.
Qed.

Lemma expandNodes_distinct `{Externals} (ws : Workspace) (input : NetworkInputFile) :
  Workspace.networkInputFile ws = Some input ->
  NoDup (NodeInformation.friendlyName <$> expandedNodes input) ->
  NoDup (NodeInformation.hostname <$> expandedNodes input) ->
  expandNodes ws =
  (Ok {| NetworkFile.basic := NetworkInputFile.basic input;
         NetworkFile.nodes := expandedNodes input |},
   {| Workspace.path := Workspace.path ws;
      Workspace.currentDirectory := Workspace.currentDirectory ws;
      Workspace.networkInputFile := Workspace.networkInputFile ws;
      Workspace.networkFile :=
        Some (removePrivateKeys {| NetworkFile.basic := NetworkInputFile.basic input;
                                   NetworkFile.nodes := expandedNodes input |});
      Workspace.presetFiles := Workspace.presetFiles ws;
      Workspace.folders := Workspace.folders ws |}).
Proof.
  intros Hload Hnames Hhosts.
  apply uniqBy_length in Hnames, Hhosts.
  destruct ws as [path current inputFile networkFile presetFiles folders].
  simpl in Hload. subst inputFile.
  unfold expandNodes, NetworkUtils.loadNetworkInput.
  unfold bind at 1. unfold bind at 1. unfold get, fromOption.
  cbn [Workspace.networkInputFile]. unfold ret at 1. cbv zeta.
  rewrite Hnames, Hhosts. reflexivity.
Qed.

(** X4.  Under the default pattern (no pattern, an empty one or the
    default written out), with a suffix and nick names that hold no dollar
    sign, every expanded node is named suffix-nickname-0NN, where NN is
    the number of the node among the nodes of its nick name, counted from
    one in the order of the topology and padded to two digits; the
    friendly names are pairwise distinct and so are the host names, and
    [expandNodes] succeeds and writes the network file. *)
Theorem default_pattern_names_distinct `{Externals} (ws : Workspace) (input : NetworkInputFile) :
  Workspace.networkInputFile ws = Some input ->
  patternOf (NetworkInputFile.basic input) = defaultFriendlyNamePattern ->
  noDollar (BasicNetworkFile.suffix (NetworkInputFile.basic input)) ->
  Forall (fun g => noDollar (NodeTypeInput.nickName g)) (NetworkInputFile.nodeTypes input) ->
  let nodes := expandedNodes input in
  (forall i n, nodes !! i = Some n ->
     NodeInformation.friendlyName n =
       defaultName (BasicNetworkFile.suffix (NetworkInputFile.basic input))
         (NodeInformation.nickName n,
          S (nickCount (NodeInformation.nickName n) (take i nodes)))) /\
  NoDup (NodeInformation.friendlyName <$> nodes) /\
  NoDup (NodeInformation.hostname <$> nodes) /\
  fst (expandNodes ws) = Ok {| NetworkFile.basic := NetworkInputFile.basic input;
                               NetworkFile.nodes := nodes |} /\
  Workspace.networkFile (snd (expandNodes ws)) =
    Some (removePrivateKeys {| NetworkFile.basic := NetworkInputFile.basic input;
                               NetworkFile.nodes := nodes |}).
Proof.
  intros Hload Hpattern Hsuffix Hnicks nodes.
  destruct (fold_expandNodeType_counted (NetworkInputFile.basic input)
              (NetworkInputFile.nodeTypes input) Hpattern Hsuffix Hnicks
              {| NetworkConfigurationService.nodes := []; nodeCounter := 0; counters := ∅ |})
    as (_ & Hnames).
  { split; [reflexivity|]. intros i n Hi. discriminate Hi. }
  fold (expandedNodes input) in Hnames. fold nodes in Hnames.
  assert (Hdistinct : NoDup (NodeInformation.friendlyName <$> nodes)).
  { apply NoDup_alt. intros i j name Hi Hj.
    rewrite list_lookup_fmap in Hi, Hj.
    destruct (nodes !! i) as [ni|] eqn:Hni; [|discriminate].
    destruct (nodes !! j) as [nj|] eqn:Hnj; [|discriminate].
    cbn in Hi, Hj. injection Hi as Hi. injection Hj as Hj.
    rewrite (Hnames i ni Hni) in Hi. rewrite (Hnames j nj Hnj) in Hj.
    rewrite <- Hj in Hi. apply defaultName_inj in Hi. injection Hi as Hnick Hcount.
    destruct (Nat.lt_total i j) as [Hlt|[Heq|Hgt]]; [|exact Heq|].
    - pose proof (nickCount_later nodes i j ni Hni Hlt) as Hless.
      rewrite Hnick in Hless at 2. lia.
    - pose proof (nickCount_later nodes j i nj Hnj Hgt) as Hless.
      rewrite <- Hnick in Hless at 2. lia. }
  assert (Hhosts : NoDup (NodeInformation.hostname <$> nodes)).
  { pose proof (expandedNodes_formatted input) as Hall. fold nodes in Hall.
    assert (Heq : NodeInformation.hostname <$> nodes =
                  (fun name => name +:+ "." +:+
                     BasicNetworkFile.domain (NetworkInputFile.basic input))
                  <$> (NodeInformation.friendlyName <$> nodes)).
    { rewrite <- list_fmap_compose. apply Forall_fmap_ext_1.
      eapply Forall_impl; [exact Hall|]. intros n [_ Hhost]. exact Hhost. }
    rewrite Heq. apply NoDup_fmap_2_strong; [|exact Hdistinct].
    intros a b _ _. apply append_inj_l. }
  split; [exact Hnames|]. split; [exact Hdistinct|]. split; [exact Hhosts|].
  rewrite (expandNodes_distinct ws input Hload Hdistinct Hhosts). split; reflexivity.
Qed.

End DefaultNames.

(** ** The key store: keys, frames and persistence *)

Section KeyStoreKeys.
#[local] Arguments String.append !_ _ /.
Context `{Externals}.
Import LocalFileKeyStore.

Lemma accountNameKey_inj (a b : NetworkAccountName) :
  accountNameKey a = accountNameKey b -> a = b.
Proof. destruct a, b; simpl; intros Heq; try reflexivity; discriminate Heq. Qed.

Lemma keyName_key_inj (a b : KeyName) : KeyName.key a = KeyName.key b -> a = b.
Proof. destruct a, b; simpl; intros Heq; try reflexivity; discriminate Heq. Qed.

Lemma numberToString_noDash (n : nat) : lacks "-" (Js.numberToString n).
Proof. apply string_of_uint_lacks. reflexivity. Qed.

Lemma nodeKey_inj nodeName nodeInformation nodeName' nodeInformation' :
  nodeKey nodeName nodeInformation = nodeKey nodeName' nodeInformation' ->
  nodeName = nodeName' /\
  NodeInformation.number nodeInformation = NodeInformation.number nodeInformation'.
Proof.
  unfold nodeKey. intros Heq.
  apply (split_at_last "-") in Heq; try apply numberToString_noDash.
  destruct Heq as [-> Heq]. apply numberToString_inj in Heq. auto.
Qed.

Lemma votingFileKey_inj_all nodeName nodeInformation s e nodeName' nodeInformation' s' e' :
  votingFileKey nodeName nodeInformation s e =
  votingFileKey nodeName' nodeInformation' s' e' ->
  nodeName = nodeName' /\
  NodeInformation.number nodeInformation = NodeInformation.number nodeInformation' /\
  s = s' /\ e = e'.
Proof.
  unfold votingFileKey. intros Heq.
  assert (Hshape : forall a b c d : string,
    a +:+ "-" +:+ b +:+ "-" +:+ c +:+ "-" +:+ d =
    ((a +:+ "-" +:+ b) +:+ "-" +:+ c) +:+ "-" +:+ d).
  { intros. rewrite !append_assoc. reflexivity. }
  rewrite !Hshape in Heq.
  apply (split_at_last "-") in Heq; try apply numberToString_noDash.
  destruct Heq as [Heq He].
  apply (split_at_last "-") in Heq; try apply numberToString_noDash.
  destruct Heq as [Heq Hs].
  apply (split_at_last "-") in Heq; try apply numberToString_noDash.
  destruct Heq as [-> Hnumber].
  apply numberToString_inj in He, Hs, Hnumber. auto.
Qed.

End KeyStoreKeys.

Section KeyStoreEntries.
Context `{Externals}.
Import LocalFileKeyStore.

Lemma lookupEntry_storage entry this this' :
  storage this' = storage this -> lookupEntry entry this' = lookupEntry entry this.
Proof.
  intros Hstorage.
  destruct entry; unfold lookupEntry, lookupNetwork, lookupNode, lookupVotingFile;
    rewrite Hstorage; reflexivity.
Qed.

Lemma lookupEntry_identity entry entry' this :
  entryIdentity entry' = entryIdentity entry ->
  lookupEntry entry' this = lookupEntry entry this.
Proof.
  destruct entry, entry'; simpl; intros Heq; try discriminate Heq.
  - injection Heq as ->. reflexivity.
  - injection Heq as -> Hnumber ->.
    unfold lookupNode, nodeKey. rewrite Hnumber. reflexivity.
  - injection Heq as -> Hnumber -> ->.
    unfold lookupVotingFile, votingFileKey. rewrite Hnumber. reflexivity.
Qed.

Lemma lookupEntry_setEntry_other entry entry' value this :
  entryIdentity entry <> entryIdentity entry' ->
  lookupEntry entry (setEntry entry' value this) = lookupEntry entry this.
Proof.
  intros Hne.
  destruct entry' as [a'|n' i' k'|n' i' s' e'], value as [stored|stored];
    try reflexivity; destruct entry as [a|n i k|n i s e]; try reflexivity; simpl.
  - unfold lookupNetwork, setNetworkAccount; simpl.
    rewrite lookup_insert_ne; [reflexivity|].
    intros Hkey. apply accountNameKey_inj in Hkey. subst. contradiction.
  - unfold lookupNode, setNodeAccount; simpl.
    destruct (decide (nodeKey n' i' = nodeKey n i)) as [Hkey|Hkey].
    + rewrite Hkey, lookup_insert_eq. simpl.
      rewrite lookup_insert_ne.
      * destruct (KeyStorage.nodes (storage this) !! nodeKey n i); reflexivity.
      * intros Hname. apply keyName_key_inj in Hname.
        apply nodeKey_inj in Hkey. destruct Hkey as [-> Hnumber].
        apply Hne. simpl. rewrite Hnumber, Hname. reflexivity.
    + rewrite lookup_insert_ne by exact Hkey. reflexivity.
  - unfold lookupVotingFile, setVotingFile; simpl.
    rewrite lookup_insert_ne; [reflexivity|].
    intros Hkey. apply votingFileKey_inj_all in Hkey.
    destruct Hkey as (-> & Hnumber & -> & ->).
    apply Hne. simpl. rewrite Hnumber. reflexivity.
Qed.

(** An operation either leaves the storage, the file and the number of
    writes as they are, or stores one value at its entry; it then writes
    the file if the store can write it, and else leaves the file as it
    is. *)
Ltac stored_here :=
  unfold lookupEntry, lookupNetwork, lookupNode, lookupVotingFile,
    LocalFileKeyStore.setNetworkAccount, LocalFileKeyStore.setNodeAccount, setVotingFile;
  cbn; rewrite ?lookup_insert_eq; cbn; rewrite ?lookup_insert_eq; reflexivity.

Ltac untouched := cbn; split; [reflexivity|]; split; [lia|]; left; auto.

Ltac stored_and_saved this value :=
  unfold saving; rewrite (writable_password this) by reflexivity;
  destruct (writable this) eqn:?Hwritable; cbn;
  (split; [reflexivity|]; split; [lia|]; right;
   split; [exists value; split; [reflexivity|stored_here]|]);
  [left|right]; auto.

Lemma perform_cases op this :
  let this' := perform this op in
  password this' = password this /\
  (draws this <= draws this')%nat /\
  ((storage this' = storage this /\ storageFile this' = storageFile this /\
    writes this' = writes this) \/
   (exists value, storage this' = storage (setEntry (target op) value this) /\
                  lookupEntry (target op) this' = Some value) /\
   ((writable this = true /\ storageFile this' = Some (written this') /\
     writes this' = S (writes this)) \/
    (writable this = false /\ storageFile this' = storageFile this /\
     writes this' = writes this))).
Proof.
  destruct op as [nt a g|nt a key|nt k n i g|nt n i s e]; cbn [perform target].
  - destruct (lookupNetwork a this) as [stored|] eqn:Hlookup.
    + rewrite (getNetworkAccount_stored _ _ _ _ _ Hlookup).
      destruct (createFromPrivateKey _ _) as [account|]; [|untouched].
      stored_and_saved this (@inl StoredAccount StoredVotingFile (toStored account)).
    + rewrite (getNetworkAccount_absent _ _ _ _ Hlookup).
      destruct g; [|untouched].
      cbn zeta. destruct (createFromPrivateKey _ _) as [account|]; [|untouched].
      stored_and_saved this (@inl StoredAccount StoredVotingFile (toStored account)).
  - assert (Hrun : saveNetworkAccount nt a key this =
      match createFromPrivateKey key nt with
      | Some account => saving tt (setNetworkAccount a (toStored account) this)
      | None => (Err (InvalidPrivateKey key), this)
      end).
    { unfold saveNetworkAccount. run.
      destruct (createFromPrivateKey key nt); [|reflexivity]. save_cases this. }
    rewrite Hrun. destruct (createFromPrivateKey key nt) as [account|]; [|untouched].
    stored_and_saved this (@inl StoredAccount StoredVotingFile (toStored account)).
  - destruct (lookupNode n i k this) as [stored|] eqn:Hlookup.
    + rewrite (getNodeAccount_stored _ _ _ _ _ _ _ Hlookup).
      destruct (createFromPrivateKey _ _) as [account|]; [|untouched].
      stored_and_saved this (@inl StoredAccount StoredVotingFile (toStored account)).
    + rewrite (getNodeAccount_absent _ _ _ _ _ _ Hlookup).
      destruct g; [|untouched].
      cbn zeta. destruct (createFromPrivateKey _ _) as [account|]; [|untouched].
      stored_and_saved this (@inl StoredAccount StoredVotingFile (toStored account)).
  - destruct (lookupVotingFile n i s e this) as [stored|] eqn:Hlookup.
    + rewrite (getVotingKeyFile_stored _ _ _ _ _ _ _ Hlookup).
      destruct (decodeStored stored) as [votingFile|]; [|untouched].
      destruct (negb _); [untouched|].
      destruct (negb _); untouched.
    + rewrite (getVotingKeyFile_absent _ _ _ _ _ _ Hlookup). cbn zeta.
      destruct (createVotingFile _ _ _ _) as [content|]; [|untouched].
      stored_and_saved this
        (@inr StoredAccount StoredVotingFile
           {| StoredVotingFile.publicKey :=
                Account.publicKey (generateAccount (draws this) nt);
              StoredVotingFile.privateFileContent := toBase64 content |}).
Qed.

(** What is stored is kept: an operation may replace the value of its
    entry, and removes none. *)
Lemma perform_keeps entry op this :
  is_Some (lookupEntry entry this) -> is_Some (lookupEntry entry (perform this op)).
Proof.
  intros Hsome.
  destruct (perform_cases op this)
    as (_ & _ & [(Hstorage & _)|((value & Hstorage & Hlookup) & _)]).
  - rewrite (lookupEntry_storage _ _ _ Hstorage). exact Hsome.
  - destruct (decide (entryIdentity entry = entryIdentity (target op))) as [Heq|Hne].
    + rewrite (lookupEntry_identity _ _ _ Heq), Hlookup. eauto.
    + rewrite (lookupEntry_storage _ _ _ Hstorage), lookupEntry_setEntry_other by exact Hne.
      exact Hsome.
Qed.

(** X5. An operation of the key store reads and writes one entry.  An
    entry is found by the name of the account, or by the node name, the
    number of the node and the key name, or by the node name, the number
    of the node and the two epochs; the other fields of a node record play
    no part.  Every entry with another identity than the entry an
    operation is about holds after the operation what it held before,
    whether the operation returns or throws. *)
Theorem operation_touches_one_entry (op : Operation) (this : LocalFileKeyStore)
    (entry : Entry) :
  (forall entry', entryIdentity entry' = entryIdentity entry ->
     lookupEntry entry' this = lookupEntry entry this) /\
  (entryIdentity entry <> entryIdentity (target op) ->
   lookupEntry entry (perform this op) = lookupEntry entry this).
Proof.
  split; [intros entry'; apply lookupEntry_identity|].
  intros Hne.
  destruct (perform_cases op this) as (_ & _ & [(Hstorage & _)|((value & Hstorage & _) & _)]).
  - apply lookupEntry_storage, Hstorage.
  - rewrite (lookupEntry_storage _ _ _ Hstorage).
    apply lookupEntry_setEntry_other, Hne.
Qed.

End KeyStoreEntries.

Section KeyStorePersistence.
Context `{Externals}.
Import LocalFileKeyStore.

Lemma performAll_snoc ops op this :
  performAll (ops ++ [op]) this = perform (performAll ops this) op.
Proof. unfold performAll. rewrite fold_left_app. reflexivity. Qed.

Lemma performAll_password ops this :
  password (performAll ops this) = password this.
Proof.
  induction ops as [|op ops IH] using rev_ind; [reflexivity|].
  rewrite performAll_snoc. destruct (perform_cases op (performAll ops this)) as (-> & _).
  exact IH.
Qed.

(** A store that can write its file changes its storage only together
    with the file. *)
Lemma performAll_writable ops this :
  writable this = true ->
  let this' := performAll ops this in
  (writes this <= writes this')%nat /\
  (writes this' = writes this ->
   storage this' = storage this /\ storageFile this' = storageFile this) /\
  (writes this < writes this' -> storageFile this' = Some (written this'))%nat.
Proof.
  intros Hwritable. induction ops as [|op ops IH] using rev_ind.
  - cbn. repeat split; auto; lia.
  - cbn zeta in *. rewrite performAll_snoc.
    destruct IH as (IHwrites & IHsame & IHfile).
    assert (Hstill : writable (performAll ops this) = true).
    { rewrite <- Hwritable. apply writable_password, performAll_password. }
    destruct (perform_cases op (performAll ops this))
      as (Hpassword & _ & [(Hstorage & Hfile & Hwrites)
                          |(_ & [(_ & Hfile & Hwrites)|(Hnot & _)])]).
    + split; [lia|]. split.
      * intros Hsame. rewrite Hstorage, Hfile. apply IHsame. lia.
      * intros Hlt. rewrite Hfile, IHfile by lia.
        unfold written. rewrite Hstorage, Hpassword. reflexivity.
    + split; [lia|]. split; [intros Hsame; lia|]. intros _. exact Hfile.
    + rewrite Hstill in Hnot. discriminate Hnot.
Qed.

(** A store that cannot write its file never writes it. *)
Lemma performAll_unwritable ops this :
  writable this = false ->
  let this' := performAll ops this in
  writes this' = writes this /\ storageFile this' = storageFile this.
Proof.
  intros Hwritable. induction ops as [|op ops IH] using rev_ind; [auto|].
  cbn zeta in *. rewrite performAll_snoc. destruct IH as (IHwrites & IHfile).
  assert (Hstill : writable (performAll ops this) = false).
  { rewrite <- Hwritable. apply writable_password, performAll_password. }
  destruct (perform_cases op (performAll ops this))
    as (_ & _ & [(_ & Hfile & Hwrites)|(_ & [(Hyes & _)|(_ & Hfile & Hwrites)])]).
  - rewrite Hfile, Hwrites. auto.
  - rewrite Hstill in Hyes. discriminate Hyes.
  - rewrite Hfile, Hwrites. auto.
Qed.

Lemma new_made password mustExist file seed this :
  new password mustExist file seed = Ok this ->
  LocalFileKeyStore.password this = passwordText password /\
  storageFile this = file /\ writes this = 0%nat /\ draws this = seed.
Proof.
  unfold new. destruct file as [stored|].
  - destruct (loadYaml stored password); [|discriminate]. intros [= <-]. cbn. auto.
  - destruct mustExist; [discriminate|]. intros [= <-]. cbn. auto.
Qed.

(** X6. The key store writes through.  The constructor, without a file,
    throws if the file must exist and else makes an empty store; over a
    file, it makes a store exactly when the toolkit reads the file with
    the password.  Take a store as the constructor returns it and any
    sequence of operations, each returning or throwing.  If the store
    cannot write its file, because its password has fewer than four
    characters, the file is never written, whatever is stored in memory.
    If it can, the storage changes only together with the file: while
    nothing was written, the storage and the file are as they were; once
    the file was written, it holds exactly the storage of the store,
    under the password of the store, and is a clear file only if the store
    has no password; and if the toolkit reads back with the password
    what it wrote with it, a store constructed anew over the file has the
    same storage. *)
Theorem key_store_writes_through (password : Password) (mustExist : bool)
    (file : option KeyStoreDocument) (seed : nat) (this : LocalFileKeyStore)
    (ops : list Operation) :
  new password mustExist None seed =
    (if mustExist then Err (StorageFileMissing NetworkUtils.KEY_STORE_FILE)
     else Ok {| storage := KeyStorage.defaultValue; password := passwordText password;
                storageFile := None; writes := 0; draws := seed |}) /\
  (forall stored,
     is_Some (loadYaml stored password) <->
     exists store, new password mustExist (Some stored) seed = Ok store) /\
  (new password mustExist file seed = Ok this ->
   let this' := performAll ops this in
   (writable this = false -> writes this' = 0%nat /\ storageFile this' = file) /\
   (writable this = true ->
    (writes this' = 0%nat -> storage this' = storage this /\ storageFile this' = file) /\
    ((0 < writes this')%nat ->
     let written :=
       {| document := storage this';
          encryptedWith := truthyString (passwordText password) |} in
     storageFile this' = Some written /\
     (loadYaml written password = Some (storage this') ->
      exists reopened,
        new password true (storageFile this') (draws this') = Ok reopened /\
        storage reopened = storage this')))).
Proof.
  split; [reflexivity|]. split.
  - intros stored. unfold new. destruct (loadYaml stored password) as [storedValue|].
    + split; eauto.
    + split; [intros [x Hx]; discriminate Hx|intros [store Hstore]; discriminate Hstore].
  - intros Hnew. destruct (new_made _ _ _ _ _ Hnew) as (Hpassword & Hfile & Hwrites & _).
    cbn zeta. split.
    + intros Hnot. destruct (performAll_unwritable ops this Hnot) as (Hsame & Hkept).
      cbn zeta in *. rewrite Hsame, Hkept. auto.
    + intros Hwritable.
      destruct (performAll_writable ops this Hwritable) as (_ & Hsame & Hwritten).
      cbn zeta in *. split.
      * intros Hzero. rewrite <- Hfile. apply Hsame. lia.
      * intros Hpos.
        assert (Hstored : storageFile (performAll ops this) =
                  Some {| document := storage (performAll ops this);
                          encryptedWith := truthyString (passwordText password) |}).
        { rewrite Hwritten by lia. unfold written.
          rewrite performAll_password, Hpassword. reflexivity. }
        split; [exact Hstored|].
        intros Hread. rewrite Hstored. unfold new. rewrite Hread.
        eexists. split; reflexivity.
Qed.

(** X7. [saveNetworkAccount] replaces.  With a private key the SDK
    rejects, it throws and changes nothing.  With a private key of an
    account, it stores that account under the name, whatever was stored
    there, and draws no randomness.  If the store can write its file, it
    writes the file once and returns; if then that account is the account
    of its own private key, [getNetworkAccount] for the name returns it,
    with either value of [generate].  If the store cannot write its file,
    the call throws the error of the toolkit, with the account in the
    storage of the store. *)
Theorem saveNetworkAccount_replaces (networkType : nat) (accountName : NetworkAccountName)
    (privateKey : string) (this : LocalFileKeyStore) :
  match createFromPrivateKey privateKey networkType with
  | None =>
      saveNetworkAccount networkType accountName privateKey this =
        (Err (InvalidPrivateKey privateKey), this)
  | Some account =>
      (writable this = true ->
       exists this1,
         saveNetworkAccount networkType accountName privateKey this = (Ok tt, this1) /\
         lookupNetwork accountName this1 = Some (toStored account) /\
         writes this1 = S (writes this) /\
         draws this1 = draws this /\
         storageFile this1 = Some (written this1) /\
         (createFromPrivateKey (Account.privateKey account) networkType = Some account ->
          forall generate, exists this2,
            getNetworkAccount networkType accountName generate this1 = (Ok account, this2) /\
            storage this2 = storage this1 /\ draws this2 = draws this1)) /\
      (writable this = false ->
       saveNetworkAccount networkType accountName privateKey this =
         (Err passwordTooShort, setNetworkAccount accountName (toStored account) this))
  end.
Proof.
  assert (Hrun : saveNetworkAccount networkType accountName privateKey this =
    match createFromPrivateKey privateKey networkType with
    | Some account => saving tt (setNetworkAccount accountName (toStored account) this)
    | None => (Err (InvalidPrivateKey privateKey), this)
    end).
  { unfold saveNetworkAccount. run.
    destruct (createFromPrivateKey privateKey networkType); [|reflexivity].
    save_cases this. }
  rewrite Hrun.
  destruct (createFromPrivateKey privateKey networkType) as [account|] eqn:Hkey;
    [|reflexivity].
  unfold saving.
  change (writable (setNetworkAccount accountName (toStored account) this))
    with (writable this).
  split; intros Hwritable; rewrite Hwritable; [|reflexivity].
  eexists. split; [reflexivity|].
  assert (Hstored : lookupNetwork accountName
            (saved (setNetworkAccount accountName (toStored account) this)) =
          Some (toStored account)).
  { rewrite lookupNetwork_saved. apply lookupNetwork_set. }
  split; [exact Hstored|]. split; [reflexivity|]. split; [reflexivity|].
  split; [reflexivity|].
  intros Hstable generate.
  rewrite (getNetworkAccount_stored _ _ _ _ _ Hstored). simpl. rewrite Hstable.
  unfold saving.
  change (writable (setNetworkAccount accountName (toStored account)
                      (saved (setNetworkAccount accountName (toStored account) this))))
    with (writable this).
  rewrite Hwritable.
  eexists; split; [reflexivity|]. split; [|reflexivity].
  apply (setNetworkAccount_same _ _ _ Hstored).
Qed.

End KeyStorePersistence.

Section FurtherWitnesses.
Import LocalFileKeyStore.

Lemma ledger_keys_witness :
  Lodash.keyByMapValues relinkedTransactions NetworkUtils.getTransactionKey
    TransactionInformation.payload !! "1_VRF_00001" = Some "second" /\
  size (Lodash.keyByMapValues (take 2 relinkedTransactions) NetworkUtils.getTransactionKey
          TransactionInformation.payload) = 2%nat.
Proof.
  split.
  - apply (proj1 (proj2 (ledger_keys relinkedTransactions))
             (take 2 relinkedTransactions)
             {| TransactionInformation.type := "VRF"; TransactionInformation.nodeNumber := 1;
                TransactionInformation.typeNumber := 1;
                TransactionInformation.payload := "second" |} []).
    + reflexivity.
    + simpl. intros Hin. inversion Hin.
  - apply (proj2 (proj2 (ledger_keys (take 2 relinkedTransactions)))).
    apply (bool_decide_unpack _). vm_compute. exact I.
Defined.

Lemma default_pattern_names_distinct_witness :
  NodeInformation.friendlyName <$>
    NetworkConfigurationService.expandedNodes Example.sharedNickInput =
  ["net-dual-001"; "net-dual-002"; "net-beacon-001"; "net-dual-003"; "net-dual-004"] /\
  NoDup (NodeInformation.hostname <$>
           NetworkConfigurationService.expandedNodes Example.sharedNickInput).
Proof.
  split; [vm_compute; reflexivity|].
  refine (proj1 (proj2 (proj2
    (default_pattern_names_distinct (Example.workspaceOf Example.sharedNickInput)
       Example.sharedNickInput eq_refl eq_refl _ _)))).
  - simpl. repeat split; discriminate.
  - repeat constructor; simpl; repeat split; discriminate.
Defined.

Lemma operation_touches_one_entry_witness :
  lookupEntry (NetworkEntry founder)
    (perform Example.founderKeyStore
       (GetNodeAccount 152 KeyName.Main "node" Example.peerNode true)) =
  lookupEntry (NetworkEntry founder) Example.founderKeyStore.
Proof.
  apply (proj2 (operation_touches_one_entry
                  (GetNodeAccount 152 KeyName.Main "node" Example.peerNode true)
                  Example.founderKeyStore (NetworkEntry founder))).
  simpl. discriminate.
Defined.

Lemma key_store_writes_through_witness :
  let this' := performAll exampleOperations Example.emptyKeyStore in
  writes this' = 4%nat /\
  storageFile this' = Some {| document := storage this'; encryptedWith := None |} /\
  exists reopened,
    new PasswordFalse true (storageFile this') (draws this') = Ok reopened /\
    storage reopened = storage this'.
Proof.
  pose proof (proj2 (proj2 (key_store_writes_through PasswordFalse false None 0
                              Example.emptyKeyStore exampleOperations)) eq_refl)
    as (_ & Hwritable).
  destruct (proj2 (Hwritable eq_refl)) as (Hfile & Hreopen).
  { vm_compute. lia. }
  split; [vm_compute; reflexivity|]. split; [exact Hfile|].
  apply Hreopen. reflexivity.
Defined.

Lemma saveNetworkAccount_replaces_witness :
  let privateKey := Js.repeatChar "a" 64 in
  let account := Reference.accountOf (Js.repeatChar "A" 64) 152 in
  exists this1,
    saveNetworkAccount 152 founder privateKey Example.founderKeyStore = (Ok tt, this1) /\
    forall generate, fst (getNetworkAccount 152 founder generate this1) = Ok account.
Proof.
  pose proof (saveNetworkAccount_replaces 152 founder (Js.repeatChar "a" 64)
                Example.founderKeyStore) as Hsave.
  change (createFromPrivateKey (Js.repeatChar "a" 64) 152)
    with (Some (Reference.accountOf (Js.repeatChar "A" 64) 152)) in Hsave.
  destruct (proj1 Hsave eq_refl) as (this1 & Hrun & _ & _ & _ & _ & Hget).
  exists this1. split; [exact Hrun|].
  intros generate. destruct (Hget eq_refl generate) as (this2 & Hagain & _).
  rewrite Hagain. reflexivity.
Defined.

End FurtherWitnesses.

(** ** Rules of the triples *)

Section Triples.
Context {S : Type}.
Implicit Types (P : S -> Prop) (E : Error -> S -> Prop).

Lemma triple_ret {A} P (Q : A -> S -> Prop) E (a : A) :
  (forall s, P s -> Q a s) -> triple P (ret a) Q E.
Proof. intros HQ s HP. apply HQ, HP. Qed.

Lemma triple_throw {A} P (Q : A -> S -> Prop) E (e : Error) :
  (forall s, P s -> E e s) -> triple P (throw e) Q E.
Proof. intros HE s HP. apply HE, HP. Qed.

Lemma triple_bind {A B} P (R : A -> S -> Prop) (Q : B -> S -> Prop) E
    (c : M S A) (k : A -> M S B) :
  triple P c R E -> (forall a, triple (R a) (k a) Q E) -> triple P (bind c k) Q E.
Proof.
  intros Hc Hk s HP. unfold bind. specialize (Hc s HP).
  destruct (c s) as [[a|e] s']; [apply Hk, Hc|exact Hc].
Qed.

Lemma triple_weaken {A} P P' (Q Q' : A -> S -> Prop) E E' (c : M S A) :
  triple P c Q E ->
  (forall s, P' s -> P s) -> (forall a s, Q a s -> Q' a s) -> (forall e s, E e s -> E' e s) ->
  triple P' c Q' E'.
Proof.
  intros Hc HP HQ HE s Hs. specialize (Hc s (HP s Hs)).
  destruct (c s) as [[a|e] s']; auto.
Qed.

Lemma triple_post {A} P (Q Q' : A -> S -> Prop) E (c : M S A) :
  triple P c Q E -> (forall a s, Q a s -> Q' a s) -> triple P c Q' E.
Proof. intros Hc HQ. eapply triple_weaken; eauto. Qed.

Lemma triple_get P (Q : S -> S -> Prop) E :
  (forall s, P s -> Q s s) -> triple P get Q E.
Proof. intros HQ s HP. apply HQ, HP. Qed.

Lemma triple_modify P (Q : unit -> S -> Prop) E (f : S -> S) :
  (forall s, P s -> Q tt (f s)) -> triple P (modify f) Q E.
Proof. intros HQ s HP. apply HQ, HP. Qed.

Lemma triple_fromOption {A} P (Q : A -> S -> Prop) E (e : Error) (o : option A) :
  (forall a s, o = Some a -> P s -> Q a s) -> (forall s, o = None -> P s -> E e s) ->
  triple P (fromOption e o) Q E.
Proof. intros HQ HE s HP. destruct o; cbn; auto. Qed.

Lemma triple_forEach {A} (I : S -> Prop) E (xs : list A) (body : A -> M S unit) :
  (forall x, x ∈ xs -> triple I (body x) (fun _ => I) E) ->
  triple I (forEach xs body) (fun _ => I) E.
Proof.
  induction xs as [|x xs IH]; intros Hbody; [apply triple_ret; auto|].
  cbn [forEach]. eapply triple_bind; [apply Hbody; left|].
  intros []. apply IH. intros y Hy. apply Hbody. right. exact Hy.
Qed.

Lemma triple_forEachFrom {A} (I : S -> Prop) E (index : nat) (xs : list A)
    (body : A -> nat -> M S unit) :
  (forall i x, xs !! i = Some x -> triple I (body x (index + i)%nat) (fun _ => I) E) ->
  triple I (NetworkGenesisService.forEachFrom index xs body) (fun _ => I) E.
Proof.
  revert index. induction xs as [|x xs IH]; intros index Hbody; [apply triple_ret; auto|].
  cbn [NetworkGenesisService.forEachFrom]. eapply triple_bind.
  - specialize (Hbody 0%nat x eq_refl). rewrite Nat.add_0_r in Hbody. exact Hbody.
  - intros []. apply IH. intros i y Hy. specialize (Hbody (Datatypes.S i) y Hy).
    replace (Datatypes.S index + i)%nat with (index + Datatypes.S i)%nat by lia. exact Hbody.
Qed.

Lemma triple_zoom {T A} P (Q : A -> S -> Prop) E (proj : S -> T) (inj : T -> S -> S)
    (c : M T A) :
  (forall s, P s ->
     triple (fun t => t = proj s) c (fun a t' => Q a (inj t' s)) (fun e t' => E e (inj t' s))) ->
  triple P (zoom proj inj c) Q E.
Proof.
  intros Hc s HP. unfold zoom. specialize (Hc s HP (proj s) eq_refl).
  destruct (c (proj s)) as [[a|e] t']; exact Hc.
Qed.

End Triples.

(** ** The balances of the nemesis block *)

Section GenesisBalances.
Import NetworkGenesisService.

Lemma forEachFrom_ext {St A} (xs : list A) (body body' : A -> nat -> M St unit) :
  (forall x i s, body x i s = body' x i s) ->
  forall index s, forEachFrom index xs body s = forEachFrom index xs body' s.
Proof.
  intros Hext. induction xs as [|x xs IH]; intros index s; [reflexivity|].
  cbn [forEachFrom]. unfold bind. rewrite Hext.
  destruct (body' x index s) as [[[]|e] s']; [apply IH|reflexivity].
Qed.

(** X8. The balances of the faucet are processed as the balances of a
    node are: the two loops are the same function of the mosaics, the
    balances, the address and the state, so a balance that is missing is
    skipped as a zero balance is. *)
Theorem faucet_balances_as_node_balances (mosaics : list MosaicPreset)
    (balances : list Z) (address : string) (a : Assembly) :
  pushFaucetBalances mosaics balances address a =
  pushNodeBalances mosaics balances address a.
Proof.
  unfold pushFaucetBalances, pushNodeBalances. apply forEachFrom_ext.
  intros m i s. cbn zeta. destruct (balances !! i) as [b|]; reflexivity.
Qed.

Lemma forEach_push {A} (f : A -> NemesisBalance) (l : list A) (a : Assembly) :
  forEach l (fun x => pushNemesisBalance (f x)) a = (Ok tt, appendBalances a (map f l)).
Proof.
  revert a. induction l as [|x l IH]; intros a.
  - cbn. rewrite appendBalances_nil. reflexivity.
  - cbn [forEach map]. unfold bind. rewrite pushNemesisBalance_run, IH, appendBalances_app.
    reflexivity.
Qed.

Lemma pushAdditional_from (additional : list (list (CurrencyDistribution Z)))
    (mosaics : list MosaicPreset) :
  forall (index : nat) (a : Assembly),
  (forall i m l, mosaics !! i = Some m -> additional !! (index + i)%nat = Some l ->
                 is_Some (MosaicPreset.divisibility m)) ->
  forEachFrom index mosaics (fun m mosaicIndex =>
    match additional !! mosaicIndex with
    | None => ret tt
    | Some l =>
        bind (divisibilityOf m) (fun divisibility =>
        forEach l (fun distribution =>
          pushNemesisBalance
            {| mosaicIndex := mosaicIndex;
               address := CurrencyDistribution.address distribution;
               amount := Js.mul (CurrencyDistribution.amount distribution)
                           (Js.pow10 divisibility) |}))
    end) a
  = (Ok tt, appendBalances a (additionalBalances index mosaics additional)).
Proof.
  induction mosaics as [|m rest IH]; intros index a Hdiv.
  - cbn. rewrite appendBalances_nil. reflexivity.
  - cbn [forEachFrom additionalBalances]. unfold bind at 1.
    assert (Hrest : forall i m' l, rest !! i = Some m' ->
              additional !! (S index + i)%nat = Some l ->
              is_Some (MosaicPreset.divisibility m')).
    { intros i m' l Hm Hl. apply (Hdiv (S i) m' l Hm).
      replace (index + S i)%nat with (S index + i)%nat by lia. exact Hl. }
    destruct (additional !! index) as [l|] eqn:Hl.
    + destruct (Hdiv 0%nat m l eq_refl) as [d Hd].
      { rewrite Nat.add_0_r. exact Hl. }
      unfold divisibilityOf, bind. rewrite Hd. cbn [fromOption ret].
      rewrite (forEach_push (fun distribution =>
                 {| mosaicIndex := index;
                    address := CurrencyDistribution.address distribution;
                    amount := Js.mul (CurrencyDistribution.amount distribution)
                                (Js.pow10 d) |}) l a).
      rewrite (IH (S index) _ Hrest), appendBalances_app. reflexivity.
    + cbn [ret]. rewrite (IH (S index) _ Hrest).
      destruct (MosaicPreset.divisibility m); reflexivity.
Qed.

Lemma pushAdditional_fails (additional : list (list (CurrencyDistribution Z)))
    (mosaics : list MosaicPreset) :
  forall (index : nat) (a : Assembly) i m l,
  mosaics !! i = Some m -> additional !! (index + i)%nat = Some l ->
  MosaicPreset.divisibility m = None ->
  fst (forEachFrom index mosaics (fun m mosaicIndex =>
    match additional !! mosaicIndex with
    | None => ret tt
    | Some l =>
        bind (divisibilityOf m) (fun divisibility =>
        forEach l (fun distribution =>
          pushNemesisBalance
            {| mosaicIndex := mosaicIndex;
               address := CurrencyDistribution.address distribution;
               amount := Js.mul (CurrencyDistribution.amount distribution)
                           (Js.pow10 divisibility) |}))
    end) a)
  = Err (UnresolvedConfigValue "Divisibility should be defined!!").
Proof.
  induction mosaics as [|m0 rest IH]; intros index a i m l Hm Hl Hnone; [discriminate Hm|].
  cbn [forEachFrom]. unfold bind at 1.
  destruct i as [|i].
  - injection Hm as ->. rewrite Nat.add_0_r in Hl. rewrite Hl.
    unfold divisibilityOf, bind. rewrite Hnone. reflexivity.
  - assert (Hl' : additional !! (S index + i)%nat = Some l).
    { replace (S index + i)%nat with (index + S i)%nat by lia. exact Hl. }
    destruct (additional !! index) as [l0|].
    + unfold divisibilityOf, bind.
      destruct (MosaicPreset.divisibility m0) as [d|]; [|reflexivity].
      cbn [fromOption ret].
      rewrite (forEach_push (fun distribution =>
                 {| mosaicIndex := index;
                    address := CurrencyDistribution.address distribution;
                    amount := Js.mul (CurrencyDistribution.amount distribution)
                                (Js.pow10 d) |}) l0 a).
      apply (IH (S index) _ i m l Hm Hl' Hnone).
    + cbn [ret]. apply (IH (S index) _ i m l Hm Hl' Hnone).
Qed.

Lemma distributed_index index d l :
  Forall (fun n => mosaicIndex n = index) (distributed index d l).
Proof. unfold distributed. apply Forall_map. apply Forall_forall. reflexivity. Qed.

Lemma additionalBalances_from_index additional mosaics :
  forall index,
  Forall (fun n => (index <= mosaicIndex n < index + length mosaics)%nat)
    (additionalBalances index mosaics additional).
Proof.
  induction mosaics as [|m rest IH]; intros index; [constructor|].
  cbn [additionalBalances length].
  assert (Hrest : Forall (fun n => (index <= mosaicIndex n < index + S (length rest))%nat)
                    (additionalBalances (S index) rest additional)).
  { eapply Forall_impl; [apply IH|]. cbn. intros n Hn. lia. }
  destruct (additional !! index) as [l|]; [|exact Hrest].
  destruct (MosaicPreset.divisibility m) as [d|]; [|exact Hrest].
  apply Forall_app. split; [|exact Hrest].
  eapply Forall_impl; [apply distributed_index|]. cbn. intros n ->. lia.
Qed.

Lemma additionalBalances_filter additional mosaics :
  forall index i m l d,
  mosaics !! i = Some m -> additional !! (index + i)%nat = Some l ->
  MosaicPreset.divisibility m = Some d ->
  filter (fun n => mosaicIndex n = (index + i)%nat)
    (additionalBalances index mosaics additional) = distributed (index + i) d l.
Proof.
  induction mosaics as [|m0 rest IH]; intros index i m l d Hm Hl Hd; [discriminate Hm|].
  cbn [additionalBalances]. destruct i as [|i].
  - injection Hm as ->. rewrite Nat.add_0_r in *. rewrite Hl, Hd.
    rewrite filter_app, (filter_all _ _ (distributed_index index d l)).
    rewrite filter_none; [apply app_nil_r|].
    eapply Forall_impl; [apply (additionalBalances_from_index additional rest (S index))|].
    cbn. intros n Hn. lia.
  - assert (Hl' : additional !! (S index + i)%nat = Some l).
    { replace (S index + i)%nat with (index + S i)%nat by lia. exact Hl. }
    replace (index + S i)%nat with (S index + i)%nat by lia.
    specialize (IH (S index) i m l d Hm Hl' Hd).
    destruct (additional !! index) as [l0|]; [|exact IH].
    destruct (MosaicPreset.divisibility m0) as [d0|]; [|exact IH].
    rewrite filter_app, IH. rewrite filter_none; [reflexivity|].
    eapply Forall_impl; [apply distributed_index|]. cbn. intros n ->. lia.
Qed.

(** X9. The additional distributions.  If every mosaic for which the
    network lists distributions has its divisibility, the loop returns,
    changes the balances only, and the entries it appends for the mosaic
    [i] of divisibility [d] are, in the order of its list, one for every
    distribution: its address and the double product of its amount and
    [10^d].  Unlike a zero balance of a node, a distribution of amount
    zero gets its entry.  If a mosaic for which a list is given lacks its
    divisibility, the loop throws, also if that list is empty. *)
Theorem additional_distributions (mosaics : list MosaicPreset)
    (additional : list (list (CurrencyDistribution Z))) (a : Assembly) :
  ((forall i m l, mosaics !! i = Some m -> additional !! i = Some l ->
                  is_Some (MosaicPreset.divisibility m)) ->
   exists new,
     pushAdditionalCurrencyDistributions mosaics additional a =
       (Ok tt, appendBalances a new) /\
     forall i m l d,
       mosaics !! i = Some m -> additional !! i = Some l ->
       MosaicPreset.divisibility m = Some d ->
       filter (fun n => mosaicIndex n = i) new = distributed i d l) /\
  (forall i m l, mosaics !! i = Some m -> additional !! i = Some l ->
                 MosaicPreset.divisibility m = None ->
                 fst (pushAdditionalCurrencyDistributions mosaics additional a) =
                   Err (UnresolvedConfigValue "Divisibility should be defined!!")).
Proof.
  split.
  - intros Hdiv. exists (additionalBalances 0 mosaics additional). split.
    + apply pushAdditional_from. exact Hdiv.
    + intros i m l d Hm Hl Hd.
      apply (additionalBalances_filter additional mosaics 0 i m l d Hm Hl Hd).
  - intros i m l Hm Hl Hnone.
    apply (pushAdditional_fails additional mosaics 0 a i m l Hm Hl Hnone).
Qed.

End GenesisBalances.

Section BalanceFrames.
Import NetworkGenesisService.

Lemma extendsBalances_refl bound a : extendsBalances bound a a.
Proof.
  unfold extendsBalances. repeat split; try reflexivity.
  exists []. rewrite app_nil_r. split; [reflexivity|constructor].
Qed.

Lemma extendsBalances_push bound a a1 n :
  extendsBalances bound a a1 -> (mosaicIndex n < bound)%nat ->
  extendsBalances bound a (appendBalances a1 [n]).
Proof.
  intros (Hworld & Htransactions & Hpeers & Hgateways & new & Hnew & Hbound) Hn.
  unfold extendsBalances, appendBalances; cbn.
  repeat split; try assumption.
  exists (new ++ [n])%list. rewrite Hnew, app_assoc. split; [reflexivity|].
  apply Forall_app. split; [exact Hbound|]. constructor; [exact Hn|constructor].
Qed.

Lemma triple_pushNemesisBalance bound a n E :
  (mosaicIndex n < bound)%nat ->
  triple (extendsBalances bound a) (pushNemesisBalance n)
    (fun _ => extendsBalances bound a) E.
Proof.
  intros Hn a1 Hext. rewrite pushNemesisBalance_run. apply extendsBalances_push; assumption.
Qed.

Lemma triple_divisibilityOf (I : Assembly -> Prop) m :
  triple I (divisibilityOf m) (fun _ => I) (fun _ => I).
Proof. apply triple_fromOption; auto. Qed.

Lemma triple_pushNodeBalances mosaics balances address a :
  triple (extendsBalances (length mosaics) a) (pushNodeBalances mosaics balances address)
    (fun _ => extendsBalances (length mosaics) a)
    (fun _ => extendsBalances (length mosaics) a).
Proof.
  apply triple_forEachFrom. intros i m Hm. cbn [Nat.add].
  destruct (default 0 (balances !! i) =? 0); [apply triple_ret; auto|].
  eapply triple_bind; [apply triple_divisibilityOf|].
  intros d. apply triple_pushNemesisBalance. cbn.
  apply lookup_lt_Some in Hm. exact Hm.
Qed.

Lemma triple_pushAdditional mosaics additional a :
  triple (extendsBalances (length mosaics) a)
    (pushAdditionalCurrencyDistributions mosaics additional)
    (fun _ => extendsBalances (length mosaics) a)
    (fun _ => extendsBalances (length mosaics) a).
Proof.
  apply triple_forEachFrom. intros i m Hm. cbn [Nat.add].
  destruct (additional !! i) as [l|]; [|apply triple_ret; auto].
  eapply triple_bind; [apply triple_divisibilityOf|].
  intros d. apply triple_forEach. intros distribution _.
  apply triple_pushNemesisBalance. cbn.
  apply lookup_lt_Some in Hm. exact Hm.
Qed.

(** X10. What the balance loops never do.  The loops over the balances
    of a node, of the faucet and over the additional distributions,
    whether they return or throw, leave the key store, the working
    directory, the transactions, the known peers and the gateways as they
    are, keep the balances collected so far, in order, and append only
    entries whose mosaic index is below the number of mosaics. *)
Theorem balance_loops_extend (mosaics : list MosaicPreset) (a : Assembly) :
  (forall balances address,
     extendsBalances (length mosaics) a (snd (pushNodeBalances mosaics balances address a))) /\
  (forall balances address,
     extendsBalances (length mosaics) a (snd (pushFaucetBalances mosaics balances address a))) /\
  (forall additional,
     extendsBalances (length mosaics) a
       (snd (pushAdditionalCurrencyDistributions mosaics additional a))).
Proof.
  assert (Hnode : forall balances address,
    extendsBalances (length mosaics) a (snd (pushNodeBalances mosaics balances address a))).
  { intros balances address.
    pose proof (triple_pushNodeBalances mosaics balances address a a
                  (extendsBalances_refl _ a)) as Hrun.
    destruct (pushNodeBalances mosaics balances address a) as [[[]|e] a']; exact Hrun. }
  split; [exact Hnode|]. split.
  - intros balances address.
    replace (pushFaucetBalances mosaics balances address a)
      with (pushNodeBalances mosaics balances address a); [apply Hnode|].
    unfold pushFaucetBalances, pushNodeBalances. apply forEachFrom_ext.
    intros m i s. cbn zeta. destruct (balances !! i) as [b|]; reflexivity.
  - intros additional.
    pose proof (triple_pushAdditional mosaics additional a a
                  (extendsBalances_refl _ a)) as Hrun.
    destruct (pushAdditionalCurrencyDistributions mosaics additional a) as [[[]|e] a'];
      exact Hrun.
Qed.





End BalanceFrames.

(** ** The key store in the services *)

Section KeyStoreErrors.
Context `{Externals}.
Import LocalFileKeyStore.

(** The errors of the getters: the SDK rejects the private key, the store
    cannot write its file, or the account is missing and may not be
    generated. *)
Lemma getNetworkAccount_error networkType accountName generate this e this' :
  getNetworkAccount networkType accountName generate this = (Err e, this') ->
  (exists key, e = InvalidPrivateKey key) \/
  e = passwordTooShort \/
  e = AccountNotFound /\ generate = false /\ lookupNetwork accountName this = None.
Proof.
  intros Hrun.
  destruct (lookupNetwork accountName this) as [stored|] eqn:Hlookup.
  - rewrite (getNetworkAccount_stored _ _ _ _ _ Hlookup) in Hrun.
    destruct (createFromPrivateKey _ _).
    + apply saving_err in Hrun as (-> & _). auto.
    + injection Hrun as <- <-. left. eauto.
  - rewrite (getNetworkAccount_absent _ _ _ _ Hlookup) in Hrun.
    destruct generate.
    + cbv zeta in Hrun. destruct (createFromPrivateKey _ _).
      * apply saving_err in Hrun as (-> & _). auto.
      * injection Hrun as <- <-. left. eauto.
    + injection Hrun as <- <-. right. right. auto.
Qed.

Lemma getNodeAccount_error networkType keyName nodeName nodeInformation generate this e this' :
  getNodeAccount networkType keyName nodeName nodeInformation generate this = (Err e, this') ->
  (exists key, e = InvalidPrivateKey key) \/
  e = passwordTooShort \/
  e = AccountNotFound /\ generate = false /\
  lookupNode nodeName nodeInformation keyName this = None.
Proof.
  intros Hrun.
  destruct (lookupNode nodeName nodeInformation keyName this) as [stored|] eqn:Hlookup.
  - rewrite (getNodeAccount_stored _ _ _ _ _ _ _ Hlookup) in Hrun.
    destruct (createFromPrivateKey _ _).
    + apply saving_err in Hrun as (-> & _). auto.
    + injection Hrun as <- <-. left. eauto.
  - rewrite (getNodeAccount_absent _ _ _ _ _ _ Hlookup) in Hrun.
    destruct generate.
    + cbv zeta in Hrun. destruct (createFromPrivateKey _ _).
      * apply saving_err in Hrun as (-> & _). auto.
      * injection Hrun as <- <-. left. eauto.
    + injection Hrun as <- <-. right. right. auto.
Qed.

Lemma getVotingKeyFile_error networkType nodeName nodeInformation s e this err this' :
  getVotingKeyFile networkType nodeName nodeInformation s e this = (Err err, this') ->
  assemblyError err.
Proof.
  intros Hrun.
  destruct (lookupVotingFile nodeName nodeInformation s e this) as [stored|] eqn:Hlookup.
  - rewrite (getVotingKeyFile_stored _ _ _ _ _ _ _ Hlookup) in Hrun.
    destruct (decodeStored stored) as [votingFile|].
    + destruct (negb _); [injection Hrun as <- <-; exact I|].
      destruct (negb _); [injection Hrun as <- <-; exact I|discriminate].
    + injection Hrun as <- <-. exact I.
  - rewrite (getVotingKeyFile_absent _ _ _ _ _ _ Hlookup) in Hrun. cbv zeta in Hrun.
    destruct (createVotingFile _ _ _ _).
    + apply saving_err in Hrun as (-> & _). exact I.
    + injection Hrun as <- <-. exact I.
Qed.

End KeyStoreErrors.

Section UpdateNetworkPreset.
Context `{Externals}.
Import NetworkConfigurationService.

Lemma getNetworkAccount_known networkType accountName generate this account this' :
  LocalFileKeyStore.getNetworkAccount networkType accountName generate this
    = (Ok account, this') ->
  is_Some (lookupEntry (NetworkEntry accountName) this').
Proof.
  intros Hrun. apply getNetworkAccount_returns in Hrun as (Hstored & _).
  cbn. rewrite Hstored. cbn. eauto.
Qed.


(** The course of [updateNetworkPreset]: the preset is loaded; four
    accounts are asked for, one after the other and each with [generate]
    set; when all four are returned, the preset is written. *)
Lemma updateNetworkPreset_steps (preset : string) (networkType : nat)
    (knownRestGateways : option (list string)) (knownPeers : option (list PeerInfo))
    (customNetworkPreset : option CustomPreset) (saveAsFile : string) (w : World) :
  let run := updateNetworkPreset preset networkType knownRestGateways knownPeers
               customNetworkPreset saveAsFile w in
  let ask name := GetNetworkAccount networkType name true in
  match fst run with
  | Ok stored =>
      keyStore (snd run) = performAll (ask <$> presetAccounts) (keyStore w) /\
      Forall (fun name => is_Some (lookupEntry (NetworkEntry name) (keyStore (snd run))))
        presetAccounts /\
      workspace (snd run) =
        {| Workspace.path := Workspace.path (workspace w);
           Workspace.currentDirectory := Workspace.currentDirectory (workspace w);
           Workspace.networkInputFile := Workspace.networkInputFile (workspace w);
           Workspace.networkFile := Workspace.networkFile (workspace w);
           Workspace.presetFiles := <[saveAsFile := stored]> (Workspace.presetFiles (workspace w));
           Workspace.folders := Workspace.folders (workspace w) |}
  | Err e =>
      (exists asked, keyStore (snd run) = performAll (ask <$> asked) (keyStore w)) /\
      workspace (snd run) = workspace w /\
      assemblyError e
  end.
Proof.
  cbn zeta. unfold updateNetworkPreset, fromOption, onKeyStore, onWorkspace, writePreset, zoom,
    bind, get, modify, ret, throw. cbn [keyStore workspace fst snd].
  set (ask := fun name => GetNetworkAccount networkType name true).
  destruct (loadNetworkPreset preset (Workspace.presetFiles (workspace w)))
    as [networkPreset|]; cbn [keyStore workspace fst snd].
  2:{ split; [exists []; reflexivity|]. split; [reflexivity|exact I]. }
  assert (Hstep : forall name store result store',
    LocalFileKeyStore.getNetworkAccount networkType name true store = (result, store') ->
    store' = perform store (ask name) /\
    match result with
    | Ok _ => is_Some (lookupEntry (NetworkEntry name) store')
    | Err e => assemblyError e
    end).
  { intros name store result store' Hrun.
    split; [unfold ask; cbn [perform]; rewrite Hrun; reflexivity|].
    destruct result as [account|e]; [apply (getNetworkAccount_known _ _ _ _ _ _ Hrun)|].
    apply getNetworkAccount_error in Hrun as [[key ->]|[->|(_ & Hgenerate & _)]];
      [exact I|exact I|discriminate Hgenerate]. }
  destruct (LocalFileKeyStore.getNetworkAccount networkType nemesisSigner true (keyStore w))
    as [[account1|e1] k1] eqn:Hrun1; cbn [keyStore workspace fst snd];
    apply Hstep in Hrun1 as [-> Hresult1].
  2:{ split; [exists [nemesisSigner]; reflexivity|auto]. }
  destruct (LocalFileKeyStore.getNetworkAccount networkType harvestNetworkFeeSink true _)
    as [[account2|e2] k2] eqn:Hrun2; cbn [keyStore workspace fst snd];
    apply Hstep in Hrun2 as [-> Hresult2].
  2:{ split; [exists [nemesisSigner; harvestNetworkFeeSink]; reflexivity|auto]. }
  destruct (LocalFileKeyStore.getNetworkAccount networkType namespaceRentalFeeSink true _)
    as [[account3|e3] k3] eqn:Hrun3; cbn [keyStore workspace fst snd];
    apply Hstep in Hrun3 as [-> Hresult3].
  2:{ split; [exists [nemesisSigner; harvestNetworkFeeSink; namespaceRentalFeeSink];
              reflexivity|auto]. }
  destruct (LocalFileKeyStore.getNetworkAccount networkType mosaicRentalFeeSink true _)
    as [[account4|e4] k4] eqn:Hrun4; cbn [keyStore workspace fst snd];
    apply Hstep in Hrun4 as [-> Hresult4].
  2:{ split; [exists presetAccounts; reflexivity|auto]. }
  split; [reflexivity|]. split; [|reflexivity].
  unfold presetAccounts. repeat constructor.
  - do 3 apply perform_keeps. exact Hresult1.
  - do 2 apply perform_keeps. exact Hresult2.
  - apply perform_keeps. exact Hresult3.
  - exact Hresult4.
Qed.


End UpdateNetworkPreset.

(** ** The assembly of the nemesis block *)

Section NodeLoop.
Context `{Externals}.
Import NetworkGenesisService.

Lemma inv_ret {A} (I : Assembly -> Prop) (x : A) :
  triple I (ret x) (fun _ => I) (fun e _ => assemblyError e).
Proof. apply triple_ret. auto. Qed.

Lemma inv_get (I : Assembly -> Prop) :
  triple I get (fun _ => I) (fun e _ => assemblyError e).
Proof. apply triple_get. auto. Qed.

Lemma inv_fromOption {A} (I : Assembly -> Prop) (e : Error) (o : option A) :
  assemblyError e -> triple I (fromOption e o) (fun _ => I) (fun e _ => assemblyError e).
Proof. intros He. apply triple_fromOption; auto. Qed.

Lemma inv_pushNemesisBalance (I : Assembly -> Prop) (n : NemesisBalance) :
  (forall a n, I a -> I (appendBalances a [n])) ->
  triple I (pushNemesisBalance n) (fun _ => I) (fun e _ => assemblyError e).
Proof. intros Hpush a Ha. rewrite pushNemesisBalance_run. apply Hpush, Ha. Qed.

Lemma inv_pushNodeBalances (I : Assembly -> Prop) mosaics balances address :
  (forall a n, I a -> I (appendBalances a [n])) ->
  triple I (pushNodeBalances mosaics balances address) (fun _ => I)
    (fun e _ => assemblyError e).
Proof.
  intros Hpush. apply triple_forEachFrom. intros i m _. cbn [Nat.add].
  destruct (default 0 (balances !! i) =? 0); [apply inv_ret|].
  eapply triple_bind; [apply inv_fromOption; exact Logic.I|].
  intros d. apply inv_pushNemesisBalance, Hpush.
Qed.

Lemma inv_pushFaucetBalances (I : Assembly -> Prop) mosaics balances address :
  (forall a n, I a -> I (appendBalances a [n])) ->
  triple I (pushFaucetBalances mosaics balances address) (fun _ => I)
    (fun e _ => assemblyError e).
Proof.
  intros Hpush. apply triple_forEachFrom. intros i m _. cbn [Nat.add].
  destruct (balances !! i) as [b|]; [|apply inv_ret].
  destruct (b =? 0); [apply inv_ret|].
  eapply triple_bind; [apply inv_fromOption; exact Logic.I|].
  intros d. apply inv_pushNemesisBalance, Hpush.
Qed.

Lemma inv_pushAdditional (I : Assembly -> Prop) mosaics additional :
  (forall a n, I a -> I (appendBalances a [n])) ->
  triple I (pushAdditionalCurrencyDistributions mosaics additional) (fun _ => I)
    (fun e _ => assemblyError e).
Proof.
  intros Hpush. apply triple_forEachFrom. intros i m _. cbn [Nat.add].
  destruct (additional !! i) as [l|]; [|apply inv_ret].
  eapply triple_bind; [apply inv_fromOption; exact Logic.I|].
  intros d. apply triple_forEach. intros distribution _.
  apply inv_pushNemesisBalance, Hpush.
Qed.

(** *** What the loop over the nodes collects *)

Lemma collected_onKeyStore {A} (c : M LocalFileKeyStore A) t p g ws :
  (forall this e this', c this = (Err e, this') -> assemblyError e) ->
  triple (collected t p g ws) (onKeyStore c) (fun _ => collected t p g ws)
    (fun e _ => assemblyError e).
Proof.
  intros Herr a Ha. unfold onKeyStore, zoom.
  destruct (c (keyStore (world a))) as [[x|e] k] eqn:Hrun; [exact Ha|].
  apply (Herr _ _ _ Hrun).
Qed.

Lemma getNodeAccount_assemblyError networkType keyName nodeName node this e this' :
  LocalFileKeyStore.getNodeAccount networkType keyName nodeName node true this
    = (Err e, this') ->
  assemblyError e.
Proof.
  intros Hrun. apply getNodeAccount_error in Hrun as [[key ->]|[->|(_ & Hgenerate & _)]];
    [exact Logic.I|exact Logic.I|discriminate Hgenerate].
Qed.

Lemma getNetworkAccount_assemblyError networkType accountName this e this' :
  LocalFileKeyStore.getNetworkAccount networkType accountName true this = (Err e, this') ->
  assemblyError e.
Proof.
  intros Hrun. apply getNetworkAccount_error in Hrun as [[key ->]|[->|(_ & Hgenerate & _)]];
    [exact Logic.I|exact Logic.I|discriminate Hgenerate].
Qed.

Lemma getVotingKeyFile_assemblyError networkType nodeName node s e this err this' :
  LocalFileKeyStore.getVotingKeyFile networkType nodeName node s e this = (Err err, this') ->
  assemblyError err.
Proof.
  apply getVotingKeyFile_error.
Qed.

Lemma collected_pushTransaction t p g ws x identity :
  transactionIdentity x = identity ->
  triple (collected t p g ws) (pushTransaction x)
    (fun _ => collected (t ++ [identity]) p g ws) (fun e _ => assemblyError e).
Proof.
  intros <- a (Ht & Hp & Hg & Hw). unfold collected; cbn.
  rewrite fmap_app, Ht. auto.
Qed.

Lemma collected_pushKnownPeer t p g ws x fields :
  peerFields x = fields ->
  triple (collected t p g ws) (pushKnownPeer x)
    (fun _ => collected t (p ++ [fields]) g ws) (fun e _ => assemblyError e).
Proof.
  intros <- a (Ht & Hp & Hg & Hw). unfold collected; cbn.
  rewrite fmap_app, Hp. auto.
Qed.

Lemma collected_pushKnownRestGateway t p g ws x :
  triple (collected t p g ws) (pushKnownRestGateway x)
    (fun _ => collected t p (g ++ [x]) ws) (fun e _ => assemblyError e).
Proof.
  intros a (Ht & Hp & Hg & Hw). unfold collected; cbn. rewrite Hg. auto.
Qed.

Lemma collected_appendBalances t p g ws a n :
  collected t p g ws a -> collected t p g ws (appendBalances a [n]).
Proof. intros Ha. exact Ha. Qed.

Ltac identify :=
  try unfold transactionIdentity; try unfold peerFields;
  cbn [TransactionInformation.type
       TransactionInformation.nodeNumber TransactionInformation.typeNumber
       PeerInfo.endpointHost PeerInfo.endpointPort PeerInfo.metadataName
       PeerInfo.metadataRoles];
  reflexivity.

Lemma processNode_collects networkType networkPreset mosaics seed node t p g ws :
  triple (collected t p g ws) (processNode networkType networkPreset mosaics seed node)
    (fun _ => collected (t ++ linkIdentities node) (p ++ peersOf node) (g ++ gatewaysOf node) ws)
    (fun e _ => assemblyError e).
Proof.
  unfold processNode, linkIdentities, peersOf, gatewaysOf. cbn zeta.
  destruct (isServices (nodesMetadata (NodeInformation.nodeType node))).
  { apply triple_ret. intros a Ha. rewrite !app_nil_r. exact Ha. }
  destruct (NodeTypeMetadata.api (nodesMetadata (NodeInformation.nodeType node))),
           (NodeTypeMetadata.voting (nodesMetadata (NodeInformation.nodeType node)));
    (eapply triple_post;
     [ eapply triple_bind;
         [apply collected_onKeyStore; intros ? ? ?; apply getNodeAccount_assemblyError|];
       intros mainAccount; eapply triple_bind;
         [apply collected_onKeyStore; intros ? ? ?; apply getNodeAccount_assemblyError|];
       intros vrfAccount; eapply triple_bind;
         [apply collected_onKeyStore; intros ? ? ?; apply getNodeAccount_assemblyError|];
       intros remoteAccount;
       eapply triple_bind; [eapply collected_pushKnownPeer; identify|]; intros [];
       eapply triple_bind; [first [apply collected_pushKnownRestGateway|apply inv_ret]|];
       intros []; eapply triple_bind;
         [apply inv_pushNodeBalances; intros; apply collected_appendBalances; assumption|];
       intros []; eapply triple_bind; [eapply collected_pushTransaction; identify|];
       intros []; eapply triple_bind; [eapply collected_pushTransaction; identify|];
       intros [];
       first
         [ eapply triple_bind; [apply inv_fromOption; exact Logic.I|];
           intros lifetime; eapply triple_bind;
             [apply collected_onKeyStore; intros ? ? ?; apply getVotingKeyFile_assemblyError|];
           intros file; eapply collected_pushTransaction; identify
         | apply inv_ret ]
     | cbn beta; intros [] a Ha; cbn in Ha; rewrite <- ?app_assoc in Ha;
       rewrite ?app_nil_r; exact Ha ]).
Qed.

End NodeLoop.

Section NodeLoopTheorems.
Context `{Externals}.
Import NetworkGenesisService.

Lemma forEach_collects networkType networkPreset mosaics seed ws nodes :
  forall t p g,
  triple (collected t p g ws)
    (forEach nodes (processNode networkType networkPreset mosaics seed))
    (fun _ => collected (t ++ nodes ≫= linkIdentities) (p ++ nodes ≫= peersOf)
                (g ++ nodes ≫= gatewaysOf) ws)
    (fun e _ => assemblyError e).
Proof.
  induction nodes as [|node nodes IH]; intros t p g.
  - apply triple_ret. intros a Ha. cbn. rewrite !app_nil_r. exact Ha.
  - cbn [forEach]. eapply triple_bind; [apply processNode_collects|].
    intros []. eapply triple_post; [apply IH|].
    intros [] a Ha. cbn [mbind list_bind] in *. rewrite <- !app_assoc in Ha. exact Ha.
Qed.

Lemma linkIdentities_number node identity :
  identity ∈ linkIdentities node -> identity.2 = NodeInformation.number node.
Proof.
  unfold linkIdentities.
  destruct (isServices _); [intros Hin; inversion Hin|].
  destruct (NodeTypeMetadata.voting _); cbn; intros Hin;
    repeat (apply elem_of_cons in Hin as [->|Hin]; [reflexivity|]); inversion Hin.
Qed.

Lemma linkIdentities_NoDup node : NoDup (linkIdentities node).
Proof.
  unfold linkIdentities. destruct (isServices _); [constructor|].
  destruct (NodeTypeMetadata.voting _); cbn;
    repeat (apply NoDup_cons; split;
            [intros Hin; repeat (apply elem_of_cons in Hin as [Heq|Hin]; [discriminate Heq|]);
             inversion Hin|]);
    constructor.
Qed.

Lemma linkIdentities_distinct (nodes : list NodeInformation) :
  NoDup (NodeInformation.number <$> nodes) -> NoDup (nodes ≫= linkIdentities).
Proof.
  induction nodes as [|node nodes IH]; intros Hnodup; [constructor|].
  cbn in *. apply NoDup_cons in Hnodup as [Hfresh Hnodup].
  apply NoDup_app. split; [apply linkIdentities_NoDup|]. split; [|auto].
  intros identity Hhere Hthere. apply Hfresh.
  apply list_elem_of_bind in Hthere as (node' & Hin & Hnode').
  apply linkIdentities_number in Hhere, Hin. rewrite <- Hhere, Hin.
  apply list_elem_of_fmap. eauto.
Qed.

Lemma transaction_keys_distinct (txs : list TransactionInformation) :
  NoDup (transactionIdentity <$> txs) -> NoDup (NetworkUtils.getTransactionKey <$> txs).
Proof.
  induction txs as [|t txs IH]; intros Hnodup; [constructor|].
  cbn in *. apply NoDup_cons in Hnodup as [Hfresh Hnodup].
  apply NoDup_cons. split; [|auto].
  intros Hin. apply Hfresh. apply list_elem_of_fmap in Hin as (t' & Heq & Hin).
  apply getTransactionKey_inj in Heq. rewrite Heq. apply list_elem_of_fmap. eauto.
Qed.

(** X13. What the loop over the nodes collects.  If the loop returns,
    then it has appended, node by node in the order of the topology and
    nothing for a services node: the link transactions of the VRF key and
    of the remote key and, for a voting node, of the voting key, each with
    the number of the node; one known peer with the host name of the
    node, the port 7900, its friendly name and its roles; and the REST
    URL of the node if it serves the API.  The working directory is as it
    was.  If the loop started without transactions and the numbers of the
    nodes are pairwise distinct, the ledger of the nemesis block has one
    entry for every transaction. *)
Theorem node_loop_collects (networkType : nat) (networkPreset : CustomPreset)
    (mosaics : list MosaicPreset) (seed : string) (nodes : list NodeInformation)
    (a a' : Assembly) :
  forEach nodes (processNode networkType networkPreset mosaics seed) a = (Ok tt, a') ->
  transactionIdentity <$> transactions a' =
    ((transactionIdentity <$> transactions a) ++ nodes ≫= linkIdentities)%list /\
  peerFields <$> knownPeers a' = ((peerFields <$> knownPeers a) ++ nodes ≫= peersOf)%list /\
  knownRestGateways a' = (knownRestGateways a ++ nodes ≫= gatewaysOf)%list /\
  workspace (world a') = workspace (world a) /\
  (transactions a = [] -> NoDup (NodeInformation.number <$> nodes) ->
   size (Lodash.keyByMapValues (transactions a') NetworkUtils.getTransactionKey
           TransactionInformation.payload) = length (transactions a')).
Proof.
  intros Hrun.
  pose proof (forEach_collects networkType networkPreset mosaics seed (workspace (world a))
                nodes _ _ _ a (conj eq_refl (conj eq_refl (conj eq_refl eq_refl)))) as Hloop.
  rewrite Hrun in Hloop. destruct Hloop as (Ht & Hp & Hg & Hw).
  repeat (split; [assumption|]).
  intros Hempty Hnodup. apply keyByMapValues_size, transaction_keys_distinct.
  rewrite Ht, Hempty. cbn. apply linkIdentities_distinct, Hnodup.
Qed.

End NodeLoopTheorems.

Section AssemblyErrors.
Context `{Externals}.
Import NetworkGenesisService.

(** An operation that cannot lack its account keeps what the key store
    knows and throws errors of the assembly only. *)
Lemma knows_onKeyStore {A} (c : M LocalFileKeyStore A) (op : Operation) entry :
  (forall this, snd (c this) = perform this op) ->
  (forall a e this', knows entry a -> c (keyStore (world a)) = (Err e, this') ->
                     assemblyError e) ->
  triple (knows entry) (onKeyStore c) (fun _ => knows entry) (fun e _ => assemblyError e).
Proof.
  intros Hperform Herr a Ha. unfold onKeyStore, zoom.
  pose proof (Hperform (keyStore (world a))) as Hsnd.
  destruct (c (keyStore (world a))) as [[x|e] k] eqn:Hrun; cbn in Hsnd; subst k.
  - apply perform_keeps, Ha.
  - apply (Herr a e _ Ha Hrun).
Qed.

Lemma knows_getNodeAccount entry networkType keyName nodeName node :
  triple (knows entry)
    (onKeyStore (LocalFileKeyStore.getNodeAccount networkType keyName nodeName node true))
    (fun _ => knows entry) (fun e _ => assemblyError e).
Proof.
  apply (knows_onKeyStore _ (GetNodeAccount networkType keyName nodeName node true));
    [reflexivity|].
  intros a e this' _. apply getNodeAccount_assemblyError.
Qed.

Lemma knows_getNetworkAccount entry networkType accountName :
  triple (knows entry)
    (onKeyStore (LocalFileKeyStore.getNetworkAccount networkType accountName true))
    (fun _ => knows entry) (fun e _ => assemblyError e).
Proof.
  apply (knows_onKeyStore _ (GetNetworkAccount networkType accountName true));
    [reflexivity|].
  intros a e this' _. apply getNetworkAccount_assemblyError.
Qed.

Lemma knows_getVotingKeyFile entry networkType nodeName node s e :
  triple (knows entry)
    (onKeyStore (LocalFileKeyStore.getVotingKeyFile networkType nodeName node s e))
    (fun _ => knows entry) (fun e _ => assemblyError e).
Proof.
  apply (knows_onKeyStore _ (GetVotingKeyFile networkType nodeName node s e));
    [reflexivity|].
  intros a err this' _. apply getVotingKeyFile_assemblyError.
Qed.

(** The one lookup that may not generate finds its account. *)
Lemma knows_signer networkType :
  triple (knows (NetworkEntry nemesisSigner))
    (onKeyStore (LocalFileKeyStore.getNetworkAccount networkType nemesisSigner false))
    (fun _ => knows (NetworkEntry nemesisSigner)) (fun e _ => assemblyError e).
Proof.
  apply (knows_onKeyStore _ (GetNetworkAccount networkType nemesisSigner false));
    [reflexivity|].
  intros a e this' Ha Hrun.
  apply getNetworkAccount_error in Hrun as [[key ->]|[->|(_ & _ & Hnone)]];
    [exact Logic.I|exact Logic.I|].
  unfold knows, lookupEntry in Ha. rewrite Hnone in Ha. destruct Ha as [x Hx].
  discriminate Hx.
Qed.

Lemma knows_appendBalances entry a n : knows entry a -> knows entry (appendBalances a [n]).
Proof. intros Ha. exact Ha. Qed.

Lemma knows_modify entry (f : Assembly -> Assembly) :
  (forall a, world (f a) = world a) ->
  triple (knows entry) (modify f) (fun _ => knows entry) (fun e _ => assemblyError e).
Proof. intros Hf a Ha. cbn. unfold knows. rewrite Hf. exact Ha. Qed.

Lemma knows_onWorkspace {A} entry (c : M Workspace A) :
  (forall ws e ws', c ws = (Err e, ws') -> assemblyError e) ->
  triple (knows entry) (onWorkspace c) (fun _ => knows entry) (fun e _ => assemblyError e).
Proof.
  intros Herr a Ha. unfold onWorkspace, zoom.
  destruct (c (workspace (world a))) as [[x|e] ws'] eqn:Hrun; [exact Ha|].
  apply (Herr _ _ _ Hrun).
Qed.

Lemma processNode_knows entry networkType networkPreset mosaics seed node :
  triple (knows entry) (processNode networkType networkPreset mosaics seed node)
    (fun _ => knows entry) (fun e _ => assemblyError e).
Proof.
  unfold processNode. cbn zeta.
  destruct (isServices _); [apply inv_ret|].
  eapply triple_bind; [apply knows_getNodeAccount|]. intros mainAccount.
  eapply triple_bind; [apply knows_getNodeAccount|]. intros vrfAccount.
  eapply triple_bind; [apply knows_getNodeAccount|]. intros remoteAccount.
  eapply triple_bind; [apply knows_modify; reflexivity|]. intros [].
  eapply triple_bind.
  { destruct (NodeTypeMetadata.api _); [apply knows_modify; reflexivity|apply inv_ret]. }
  intros []. eapply triple_bind;
    [apply inv_pushNodeBalances; intros; apply knows_appendBalances; assumption|].
  intros []. eapply triple_bind; [apply knows_modify; reflexivity|].
  intros []. eapply triple_bind; [apply knows_modify; reflexivity|].
  intros []. destruct (NodeTypeMetadata.voting _); [|apply inv_ret].
  eapply triple_bind; [apply inv_fromOption; exact Logic.I|]. intros lifetime.
  eapply triple_bind; [apply knows_getVotingKeyFile|]. intros file.
  apply knows_modify. reflexivity.
Qed.

Lemma assembleNemesis_triple input :
  triple (fun _ => True) (assembleNemesis input)
    (fun _ => knows (NetworkEntry nemesisSigner)) (fun e _ => assemblyError e).
Proof.
  unfold assembleNemesis. cbn zeta.
  eapply (triple_bind _ (fun _ _ => True)); [intros a _; exact Logic.I|]. intros [].
  eapply (triple_bind _ (fun _ => knows (NetworkEntry nemesisSigner))).
  { intros a _. unfold onWorld, zoom.
    pose proof (updateNetworkPreset_steps
                  (BasicNetworkFile.preset (NetworkFile.basic input))
                  (BasicNetworkFile.networkType (NetworkFile.basic input)) None None
                  (BasicNetworkFile.customNetworkPreset (NetworkFile.basic input))
                  (BasicNetworkFile.preset (NetworkFile.basic input)) (world a)) as Hrun.
    cbn zeta in Hrun.
    destruct (NetworkConfigurationService.updateNetworkPreset _ _ _ _ _ _ (world a))
      as [[stored|e] w']; cbn [fst snd] in Hrun.
    - destruct Hrun as (_ & Hall & _). unfold presetAccounts in Hall.
      apply Forall_cons in Hall as [Hsigner _]. exact Hsigner.
    - destruct Hrun as (_ & _ & Hkey). exact Hkey. }
  intros networkPreset.
  eapply triple_bind; [apply inv_fromOption; exact Logic.I|]. intros seed.
  eapply triple_bind; [apply inv_fromOption; exact Logic.I|]. intros nemesisPreset.
  eapply triple_bind; [apply inv_fromOption; exact Logic.I|]. intros mosaics.
  eapply triple_bind; [apply knows_getNetworkAccount|]. intros founderAccount.
  eapply triple_bind; [apply triple_forEach; intros node _; apply processNode_knows|].
  intros []. eapply triple_bind; [apply knows_signer|]. intros signer.
  eapply triple_bind; [apply inv_get|]. intros a1.
  eapply triple_bind; [apply knows_onWorkspace; intros ws e ws' Hrun; discriminate Hrun|].
  intros []. eapply triple_bind.
  { destruct (BasicNetworkFile.faucetBalances (NetworkFile.basic input));
      [|apply inv_ret].
    eapply triple_bind; [apply knows_getNetworkAccount|]. intros account. apply inv_ret. }
  intros faucetAccount. eapply triple_bind.
  { destruct (BasicNetworkFile.faucetBalances (NetworkFile.basic input)), faucetAccount;
      try apply inv_ret.
    apply inv_pushFaucetBalances. intros; apply knows_appendBalances; assumption. }
  intros []. eapply triple_bind.
  { destruct (BasicNetworkFile.additionalCurrencyDistributions (NetworkFile.basic input));
      [|apply inv_ret].
    apply inv_pushAdditional. intros; apply knows_appendBalances; assumption. }
  intros []. eapply triple_bind; [apply inv_get|]. intros a2.
  eapply triple_bind; [apply inv_fromOption; exact Logic.I|]. intros node.
  apply inv_ret.
Qed.

(** X14. The assembly and the nemesis signer.  Whatever the network and
    the state, what [generateNemesis] does between its guards and the
    call of the toolkit never throws for an account that cannot be
    generated, although it asks for the nemesis signer without
    generating: [updateNetworkPreset] has stored that account before, and
    no operation in between removes it.  If the assembly returns, the key
    store holds the nemesis signer. *)
Theorem assembly_errors (input : NetworkFile) (a : Assembly) :
  match fst (assembleNemesis input a) with
  | Ok _ => knows (NetworkEntry nemesisSigner) (snd (assembleNemesis input a))
  | Err e => e <> AccountNotFound
  end.
Proof.
  pose proof (assembleNemesis_triple input a Logic.I) as Hrun.
  destruct (assembleNemesis input a) as [[params|e] a']; cbn; [exact Hrun|].
  intros ->. exact Hrun.
Qed.

End AssemblyErrors.

Section GeneratedAccounts.
Context `{Externals}.
Import NetworkConfigurationService.

Lemma getNetworkAccount_draws networkType accountName this account this' :
  LocalFileKeyStore.getNetworkAccount networkType accountName true this = (Ok account, this') ->
  LocalFileKeyStore.draws this' =
    (LocalFileKeyStore.draws this + missing accountName this)%nat /\
  forall other, other <> accountName ->
    lookupNetwork other this' = lookupNetwork other this.
Proof.
  intros Hrun. unfold missing.
  assert (Hother : forall other stored that, other <> accountName ->
            lookupNetwork other
              (saved (LocalFileKeyStore.setNetworkAccount accountName stored that)) =
            lookupNetwork other that).
  { intros other stored that Hne. unfold lookupNetwork; cbn.
    apply lookup_insert_ne. intros Heq. apply accountNameKey_inj in Heq. auto. }
  destruct (lookupNetwork accountName this) as [stored|] eqn:Hlookup.
  - rewrite (getNetworkAccount_stored _ _ _ _ _ Hlookup) in Hrun.
    destruct (createFromPrivateKey _ _); [|discriminate].
    apply saving_ok in Hrun as (_ & -> & _).
    split; [cbn; lia|]. intros other Hne. apply Hother, Hne.
  - rewrite (getNetworkAccount_absent _ _ _ _ Hlookup) in Hrun. cbv zeta in Hrun.
    destruct (createFromPrivateKey _ _); [|discriminate].
    apply saving_ok in Hrun as (_ & -> & _).
    split; [cbn; lia|]. intros other Hne.
    rewrite Hother by exact Hne. reflexivity.
Qed.

(** X15. [updateNetworkPreset] generates what is missing, and no more.
    If it returns, it has drawn from the source of randomness once for
    each of its four accounts that the key store lacked, and not at all
    if the key store held them all, as it does after the accounts were
    entered and saved. *)
Theorem updateNetworkPreset_generates_missing (preset : string) (networkType : nat)
    (knownRestGateways : option (list string)) (knownPeers : option (list PeerInfo))
    (customNetworkPreset : option CustomPreset) (saveAsFile : string) (w w' : World)
    (stored : CustomPreset) :
  updateNetworkPreset preset networkType knownRestGateways knownPeers customNetworkPreset
    saveAsFile w = (Ok stored, w') ->
  LocalFileKeyStore.draws (keyStore w') =
    (LocalFileKeyStore.draws (keyStore w) +
     sum_list ((fun name => missing name (keyStore w)) <$> presetAccounts))%nat /\
  (Forall (fun name => is_Some (lookupNetwork name (keyStore w))) presetAccounts ->
   LocalFileKeyStore.draws (keyStore w') = LocalFileKeyStore.draws (keyStore w)).
Proof.
  intros Hrun.
  assert (Hcount : LocalFileKeyStore.draws (keyStore w') =
    (LocalFileKeyStore.draws (keyStore w) +
     sum_list ((fun name => missing name (keyStore w)) <$> presetAccounts))%nat).
  { revert Hrun.
    unfold updateNetworkPreset, fromOption, onKeyStore, onWorkspace, writePreset, zoom, bind,
      get, modify, ret, throw. cbn [keyStore workspace fst snd].
    destruct (loadNetworkPreset preset (Workspace.presetFiles (workspace w)))
      as [networkPreset|]; cbn [keyStore workspace fst snd]; [|discriminate].
    destruct (LocalFileKeyStore.getNetworkAccount networkType nemesisSigner true (keyStore w))
      as [[account1|e1] k1] eqn:Hrun1; cbn [keyStore workspace fst snd]; [|discriminate].
    destruct (LocalFileKeyStore.getNetworkAccount networkType harvestNetworkFeeSink true k1)
      as [[account2|e2] k2] eqn:Hrun2; cbn [keyStore workspace fst snd]; [|discriminate].
    destruct (LocalFileKeyStore.getNetworkAccount networkType namespaceRentalFeeSink true k2)
      as [[account3|e3] k3] eqn:Hrun3; cbn [keyStore workspace fst snd]; [|discriminate].
    destruct (LocalFileKeyStore.getNetworkAccount networkType mosaicRentalFeeSink true k3)
      as [[account4|e4] k4] eqn:Hrun4; cbn [keyStore workspace fst snd]; [|discriminate].
    intros [= _ <-]. cbn [keyStore].
    apply getNetworkAccount_draws in Hrun1 as [Hdraws1 Hframe1].
    apply getNetworkAccount_draws in Hrun2 as [Hdraws2 Hframe2].
    apply getNetworkAccount_draws in Hrun3 as [Hdraws3 Hframe3].
    apply getNetworkAccount_draws in Hrun4 as [Hdraws4 Hframe4].
    rewrite Hdraws4, Hdraws3, Hdraws2, Hdraws1. unfold missing in *.
    rewrite (Hframe1 harvestNetworkFeeSink) by discriminate.
    rewrite (Hframe2 namespaceRentalFeeSink), (Hframe1 namespaceRentalFeeSink) by discriminate.
    rewrite (Hframe3 mosaicRentalFeeSink), (Hframe2 mosaicRentalFeeSink),
      (Hframe1 mosaicRentalFeeSink) by discriminate.
    cbn. lia. }
  split; [exact Hcount|].
  intros Hall. rewrite Hcount. clear Hcount.
  assert (Hzero : sum_list ((fun name => missing name (keyStore w)) <$> presetAccounts) = 0%nat).
  { induction Hall as [|name names [x Hx] _ IH]; [reflexivity|].
    cbn. unfold missing at 1. rewrite Hx. exact IH. }
  rewrite Hzero. lia.
Qed.

End GeneratedAccounts.

Section AssemblyWitnesses.
Import NetworkGenesisService.

Lemma additional_distributions_witness :
  let a := start Example.expandedWorld in
  exists new,
    pushAdditionalCurrencyDistributions [Example.mosaic 6; Example.mosaic 3]
      exampleAdditional a = (Ok tt, appendBalances a new) /\
    filter (fun n => mosaicIndex n = 0%nat) new =
      [ {| mosaicIndex := 0; address := "TA"; amount := Js.Num 5000000 |};
        {| mosaicIndex := 0; address := "TB"; amount := Js.Num 0 |} ].
Proof.
  intros a.
  destruct (proj1 (additional_distributions [Example.mosaic 6; Example.mosaic 3]
                     exampleAdditional a)) as (new & Hrun & Hspec).
  - intros [|[|i]] m l Hm Hl; cbn in Hm; try discriminate Hm;
      injection Hm as <-; cbn; eauto.
  - exists new. split; [exact Hrun|].
    rewrite (Hspec 0%nat (Example.mosaic 6) _ 6%nat eq_refl eq_refl eq_refl).
    vm_compute. reflexivity.
Defined.


Lemma node_loop_collects_witness :
  let a := start Example.expandedWorld in
  let run := forEach (NetworkFile.nodes Example.network)
               (processNode 152 Example.networkPreset [Example.mosaic 6; Example.mosaic 3]
                  "seed") a in
  transactionIdentity <$> transactions (snd run) =
    [ (1%nat, "VRF", 1%nat); (2%nat, "Remote", 1%nat);
      (1%nat, "VRF", 2%nat); (2%nat, "Remote", 2%nat); (3%nat, "Voting", 2%nat);
      (1%nat, "VRF", 3%nat); (2%nat, "Remote", 3%nat); (3%nat, "Voting", 3%nat) ] /\
  size (Lodash.keyByMapValues (transactions (snd run)) NetworkUtils.getTransactionKey
          TransactionInformation.payload) = 8%nat.
Proof.
  intros a run.
  assert (Hok : fst run = Ok tt) by (vm_compute; reflexivity).
  assert (Hrun : forEach (NetworkFile.nodes Example.network)
                   (processNode 152 Example.networkPreset
                      [Example.mosaic 6; Example.mosaic 3] "seed") a = (Ok tt, snd run)).
  { rewrite <- Hok. subst run. apply surjective_pairing. }
  destruct (node_loop_collects _ _ _ _ _ _ _ Hrun) as (Ht & _ & _ & _ & Hsize).
  split; [rewrite Ht; vm_compute; reflexivity|].
  rewrite Hsize.
  - rewrite <- (length_fmap transactionIdentity), Ht. vm_compute. reflexivity.
  - reflexivity.
  - apply (bool_decide_unpack _). vm_compute. exact Logic.I.
Defined.

Lemma updateNetworkPreset_generates_missing_witness :
  let run := NetworkConfigurationService.updateNetworkPreset "custom-network-preset.yml" 152
               None None None "custom-network-preset.yml" Example.expandedWorld in
  LocalFileKeyStore.draws (keyStore (snd run)) = 4%nat.
Proof.
  intros run.
  assert (Hok : exists stored, fst run = Ok stored) by (vm_compute; eauto).
  destruct Hok as [stored Hok].
  assert (Hrun : NetworkConfigurationService.updateNetworkPreset "custom-network-preset.yml"
                   152 None None None "custom-network-preset.yml" Example.expandedWorld =
                 (Ok stored, snd run)).
  { rewrite <- Hok. subst run. apply surjective_pairing. }
  rewrite (proj1 (updateNetworkPreset_generates_missing _ _ _ _ _ _ _ _ _ Hrun)).
  vm_compute. reflexivity.
Defined.

End AssemblyWitnesses.

(** ** The validators of the prompts and the names of the nodes *)

Section Validators.
#[local] Arguments String.append !_ _ /.
Import InitService NetworkConfigurationService.

Lemma matchesClass_append class (a b : string) :
  matchesClass class (a +:+ b) = matchesClass class a && matchesClass class b.
Proof. induction a as [|c a IH]; [reflexivity|]. cbn. rewrite IH, andb_assoc. reflexivity. Qed.

Lemma matchesClass_impl (class class' : ascii -> bool) (s : string) :
  (forall c, class c = true -> class' c = true) ->
  matchesClass class s = true -> matchesClass class' s = true.
Proof.
  intros Himpl. induction s as [|c s IH]; [reflexivity|]. cbn.
  intros [Hc Hs]%andb_true_iff. rewrite (Himpl c Hc), (IH Hs). reflexivity.
Qed.

Lemma isLetter_templateClass c : isLetter c = true -> templateClass c = true.
Proof. unfold templateClass. intros ->. reflexivity. Qed.

Lemma isDigit_templateClass c : isDigit c = true -> templateClass c = true.
Proof. unfold templateClass. intros ->. rewrite !orb_true_r. reflexivity. Qed.

Lemma letters_noDollar (s : string) : matchesClass isLetter s = true -> noDollar s.
Proof.
  induction s as [|c s IH]; [exact (fun _ => I)|]. cbn.
  intros [Hc Hs]%andb_true_iff. split; [|auto]. intros ->. discriminate Hc.
Qed.

Lemma string_of_uint_digits (d : Decimal.uint) :
  matchesClass isDigit (NilEmpty.string_of_uint d) = true.
Proof. induction d; cbn; auto. Qed.

Lemma zeroPad_digits (num places : nat) :
  matchesClass isDigit (NetworkUtils.zeroPad num places) = true.
Proof.
  unfold NetworkUtils.zeroPad, Js.padStart. rewrite matchesClass_append.
  apply andb_true_iff. split; [|apply string_of_uint_digits].
  induction (places - _)%nat as [|n IH]; [reflexivity|exact IH].
Qed.

Lemma isValidName_Valid (s : string) :
  isValidName s = Valid <-> s <> "" /\ matchesClass isLetter s = true.
Proof.
  unfold isValidName, truthyString.
  destruct (String.eqb_spec s "") as [->|Hne].
  - split; [discriminate|]. intros [Hne _]. contradiction.
  - destruct (matchesClass isLetter s); split; try discriminate; auto.
    intros [_ Hfalse]. discriminate Hfalse.
Qed.

Lemma isValidTemplate_Valid (s : string) :
  isValidTemplate s = Valid <-> s <> "" /\ matchesClass templateClass s = true.
Proof.
  unfold isValidTemplate, truthyString.
  destruct (String.eqb_spec s "") as [->|Hne].
  - split; [discriminate|]. intros [Hne _]. contradiction.
  - destruct (matchesClass templateClass s); split; try discriminate; auto.
    intros [_ Hfalse]. discriminate Hfalse.
Qed.

Lemma append_nonempty_r (a b : string) : b <> "" -> a +:+ b <> "".
Proof. intros Hb. destruct a; [exact Hb|discriminate]. Qed.

Lemma append_nonempty_l (a b : string) : a <> "" -> a +:+ b <> "".
Proof. intros Ha. destruct a; [contradiction|discriminate]. Qed.

(** Replacing keeps the class of the characters and does not empty the
    text, when the value is of the class, has no dollar sign and is not
    empty. *)
Lemma replace_class class (s p r : string) :
  noDollar r -> r <> "" ->
  s <> "" /\ matchesClass class s = true -> matchesClass class r = true ->
  Js.replace s p r <> "" /\ matchesClass class (Js.replace s p r) = true.
Proof.
  intros Hplain Hr [Hs Hclass] Hvalue. unfold Js.replace.
  destruct (Js.splitAtFirst p s) as [[before after]|] eqn:Hsplit; [|auto].
  apply splitAtFirst_spec in Hsplit. subst s.
  rewrite (getSubstitution_plain _ _ _ _ Hplain).
  rewrite !matchesClass_append in *.
  apply andb_true_iff in Hclass as [Hbefore Hrest].
  apply andb_true_iff in Hrest as [_ Hafter].
  split.
  - apply append_nonempty_r, append_nonempty_l, Hr.
  - rewrite Hbefore, Hvalue, Hafter. reflexivity.
Qed.

Lemma formatFriendlyName_class (pattern suffix nickname friendlyNumber : string) :
  isValidTemplate pattern = Valid ->
  isValidName suffix = Valid -> isValidName nickname = Valid ->
  friendlyNumber <> "" -> matchesClass isDigit friendlyNumber = true ->
  isValidTemplate (formatFriendlyName pattern suffix nickname friendlyNumber) = Valid.
Proof.
  intros Hpattern Hsuffix Hnickname Hnonempty Hdigits.
  apply isValidTemplate_Valid in Hpattern. apply isValidTemplate_Valid.
  apply isValidName_Valid in Hsuffix as [Hs1 Hs2].
  apply isValidName_Valid in Hnickname as [Hn1 Hn2].
  unfold formatFriendlyName. cbn [fold_left].
  apply replace_class.
  - clear Hnonempty.
    induction friendlyNumber as [|c s IH]; [exact I|]. cbn in *.
    apply andb_true_iff in Hdigits as [Hc Hs]. split; [|auto]. intros ->. discriminate Hc.
  - exact Hnonempty.
  - apply replace_class; [apply letters_noDollar, Hn2|exact Hn1| |].
    + apply replace_class; [apply letters_noDollar, Hs2|exact Hs1|exact Hpattern|].
      apply (matchesClass_impl _ _ _ isLetter_templateClass Hs2).
    + apply (matchesClass_impl _ _ _ isLetter_templateClass Hn2).
  - apply (matchesClass_impl _ _ _ isDigit_templateClass Hdigits).
Qed.

Lemma expandNode_builtFrom input groups g st :
  g ∈ groups ->
  Forall (builtFrom input groups) (nodes st) ->
  Forall (builtFrom input groups) (nodes (expandNode input g st)).
Proof.
  intros Hg Hst. unfold expandNode. cbn [nodes].
  apply Forall_app. split; [exact Hst|].
  apply Forall_singleton. exists g. eexists. split; [exact Hg|].
  split; reflexivity.
Qed.

Lemma expandedNodes_builtFrom (input : NetworkInputFile) :
  Forall (builtFrom (NetworkInputFile.basic input) (NetworkInputFile.nodeTypes input))
    (expandedNodes input).
Proof.
  unfold expandedNodes.
  set (basic := NetworkInputFile.basic input).
  set (all := NetworkInputFile.nodeTypes input).
  assert (Hfold : forall groups st,
    (forall g, g ∈ groups -> g ∈ all) ->
    Forall (builtFrom basic all) (nodes st) ->
    Forall (builtFrom basic all) (nodes (fold_left (expandNodeType basic) groups st))).
  { induction groups as [|g groups IH]; intros st Hsub Hst; [exact Hst|].
    cbn [fold_left]. apply IH; [intros g' Hg'; apply Hsub; right; exact Hg'|].
    unfold expandNodeType.
    induction (NodeTypeInput.total g) as [|n IHn]; [exact Hst|].
    cbn [Nat.iter nat_rect]. apply expandNode_builtFrom; [apply Hsub; left|exact IHn]. }
  apply Hfold; [auto|constructor].
Qed.

(** X16. The validators of the prompts and the names of the nodes.  A
    text that [isValidName] accepts is not empty, has no dollar sign and
    is accepted by [isValidTemplate]; the nick names of the catalog and
    the default pattern are accepted.  If the suffix and the nick names
    of the groups are valid names and the pattern in use is a valid
    template, then every friendly name that [expandNodes] builds is a
    valid template again: it is not empty and made of letters, digits,
    dashes and dollar signs only. *)
Theorem validated_names_give_templates (input : NetworkInputFile) :
  (forall s, isValidName s = Valid ->
     s <> "" /\ noDollar s /\ isValidTemplate s = Valid) /\
  (forall nodeType, isValidName (NodeTypeMetadata.nickName (nodesMetadata nodeType)) = Valid) /\
  isValidTemplate defaultFriendlyNamePattern = Valid /\
  (isValidName (BasicNetworkFile.suffix (NetworkInputFile.basic input)) = Valid ->
   Forall (fun g => isValidName (NodeTypeInput.nickName g) = Valid)
     (NetworkInputFile.nodeTypes input) ->
   isValidTemplate (patternOf (NetworkInputFile.basic input)) = Valid ->
   Forall (fun n => isValidTemplate (NodeInformation.friendlyName n) = Valid)
     (expandedNodes input)).
Proof.
  split; [|split; [|split]].
  - intros s [Hne Hletters]%isValidName_Valid.
    split; [exact Hne|]. split; [apply letters_noDollar, Hletters|].
    apply isValidTemplate_Valid. split; [exact Hne|].
    apply (matchesClass_impl _ _ _ isLetter_templateClass Hletters).
  - intros []; reflexivity.
  - reflexivity.
  - intros Hsuffix Hnicks Hpattern.
    eapply Forall_impl; [apply expandedNodes_builtFrom|].
    intros n (g & k & Hg & Hname & _). rewrite Hname.
    rewrite Forall_forall in Hnicks.
    apply formatFriendlyName_class; auto.
    change (matchesClass isDigit (String "0" (NetworkUtils.zeroPad k 2)) = true).
    cbn [matchesClass]. rewrite zeroPad_digits. reflexivity.
Qed.

End Validators.

(** ** Passwords and the creation of the key store *)

Section Passwords.
Context `{Externals}.
Import NetworkCommandUtils.

Lemma isValidPassword_Valid (text : string) :
  isValidPassword (Some text) = Valid <-> text = "" \/ (4 <= String.length text)%nat.
Proof.
  unfold isValidPassword, truthyString.
  destruct (String.eqb_spec text "") as [->|Hne]; [tauto|].
  destruct (Nat.leb_spec 4 (String.length text)); split; try discriminate; auto.
  intros [Hempty|Hlong]; [contradiction|lia].
Qed.

Lemma parse_Accepted (paramName input : string) :
  (exists text, parse paramName input = Accepted text) <->
  isValidPassword (Some input) = Valid.
Proof.
  unfold parse.
  destruct (truthyString (Some input)) as [text|] eqn:Htruthy.
  - destruct (isValidPassword (Some input)); split; eauto; try discriminate.
    intros [text' Heq]. discriminate Heq.
  - unfold isValidPassword. rewrite Htruthy. split; eauto.
Qed.

Lemma promptPassword_valid (answers : list string) (answer : string) :
  promptPassword answers = Some answer ->
  In answer answers /\ isValidPassword (Some answer) = Valid.
Proof.
  unfold promptPassword. intros Hfind. apply find_some in Hfind as [Hin Hvalid].
  split; [exact Hin|]. destruct (isValidPassword (Some answer)); [reflexivity|discriminate].
Qed.

Lemma resolvePassword_long providedPassword noPassword answers password text :
  (forall provided, providedPassword = PasswordText provided ->
                    isValidPassword (Some provided) = Valid) ->
  resolvePassword providedPassword noPassword answers = Some password ->
  password = Some text ->
  (4 <= String.length text)%nat /\
  (providedPassword = PasswordText text \/ noPassword = false /\ In text answers).
Proof.
  intros Hprovided Hresolve ->. unfold resolvePassword in Hresolve.
  assert (Hasked :
    (if noPassword then Some None
     else match promptPassword answers with
          | Some answer => Some (truthyString (Some answer))
          | None => None
          end) = Some (Some text) ->
    (4 <= String.length text)%nat /\ noPassword = false /\ In text answers).
  { destruct noPassword; [discriminate|].
    destruct (promptPassword answers) as [answer|] eqn:Hprompt; [|discriminate].
    apply promptPassword_valid in Hprompt as [Hin Hvalid].
    unfold truthyString. destruct (String.eqb_spec answer "") as [->|Hne]; [discriminate|].
    intros [= ->]. apply isValidPassword_Valid in Hvalid as [->|Hlong]; [contradiction|auto]. }
  destruct providedPassword as [provided| |].
  - unfold truthyString in Hresolve.
    destruct (String.eqb_spec provided "") as [->|Hne].
    + apply Hasked in Hresolve. tauto.
    + injection Hresolve as ->.
      destruct (proj1 (isValidPassword_Valid text) (Hprovided text eq_refl)) as [->|Hlong];
        [contradiction|auto].
  - discriminate Hresolve.
  - apply Hasked in Hresolve. tauto.
Qed.

(** X17. The password of a key store.  The parser of a password flag
    accepts exactly the empty text and the texts of at least four
    characters.  Let [resolvePassword] return for a provided password
    that is such a text, [false] or [undefined].  Then it returns [false]
    or a text of at least four characters, which is the provided text or
    a text entered at the prompt; the prompt is not asked when a text is
    provided that is not empty, when [false] is provided or when
    [noPassword] is set.  The factory of [createStore] then makes a key
    store where there is no file, and over a file exactly when the
    toolkit reads the file with the resolved password.  A store that the
    factory has made can write its file, and after any operations, once
    it has written its file, the file is encrypted with the resolved
    password, or is a clear file if the password is [false]. *)
Theorem resolved_password_guards_the_store (providedPassword : Password)
    (noPassword : bool) (answers : list string) (password : option string) :
  (forall paramName input,
     (exists text, parse paramName input = Accepted text) <->
     input = "" \/ (4 <= String.length input)%nat) /\
  ((forall provided, providedPassword = PasswordText provided ->
                     isValidPassword (Some provided) = Valid) ->
   resolvePassword providedPassword noPassword answers = Some password ->
   (forall text, password = Some text ->
      (4 <= String.length text)%nat /\
      (providedPassword = PasswordText text \/ noPassword = false /\ In text answers)) /\
   (forall seed, exists store,
      storeFactory providedPassword noPassword answers None seed = Some (Ok store)) /\
   (forall stored seed,
      is_Some (loadYaml stored (resolved password)) <->
      exists store,
        storeFactory providedPassword noPassword answers (Some stored) seed =
          Some (Ok store)) /\
   (forall file seed store ops,
      storeFactory providedPassword noPassword answers file seed = Some (Ok store) ->
      writable store = true /\
      let this := performAll ops store in
      ((0 < LocalFileKeyStore.writes this)%nat ->
       LocalFileKeyStore.storageFile this =
         Some {| document := LocalFileKeyStore.storage this; encryptedWith := password |}))) /\
  (forall others,
     resolvePassword providedPassword noPassword others =
     resolvePassword providedPassword noPassword answers \/
     noPassword = false /\
     (providedPassword = PasswordUndefined \/ providedPassword = PasswordText "")).
Proof.
  split; [|split].
  - intros paramName input. rewrite parse_Accepted. apply isValidPassword_Valid.
  - intros Hprovided Hresolve. split.
    + intros text. apply (resolvePassword_long _ _ _ _ _ Hprovided Hresolve).
    + assert (Htext : LocalFileKeyStore.passwordText (resolved password) = password)
        by (destruct password; reflexivity).
      assert (Htruthy : truthyString password = password).
      { destruct password as [text|]; [|reflexivity].
        destruct (resolvePassword_long _ _ _ _ text Hprovided Hresolve eq_refl) as [Hlong _].
        unfold truthyString. destruct (String.eqb_spec text "") as [->|]; [|reflexivity].
        cbn in Hlong. lia. }
      unfold storeFactory. rewrite Hresolve. split; [|split].
      * intros seed. cbn. eauto.
      * intros stored seed. unfold LocalFileKeyStore.new.
        destruct (loadYaml stored (resolved password)) as [storedValue|]; split.
        -- eauto.
        -- intros _. eauto.
        -- intros [x Hx]. discriminate Hx.
        -- intros [store Hstore]. discriminate Hstore.
      * intros file seed store ops [= Hnew].
        destruct (new_made _ _ _ _ _ Hnew) as (Hpassword & _ & Hwrites & _).
        rewrite Htext in Hpassword.
        assert (Hwritable : writable store = true).
        { unfold writable. rewrite Hpassword, Htruthy.
          destruct password as [text|]; [|reflexivity].
          destruct (resolvePassword_long _ _ _ _ text Hprovided Hresolve eq_refl)
            as [Hlong _].
          unfold LocalFileKeyStore.validPassword. apply Nat.leb_le, Hlong. }
        split; [exact Hwritable|].
        destruct (performAll_writable ops store Hwritable) as (_ & _ & Hfile).
        cbn zeta in *. intros Hpos. rewrite Hfile by lia.
        unfold written. rewrite performAll_password, Hpassword, Htruthy. reflexivity.
  - intros others. unfold resolvePassword.
    destruct providedPassword as [provided| |]; auto.
    + unfold truthyString. destruct (String.eqb_spec provided "") as [->|]; auto.
      destruct noPassword; auto.
    + destruct noPassword; auto.
Qed.

End Passwords.

Section LazyStore.
Context `{Externals}.
Variable factory : nat -> Result LocalFileKeyStore.

Lemma onDelegate_made {A} (method : M LocalFileKeyStore A) this store :
  LazyKeyStore.delegate this = Some store ->
  LazyKeyStore.onDelegate factory method this =
  (fst (method store),
   {| LazyKeyStore.delegate := Some (snd (method store));
      LazyKeyStore.factoryCalls := LazyKeyStore.factoryCalls this |}).
Proof.
  intros Hmade. unfold LazyKeyStore.onDelegate, LazyKeyStore.getDelegate, bind.
  rewrite Hmade. destruct (method store); reflexivity.
Qed.

Lemma onDelegate_first {A} (method : M LocalFileKeyStore A) this store :
  LazyKeyStore.delegate this = None ->
  factory (LazyKeyStore.factoryCalls this) = Ok store ->
  LazyKeyStore.onDelegate factory method this =
  (fst (method store),
   {| LazyKeyStore.delegate := Some (snd (method store));
      LazyKeyStore.factoryCalls := S (LazyKeyStore.factoryCalls this) |}).
Proof.
  intros Hnone Hfactory. unfold LazyKeyStore.onDelegate, LazyKeyStore.getDelegate, bind.
  rewrite Hnone, Hfactory. destruct (method store); reflexivity.
Qed.

Lemma onDelegate_failed {A} (method : M LocalFileKeyStore A) this e :
  LazyKeyStore.delegate this = None ->
  factory (LazyKeyStore.factoryCalls this) = Err e ->
  LazyKeyStore.onDelegate factory method this =
  (Err e,
   {| LazyKeyStore.delegate := None;
      LazyKeyStore.factoryCalls := S (LazyKeyStore.factoryCalls this) |}).
Proof.
  intros Hnone Hfactory. unfold LazyKeyStore.onDelegate, LazyKeyStore.getDelegate, bind.
  rewrite Hnone, Hfactory. reflexivity.
Qed.

Lemma performLazily_made this store op :
  LazyKeyStore.delegate this = Some store ->
  performLazily factory this op =
  {| LazyKeyStore.delegate := Some (perform store op);
     LazyKeyStore.factoryCalls := LazyKeyStore.factoryCalls this |}.
Proof.
  intros Hmade. destruct op; cbn [performLazily perform];
    unfold LazyKeyStore.getNetworkAccount, LazyKeyStore.saveNetworkAccount,
      LazyKeyStore.getNodeAccount, LazyKeyStore.getVotingKeyFile;
    rewrite (onDelegate_made _ _ _ Hmade); reflexivity.
Qed.

Lemma performLazily_first this store op :
  LazyKeyStore.delegate this = None ->
  factory (LazyKeyStore.factoryCalls this) = Ok store ->
  performLazily factory this op =
  {| LazyKeyStore.delegate := Some (perform store op);
     LazyKeyStore.factoryCalls := S (LazyKeyStore.factoryCalls this) |}.
Proof.
  intros Hnone Hfactory. destruct op; cbn [performLazily perform];
    unfold LazyKeyStore.getNetworkAccount, LazyKeyStore.saveNetworkAccount,
      LazyKeyStore.getNodeAccount, LazyKeyStore.getVotingKeyFile;
    rewrite (onDelegate_first _ _ _ Hnone Hfactory); reflexivity.
Qed.

Lemma performLazily_all ops this store :
  LazyKeyStore.delegate this = Some store ->
  fold_left (performLazily factory) ops this =
  {| LazyKeyStore.delegate := Some (performAll ops store);
     LazyKeyStore.factoryCalls := LazyKeyStore.factoryCalls this |}.
Proof.
  revert this store. induction ops as [|op ops IH]; intros this store Hmade.
  - cbn. destruct this; cbn in *. subst. reflexivity.
  - cbn [fold_left]. rewrite (performLazily_made _ _ _ Hmade).
    rewrite (IH {| LazyKeyStore.delegate := Some (perform store op);
                   LazyKeyStore.factoryCalls := LazyKeyStore.factoryCalls this |}
               (perform store op) eq_refl).
    reflexivity.
Qed.

(** X18. The lazy key store.  It calls its factory at its first
    operation and not before; if the factory returns a store, every
    operation, the first one too, acts on that store and returns what it
    returns, the factory is not called again, and after a sequence of
    operations the delegate is the store after the same operations.  If
    the factory throws, the operation throws the same, no store is kept,
    and the factory is called anew by the next operation. *)
Theorem lazy_store_delegates (ops : list Operation) (store : LocalFileKeyStore) :
  LazyKeyStore.factoryCalls LazyKeyStore.new = 0%nat /\
  (factory 0%nat = Ok store ->
   forall op,
     fold_left (performLazily factory) (op :: ops) LazyKeyStore.new =
     {| LazyKeyStore.delegate := Some (performAll (op :: ops) store);
        LazyKeyStore.factoryCalls := 1 |}) /\
  (forall A (method : M LocalFileKeyStore A) this,
     match LazyKeyStore.delegate this, factory (LazyKeyStore.factoryCalls this) with
     | Some made, _ =>
         LazyKeyStore.onDelegate factory method this =
         (fst (method made),
          {| LazyKeyStore.delegate := Some (snd (method made));
             LazyKeyStore.factoryCalls := LazyKeyStore.factoryCalls this |})
     | None, Ok made =>
         LazyKeyStore.onDelegate factory method this =
         (fst (method made),
          {| LazyKeyStore.delegate := Some (snd (method made));
             LazyKeyStore.factoryCalls := S (LazyKeyStore.factoryCalls this) |})
     | None, Err e =>
         LazyKeyStore.onDelegate factory method this =
         (Err e,
          {| LazyKeyStore.delegate := None;
             LazyKeyStore.factoryCalls := S (LazyKeyStore.factoryCalls this) |})
     end).
Proof.
  split; [reflexivity|]. split.
  - intros Hfactory op. cbn [fold_left].
    rewrite (performLazily_first LazyKeyStore.new store op eq_refl Hfactory).
    rewrite (performLazily_all ops
               {| LazyKeyStore.delegate := Some (perform store op);
                  LazyKeyStore.factoryCalls := 1 |} (perform store op) eq_refl).
    reflexivity.
  - intros A method this.
    destruct (LazyKeyStore.delegate this) as [made|] eqn:Hdelegate.
    + apply onDelegate_made, Hdelegate.
    + destruct (factory (LazyKeyStore.factoryCalls this)) as [made|e] eqn:Hfactory.
      * apply onDelegate_first; assumption.
      * apply onDelegate_failed; assumption.
Qed.

End LazyStore.

(** ** The resolver of accounts *)

Section AccountResolver.
Context `{Externals}.
Import NetworkAccountResolver.

(** X19. The resolver of accounts and the key store.  With a private
    key, [resolveAccount] returns the account of that key, or throws if
    the SDK rejects it, and leaves the key store alone.  Without a
    private key and with a node name, it does to the key store what
    [getNodeAccount] does for the node of the resolver with [generate]
    set, and throws what [getNodeAccount] throws; the account it returns
    is then stored under the node name, the number of that node and the
    key name, and has the expected public key if one is given.  If the
    key store returns an account whose public key is not the expected
    one, it throws, after the account was stored: also an account
    generated by this very call stays in the key store.  Without a
    private key, a node name and a certificate, it throws the error of
    the caller if there is one, and otherwise generates an account that
    is stored nowhere. *)
Theorem resolver_uses_the_store (node : NodeInformation) (networkType : nat)
    (account : option CertificatePair) (keyName : KeyName) (nodeName : option string)
    (generateErrorMessage : option string) (keyStore : LocalFileKeyStore) :
  let run := resolveAccount node networkType account keyName nodeName generateErrorMessage
               keyStore in
  let givenKey := account ≫= (fun certificate =>
                    truthyString (CertificatePair.privateKey certificate)) in
  (forall key, givenKey = Some key ->
     snd run = keyStore /\
     fst run = match createFromPrivateKey key networkType with
               | Some found => Resolved found
               | None => Failed (InvalidPrivateKey key)
               end) /\
  (forall name, givenKey = None -> truthyString nodeName = Some name ->
     snd run = perform keyStore (GetNodeAccount networkType keyName name node true) /\
     match fst run with
     | Resolved found =>
         lookupNode name node keyName (snd run) = Some (LocalFileKeyStore.toStored found) /\
         forall certificate, account = Some certificate ->
           Account.publicKey found = CertificatePair.publicKey certificate
     | InvalidPublicKey k expected got =>
         k = keyName /\ got <> expected /\
         (exists certificate, account = Some certificate /\
                              CertificatePair.publicKey certificate = expected) /\
         exists found, Account.publicKey found = got /\
           lookupNode name node keyName (snd run) = Some (LocalFileKeyStore.toStored found)
     | Failed e =>
         fst (LocalFileKeyStore.getNodeAccount networkType keyName name node true keyStore) =
         Err e
     | KnownError _ | PrivateKeyPrompt _ => False
     end) /\
  (account = None -> truthyString nodeName = None ->
     match truthyString generateErrorMessage with
     | Some message => run = (KnownError message, keyStore)
     | None =>
         fst run = Resolved (generateAccount (LocalFileKeyStore.draws keyStore) networkType) /\
         LocalFileKeyStore.storage (snd run) = LocalFileKeyStore.storage keyStore /\
         LocalFileKeyStore.storageFile (snd run) = LocalFileKeyStore.storageFile keyStore /\
         LocalFileKeyStore.draws (snd run) = S (LocalFileKeyStore.draws keyStore)
     end).
Proof.
  cbn zeta. unfold resolveAccount. split; [|split].
  - intros key ->. destruct (createFromPrivateKey key networkType); auto.
  - intros name -> ->. cbn [perform].
    destruct (LocalFileKeyStore.getNodeAccount networkType keyName name node true keyStore)
      as [[found|e] keyStore'] eqn:Hrun.
    + pose proof (getNodeAccount_returns _ _ _ _ _ _ _ _ Hrun) as (Hstored & _).
      destruct account as [certificate|]; cbn [fst snd]; [|split; [reflexivity|]; split;
        [exact Hstored|discriminate]].
      destruct (String.eqb_spec (Account.publicKey found)
                  (CertificatePair.publicKey certificate)) as [Heq|Hne]; cbn [negb fst snd].
      * split; [reflexivity|]. split; [exact Hstored|]. intros ? [= <-]. exact Heq.
      * split; [reflexivity|]. split; [reflexivity|]. split; [exact Hne|]. eauto 6.
    + cbn [fst snd]. split; reflexivity.
  - intros -> ->. cbn. unfold promptAccount.
    destruct (truthyString generateErrorMessage); [reflexivity|]. cbn. auto.
Qed.

End AccountResolver.

Section EntryWitnesses.
Import LocalFileKeyStore.

Lemma validated_names_give_templates_witness :
  Forall (fun n => InitService.isValidTemplate (NodeInformation.friendlyName n) = Valid)
    (NetworkConfigurationService.expandedNodes Example.sharedNickInput).
Proof.
  apply (proj2 (proj2 (proj2 (validated_names_give_templates Example.sharedNickInput)))).
  - reflexivity.
  - repeat constructor.
  - reflexivity.
Defined.

Lemma resolved_password_guards_the_store_witness :
  exists store,
    storeFactory PasswordUndefined false ["abc"; "secret"] None 0 = Some (Ok store) /\
    storageFile (performAll exampleOperations store) =
      Some {| document := storage (performAll exampleOperations store);
              encryptedWith := Some "secret" |}.
Proof.
  destruct (proj1 (proj2 (resolved_password_guards_the_store PasswordUndefined false
                            ["abc"; "secret"] (Some "secret"))))
    as (_ & Hmakes & _ & Hstore).
  - discriminate.
  - reflexivity.
  - destruct (Hmakes 0%nat) as (store & Hmade).
    exists store. split; [exact Hmade|].
    apply (proj2 (Hstore None 0%nat store exampleOperations Hmade)).
    injection Hmade as <-. vm_compute. lia.
Defined.

Lemma lazy_store_delegates_witness :
  LazyKeyStore.factoryCalls
    (fold_left (performLazily (fun _ => Ok Example.emptyKeyStore)) exampleOperations
       LazyKeyStore.new) = 1%nat.
Proof.
  unfold exampleOperations.
  rewrite (proj1 (proj2 (lazy_store_delegates (fun _ => Ok Example.emptyKeyStore)
                           (tl exampleOperations) Example.emptyKeyStore)) eq_refl).
  reflexivity.
Defined.

Lemma resolver_uses_the_store_witness :
  let expected := {| CertificatePair.privateKey := None; CertificatePair.publicKey := "00" |} in
  let run := NetworkAccountResolver.resolveAccount Example.peerNode 152 (Some expected)
               KeyName.Main (Some "node") None Example.emptyKeyStore in
  snd run = Example.mainKeyStore /\
  is_Some (lookupNode "node" Example.peerNode KeyName.Main (snd run)) /\
  exists got, fst run = NetworkAccountResolver.InvalidPublicKey KeyName.Main "00" got.
Proof.
  intros expected run.
  destruct (proj1 (proj2 (resolver_uses_the_store Example.peerNode 152 (Some expected)
                            KeyName.Main (Some "node") None Example.emptyKeyStore))
              "node" eq_refl eq_refl) as [Hstore _].
  split; [exact Hstore|]. split; vm_compute; eauto.
Defined.

End EntryWitnesses.

(** ** The working directory in [generateNemesis] *)

Section Directory.
Context `{Externals}.
Import NetworkGenesisService.

Variables (wp : string) (cd : option (gset string)).
Variables (nif : option NetworkInputFile) (nf : option NetworkFile) (fs : gset string).












End Directory.

Section DirectoryTheorems.
Context `{Externals}.
Import NetworkGenesisService.


End DirectoryTheorems.

Section GenerateNemesisDirectory.
Context `{Externals}.
Import NetworkGenesisService.




End GenerateNemesisDirectory.

Section DirectoryWitness.
Import NetworkGenesisService.


End DirectoryWitness.
